(** * Collie: pipeline generation coordinator, mesh resolution and
      conversation tokenisation

    A shallow embedding of [collie/module.py] ([PipelineModel],
    [PipelineGenerationMixin], [MultiParallelGrid]) and of
    [collie/data/template_utils.py] ([prepare_chatml_messages],
    [tokenize_conversation]), with the properties the design document
    states about them.

    Conventions.
    - A Python object with dynamic attributes (a layer) is a finite map from
      attribute names to values; [hasattr] is definedness of the lookup and
      [object.__setattr__] is map insertion.
    - A method that mutates [self] is a function from the state before to
      the state after paired with a [result]; an exception leaves the
      mutations made before it in place.
    - A value held by a message dict is a [str] or any other object; an
      object that is no [str] is told by what the operations of the
      templates make of it.
    - Code of deepspeed, megatron, transformers and torch that the sources
      call is taken as a parameter of the section that uses it. *)

From stdpp Require Import gmap strings list fin_maps pretty.
From Stdlib Require Import ZArith Lia DecimalString.

Local Open Scope Z_scope.

(** ** Python exceptions and results *)

Inductive exn : Type :=
  | RuntimeError (msg : string)
  | AssertionError (msg : string)
  | ValueError (msg : string)
  | KeyError (key : string)
  | TypeError
  | ZeroDivisionError
  | StopIteration
  | ExternalError (origin : string).

Inductive result (A : Type) : Type :=
  | Ok (a : A)
  | Raise (e : exn).
Arguments Ok {A} a.
Arguments Raise {A} e.

Definition is_ok {A} (r : result A) : bool :=
  match r with Ok _ => true | Raise _ => false end.

Definition is_raise {A} (r : result A) : bool := negb (is_ok r).

(** Sequencing of fallible steps. *)
Definition result_bind {A B} (r : result A) (k : A → result B) : result B :=
  match r with
  | Ok a => k a
  | Raise e => Raise e
  end.

Notation "'let?' x ':=' r 'in' k" := (result_bind r (λ x, k))
  (at level 10, x pattern, r at level 100, k at level 200, only parsing).

(** Sequencing of fallible steps over a mutable state [S]: the state reached
    when an exception is raised is kept. *)
Definition Eff (S A : Type) : Type := S → S * result A.

Definition ret {S A} (a : A) : Eff S A := λ s, (s, Ok a).

Definition raise {S A} (e : exn) : Eff S A := λ s, (s, Raise e).

Definition bind {S A B} (m : Eff S A) (k : A → Eff S B) : Eff S B := λ s,
  match m s with
  | (s', Ok a) => k a s'
  | (s', Raise e) => (s', Raise e)
  end.

Definition lift {S A} (r : result A) : Eff S A := λ s, (s, r).

Definition modify {S} (f : S → S) : Eff S unit := λ s, (f s, Ok ()).

Definition get {S} : Eff S S := λ s, (s, Ok s).

Notation "'let!' x ':=' m 'in' k" := (bind m (λ x, k))
  (at level 10, x pattern, m at level 100, k at level 200, only parsing).

(** A [for] loop with an accumulator whose body may raise. *)
Fixpoint for_each {A B} (body : B → A → result B) (xs : list A) (acc : B)
  : result B :=
  match xs with
  | [] => Ok acc
  | x :: rest => let? acc' := body acc x in for_each body rest acc'
  end.

(** ** Layers and their dynamic attributes *)

(** What an attribute of a layer can hold: [None], a flag ([use_cache]), or
    an opaque tensor state named by a handle. *)
Inductive value : Type :=
  | VNone
  | VBool (b : bool)
  | VObj (handle : positive).

Global Instance value_eq_dec : EqDecision value.
Proof. solve_decision. Defined.

Abbreviation layer := (gmap string value).

Definition hasattr (l : layer) (attr_name : string) : bool :=
  bool_decide (is_Some (l !! attr_name)).

Module Cache.

(** Body of the [for layer in self.layers] loop of [_get_past_key_values]:
    [if hasattr(layer, a) and getattr(layer, a) is not None: acc.append(..)]. *)
Definition gather_step (attr_name : string) (acc : list value) (l : layer)
  : list value :=
  match l !! attr_name with
  | Some v => if decide (v = VNone) then acc else acc ++ [v]
  | None => acc
  end.

(** [PipelineGenerationMixin._get_past_key_values] (module.py 255-260). *)
Definition _get_past_key_values (layers : list layer) (attr_name : string)
  : option (list value) :=
  let past_key_values := foldl (gather_step attr_name) [] layers in
  if decide (1 < length past_key_values)%nat then Some past_key_values
  else None.

(** [PipelineGenerationMixin._get_hidden_states] (module.py 273-278); the
    source repeats the loop under another default attribute name. *)
Definition _get_hidden_states (layers : list layer) (attr_name : string)
  : option (list value) :=
  let past_key_values := foldl (gather_step attr_name) [] layers in
  if decide (1 < length past_key_values)%nat then Some past_key_values
  else None.

(** [object.__setattr__(layer, attr_name, v)] guarded by [hasattr]. *)
Definition setattr_if_present (attr_name : string) (v : value) (l : layer)
  : layer :=
  if hasattr l attr_name then <[attr_name := v]> l else l.

(** [_clean_past_key_values] (module.py 262-265). *)
Definition _clean_past_key_values (layers : list layer) (attr_name : string)
  : list layer :=
  setattr_if_present attr_name VNone <$> layers.

(** [_clean_hidden_states] (module.py 280-283). *)
Definition _clean_hidden_states (layers : list layer) (attr_name : string)
  : list layer :=
  setattr_if_present attr_name VNone <$> layers.

(** [_set_use_cache] (module.py 291-294). *)
Definition _set_use_cache (layers : list layer) (use_cache : bool)
  (attr_name : string) : list layer :=
  setattr_if_present attr_name (VBool use_cache) <$> layers.

(** [_set_past_key_values] (module.py 267-271).  The caller's list is turned
    into an iterator and [next] is called once per layer that has the
    attribute.  [next] on an exhausted iterator raises [StopIteration]; the
    layers visited before keep their new value.  What is left in the
    iterator when the loop ends is dropped. *)
Fixpoint _set_past_key_values (layers : list layer) (past_key_values : list value)
  (attr_name : string) : list layer * result unit :=
  match layers with
  | [] => ([], Ok ())
  | l :: rest =>
      if hasattr l attr_name then
        match past_key_values with
        | [] => (l :: rest, Raise StopIteration)
        | v :: it =>
            let '(rest', r) := _set_past_key_values rest it attr_name in
            (<[attr_name := v]> l :: rest', r)
        end
      else
        let '(rest', r) := _set_past_key_values rest past_key_values attr_name in
        (l :: rest', r)
  end.

(** [_set_hidden_states] (module.py 285-289). *)
Definition _set_hidden_states (layers : list layer) (hidden_states : list value)
  (attr_name : string) : list layer * result unit :=
  _set_past_key_values layers hidden_states attr_name.

(** *** Declarative counterparts used in the statements *)

(** The slot of a layer under [attr_name], when it is non-empty. *)
Definition slot (attr_name : string) (l : layer) : option value :=
  match l !! attr_name with
  | Some v => if decide (v = VNone) then None else Some v
  | None => None
  end.

(** The non-empty slots of the stage, in layer definition order. *)
Definition non_empty_slots (attr_name : string) (layers : list layer)
  : list value :=
  omap (slot attr_name) layers.

(** The layers that carry the attribute at all (cache-bearing layers). *)
Definition cache_bearing (attr_name : string) (layers : list layer)
  : list layer :=
  filter (λ l, hasattr l attr_name = true) layers.

(** A slot reads as empty: the attribute is absent or holds [None]. *)
Definition slot_empty (attr_name : string) (l : layer) : Prop :=
  l !! attr_name = None ∨ l !! attr_name = Some VNone.

Global Instance slot_empty_dec a l : Decision (slot_empty a l).
Proof. unfold slot_empty. apply _. Defined.

(** What the cache-bearing layers hold under [attr_name], in definition
    order. *)
Definition held (attr_name : string) (layers : list layer)
  : list (option value) :=
  (λ l : layer, l !! attr_name) <$> cache_bearing attr_name layers.

End Cache.

(** ** Token-id tensors *)

(** A two-dimensional integer tensor: [torch.Size([shape0, shape1])] and the
    rows of token ids. *)
Record Tensor2 : Type := mkTensor2 {
  shape0 : nat;
  shape1 : nat;
  rows : list (list Z)
}.

Global Instance Tensor2_eq_dec : EqDecision Tensor2.
Proof. solve_decision. Defined.

Definition shape (t : Tensor2) : nat * nat := (shape0 t, shape1 t).

Definition well_shaped (t : Tensor2) : Prop :=
  length (rows t) = shape0 t ∧ Forall (λ r, length r = shape1 t) (rows t).

(** Python's [r[-1:]] on a row: the last element as a one-element list, or
    the empty list when the row is empty. *)
Definition last_slice (r : list Z) : list Z := drop (length r - 1)%nat r.

(** [input_ids[:, -1:]]. *)
Definition last_column (t : Tensor2) : Tensor2 :=
  {| shape0 := shape0 t;
     shape1 := Nat.min (shape1 t) 1;
     rows := last_slice <$> rows t |}.

(** ** The generation coordinator *)

Module Generation.
Import Cache.

(** The deepspeed engine as the mixin uses it.  [eval_batch] runs the local
    stage's layers, which are the very objects the mixin holds in
    [self.layers] (module.py 252-253), so it receives and returns them. *)
Class EngineModel : Type := {
  engine_state : Type;
  logits : Type;
  eval_batch : engine_state → list layer → Tensor2 * Tensor2 →
               engine_state * list layer * result logits;
  reset_activation_shape : engine_state → engine_state;
  set_total_loss_none : engine_state → engine_state
}.

(** Calls the mixin makes on the engine, in program order. *)
Inductive call : Type :=
  | CallResetActivationShape
  | CallEvalBatch (batch : Tensor2).

Global Instance call_eq_dec : EqDecision call.
Proof. solve_decision. Defined.

Section Mixin.
Context `{EngineModel}.

(** The fields of [PipelineGenerationMixin] that its methods read or write,
    and the record of engine calls. *)
Record Mixin : Type := mkMixin {
  engine : engine_state;
  layers : list layer;
  communicate_buffer_shape : option (nat * nat);
  use_cache : bool;
  calls : list call
}.

(** [PipelineGenerationMixin.__init__] (module.py 198-208). *)
Definition __init__ (e : engine_state) (forward_funcs : list layer)
  (generation_config_use_cache : bool) : Mixin :=
  {| engine := e;
     layers := forward_funcs;
     communicate_buffer_shape := None;
     use_cache := generation_config_use_cache;
     calls := [] |}.

(** Methods over the mixin. *)
Abbreviation M := (Eff Mixin).

Definition with_layers (ls : list layer) (self : Mixin) : Mixin :=
  {| engine := engine self; layers := ls;
     communicate_buffer_shape := communicate_buffer_shape self;
     use_cache := use_cache self; calls := calls self |}.

(** [CausalLMOutputWithPast] as [forward] fills it. *)
Record CausalLMOutputWithPast : Type := mkOutput {
  loss : option logits;
  out_logits : logits;
  past_key_values : option (list value);
  hidden_states : option (list value);
  attentions : option logits
}.

(** The tensor [forward] hands to the engine (module.py 217-220). *)
Definition forwarded (self : Mixin) (input_ids : Tensor2) : Tensor2 :=
  match _get_past_key_values (layers self) "past_key_values" with
  | Some _ => last_column input_ids
  | None => input_ids
  end.

(** The buffer-shape bookkeeping of [forward] (module.py 221-227). *)
Definition sync_buffer_shape (batch0 : Tensor2) (self : Mixin) : Mixin :=
  match communicate_buffer_shape self with
  | None =>
      {| engine := engine self; layers := layers self;
         communicate_buffer_shape := Some (shape batch0);
         use_cache := use_cache self; calls := calls self |}
  | Some s =>
      if decide (s ≠ shape batch0) then
        {| engine := set_total_loss_none (reset_activation_shape (engine self));
           layers := layers self;
           communicate_buffer_shape := Some (shape batch0);
           use_cache := use_cache self;
           calls := calls self ++ [CallResetActivationShape] |}
      else self
  end.

(** [PipelineGenerationMixin.forward] (module.py 216-235). *)
Definition forward (input_ids : Tensor2) : M CausalLMOutputWithPast := λ self,
  let input_ids := forwarded self input_ids in
  let batch := (input_ids, input_ids) in
  let self := sync_buffer_shape batch.1 self in
  let '(e, ls, r) := eval_batch (engine self) (layers self) batch in
  let self :=
    {| engine := e; layers := ls;
       communicate_buffer_shape := communicate_buffer_shape self;
       use_cache := use_cache self;
       calls := calls self ++ [CallEvalBatch batch.1] |} in
  match r with
  | Ok lg =>
      (self, Ok {| loss := None;
                   out_logits := lg;
                   past_key_values := _get_past_key_values ls "past_key_values";
                   hidden_states := _get_hidden_states ls "hidden_states";
                   attentions := None |})
  | Raise e => (self, Raise e)
  end.

(** [prepare_inputs_for_generation] (module.py 237-247). *)
Definition prepare_inputs_for_generation (input_ids : Tensor2)
  (past_key_values : option (list value)) : M Tensor2 := λ self,
  let self := with_layers (_set_use_cache (layers self) (use_cache self) "use_cache") self in
  match past_key_values with
  | None =>
      (with_layers (_clean_past_key_values (layers self) "past_key_values") self,
       Ok input_ids)
  | Some pkv =>
      let '(ls, r) := _set_past_key_values (layers self) pkv "past_key_values" in
      match r with
      | Ok _ => (with_layers ls self, Ok input_ids)
      | Raise e => (with_layers ls self, Raise e)
      end
  end.

(** [transformers.GenerationMixin.generate], reached through
    [super().generate]: it drives the two methods the mixin overrides. *)
Class SuperGenerate (Args Res : Type) : Type :=
  super_generate :
    (Tensor2 → option (list value) → M Tensor2) →
    (Tensor2 → M CausalLMOutputWithPast) →
    Args → M Res.

(** [PipelineGenerationMixin.generate] (module.py 210-214). *)
Definition generate {Args Res} `{SuperGenerate Args Res} (args : Args) : M Res :=
  λ self,
  match super_generate prepare_inputs_for_generation forward args self with
  | (self, Ok res) =>
      let self := with_layers (_clean_past_key_values (layers self) "past_key_values") self in
      let self := with_layers (_clean_hidden_states (layers self) "hidden_states") self in
      (self, Ok res)
  | (self, Raise e) => (self, Raise e)
  end.

(** Running a sequence of [forward] calls one after the other, whatever each
    of them returns. *)
Definition run_forwards (inputs : list Tensor2) (self : Mixin) : Mixin :=
  foldl (λ st ids, (forward ids st).1) self inputs.


(** *** The two states of the coordinator *)

Inductive CoordinatorState : Type := NoCache | CachePopulated.

(** The state [forward] acts on: [CachePopulated] when the per-layer cache
    gathered from the stage is present. *)
Definition coordinator_state (self : Mixin) : CoordinatorState :=
  match _get_past_key_values (layers self) "past_key_values" with
  | Some _ => CachePopulated
  | None => NoCache
  end.

(** The tensors handed to [eval_batch], in call order. *)
Definition eval_batches (cs : list call) : list Tensor2 :=
  omap (λ c, match c with CallEvalBatch b => Some b | _ => None end) cs.


(** The call record in which a reset precedes exactly those [eval_batch]
    calls whose tensor has another shape than the stored one. *)
Fixpoint reset_on_change (stored : option (nat * nat)) (batches : list Tensor2)
  : list call :=
  match batches with
  | [] => []
  | b :: rest =>
      match stored with
      | Some s =>
          if decide (s ≠ shape b)
          then CallResetActivationShape :: CallEvalBatch b :: reset_on_change (Some (shape b)) rest
          else CallEvalBatch b :: reset_on_change (Some (shape b)) rest
      | None => CallEvalBatch b :: reset_on_change (Some (shape b)) rest
      end
  end.

(** Every layer of the stage reads as empty in both slots. *)
Definition all_slots_empty (self : Mixin) : Prop :=
  Forall (λ l, slot_empty "past_key_values" l ∧ slot_empty "hidden_states" l)
         (layers self).

End Mixin.
End Generation.

(** ** Process mesh and [PipelineModel] construction *)

Module Pipeline.

(** What the constructor sees of its process: [os.environ], the rank and
    world size [torch.distributed] reports, and the messages handed to
    [logger.rank_zero_warning]. *)
Record Process : Type := mkProcess {
  environ : gmap string string;
  dist_rank : Z;
  dist_world_size : Z;
  warnings : list string
}.

Definition setenv (k v : string) (p : Process) : Process :=
  {| environ := <[k := v]> (environ p);
     dist_rank := dist_rank p;
     dist_world_size := dist_world_size p;
     warnings := warnings p |}.

Definition add_warning (msg : string) (p : Process) : Process :=
  {| environ := environ p;
     dist_rank := dist_rank p;
     dist_world_size := dist_world_size p;
     warnings := warnings p ++ [msg] |}.

Definition rank_zero_warning (msg : string) : Eff Process unit :=
  modify (add_warning msg).

(** [PipeModelDataParallelTopology(num_pp, num_dp, num_mp)]: the axes
    [pipe], [data], [model] and their lengths. *)
Record Topology : Type := mkTopology {
  num_pp : Z;
  num_dp : Z;
  num_mp : Z
}.

Definition dims (t : Topology) : Z * Z * Z := (num_pp t, num_dp t, num_mp t).

(** A coordinate of the mesh, as [get_coord] returns it. *)
Record ProcessCoord : Type := mkCoord {
  pipe : Z;
  data : Z;
  model : Z
}.

(** The library code [PipelineModel.__init__] and [MultiParallelGrid.__init__]
    call: Python's [int] on a string, deepspeed's topology lookup
    ([ProcessTopology.get_coord]) and the two grid methods built on it
    ([PipelineParallelGrid.get_stage_id], [get_data_parallel_id]), megatron's
    process groups, deepspeed's partitioning, stage building and tied-weight
    synchronisation. *)
Class Library : Type := {
  LayerSpec : Type;
  int_of_str : string → option Z;
  get_coord : Topology → Z → result ProcessCoord;
  get_stage_id : Topology → Z → result Z;
  get_data_parallel_id : Topology → Z → result Z;
  parallel_state_groups : Topology → Z → result unit;
  _partition_layers : list LayerSpec → Topology → Z → string → result (list Z);
  _build : list LayerSpec → list Z → Z → result (list layer);
  _synchronize_tied_weights : list layer → result unit
}.

(** [str(n)] and [json.dumps] of a list of integers. *)
Definition str (n : Z) : string := pretty n.

Fixpoint join (sep : string) (ss : list string) : string :=
  match ss with
  | [] => EmptyString
  | [s] => s
  | s :: rest => s +:+ sep +:+ join sep rest
  end.

Definition json_dumps (xs : list Z) : string :=
  "[" +:+ join ", " (str <$> xs) +:+ "]".

(** Modelled from the spec: [PipelineParallelGrid._is_grid_valid], which
    [MultiParallelGrid] inherits from deepspeed and asserts, is not among the
    sources.  The design document (4.1) has the resulting mesh validated as
    non-degenerate: all dims at least 1 and the division exact, that is, the
    dims multiply to the number of worker processes. *)
Definition _is_grid_valid (t : Topology) (world_size : Z) : bool :=
  bool_decide (1 ≤ num_pp t) && bool_decide (1 ≤ num_dp t) &&
  bool_decide (1 ≤ num_mp t) &&
  bool_decide (num_pp t * num_dp t * num_mp t = world_size).

Section Construction.
Context `{Library}.

(** [int(os.environ.get(key))]: [int(None)] is a [TypeError], a string that
    is no integer literal a [ValueError]. *)
Definition environ_int (key : string) : Eff Process Z := λ p,
  match environ p !! key with
  | None => (p, Raise TypeError)
  | Some s =>
      match int_of_str s with
      | Some n => (p, Ok n)
      | None => (p, Raise (ValueError s))
      end
  end.

(** [WORLD_SIZE] is set in the environment and reads as the integer [W]. *)
Definition world_size_is (p : Process) (W : Z) : Prop :=
  ∃ s, environ p !! "WORLD_SIZE" = Some s ∧ int_of_str s = Some W.

(** Python's [a // b] on integers. *)
Definition floordiv (a b : Z) : result Z :=
  if decide (b = 0) then Raise ZeroDivisionError else Ok (a `div` b).

(** The f-string of the first warning (module.py 154-155). *)
Definition mismatch_message (world_size pp_size dp_size tp_size : Z) : string :=
  "The world size is not equal to the product of the parallel sizes set." +:+
  (str world_size +:+ " != " +:+ str pp_size +:+ " * " +:+ str dp_size +:+
   " * " +:+ str tp_size +:+ ".").

(** The text of the second warning (module.py 157): a plain string literal,
    the braces are not a format field. *)
Definition set_dp_size_message : string := "Set dp_size to {dp_size}.".

(** Mesh resolution (module.py 152-161). *)
Definition resolve_topology (topology : Topology) : Eff Process Topology :=
  let '(pp_size, dp_size, tp_size) := dims topology in
  let! world_size := environ_int "WORLD_SIZE" in
  if decide (world_size ≠ pp_size * dp_size * tp_size) then
    let! world_size := environ_int "WORLD_SIZE" in
    let! _ := rank_zero_warning
                (mismatch_message world_size pp_size dp_size tp_size) in
    let! world_size := environ_int "WORLD_SIZE" in
    let! dp_size := lift (floordiv world_size (tp_size * pp_size)) in
    let! _ := rank_zero_warning set_dp_size_message in
    ret {| num_pp := pp_size; num_dp := dp_size; num_mp := tp_size |}
  else
    ret {| num_pp := pp_size; num_dp := dp_size; num_mp := tp_size |}.

(** The fields of [MultiParallelGrid] set in module.py 301-313 and 327-328. *)
Record MultiParallelGrid : Type := mkGrid {
  grid_global_rank : Z;
  grid_world_size : Z;
  grid_topo : Topology;
  data_parallel_size : Z;
  pipe_parallel_size : Z;
  model_parallel_size : Z;
  slice_parallel_size : Z;
  grid_stage_id : Z;
  data_parallel_id : Z;
  is_first_stage : bool;
  is_last_stage : bool
}.

(** [MultiParallelGrid.__init__] (module.py 301-338). *)
Definition MultiParallelGrid__init__ (topology : Topology)
  : Eff Process MultiParallelGrid :=
  let! p := get in
  let global_rank := dist_rank p in
  let world_size := dist_world_size p in
  let data_parallel_size := num_dp topology `max` 1 in
  let pipe_parallel_size := num_pp topology `max` 1 in
  let model_parallel_size := num_mp topology `max` 1 in
  if negb (_is_grid_valid topology (dist_world_size p)) then
    raise (AssertionError "Invalid Grid")
  else
    let! stage_id := lift (get_stage_id topology global_rank) in
    let! data_parallel_id := lift (get_data_parallel_id topology global_rank) in
    let! _ := lift (parallel_state_groups topology global_rank) in
    ret {| grid_global_rank := global_rank;
           grid_world_size := world_size;
           grid_topo := topology;
           data_parallel_size := data_parallel_size;
           pipe_parallel_size := pipe_parallel_size;
           model_parallel_size := model_parallel_size;
           slice_parallel_size := model_parallel_size;
           grid_stage_id := stage_id;
           data_parallel_id := data_parallel_id;
           is_first_stage := bool_decide (stage_id = 0);
           is_last_stage := bool_decide (stage_id = pipe_parallel_size - 1) |}.

(** The fields of [PipelineModel] its constructor sets from the mesh and the
    partition. *)
Record PipelineModel : Type := mkPipelineModel {
  global_rank : Z;
  world_size : Z;
  local_rank : Z;
  _topo : Topology;
  num_stages : Z;
  _grid : MultiParallelGrid;
  stage_id : Z;
  _layer_specs : list LayerSpec;
  _num_layers : nat;
  parts : list Z;
  forward_funcs : list layer;
  activation_checkpoint_interval : Z
}.

(** [PipelineModel.__init__] (module.py 108-194).  [topology] is [None] when
    the caller passes none.  The arguments that are only stored ([loss_fn],
    the seeds, [checkpointable_layers], the checkpoint function) and the
    start-up print of rank 0 are left out. *)
Definition PipelineModel__init__ (layers : list LayerSpec)
  (topology : option Topology) (partition_method : string)
  (activation_checkpoint_interval : Z) : Eff Process PipelineModel :=
  match topology with
  | None => raise (RuntimeError "must provide topology")
  | Some topology =>
      let! p := get in
      let global_rank := dist_rank p in
      let world_size := dist_world_size p in
      let! local_rank := environ_int "LOCAL_RANK" in
      let! topology := resolve_topology topology in
      let num_stages := num_pp topology in
      let! grid := MultiParallelGrid__init__ topology in
      let! c := lift (get_coord topology global_rank) in
      let stage_id := pipe c in
      let! parts := lift (_partition_layers layers topology stage_id partition_method) in
      let! forward_funcs := lift (_build layers parts stage_id) in
      let! _ := lift (_synchronize_tied_weights forward_funcs) in
      let! _ := modify (setenv "COLLIE_PP_PARTS" (json_dumps parts)) in
      let! _ := modify (setenv "COLLIE_PP_RANK" (str stage_id)) in
      let! _ := modify (setenv "COLLIE_DP_RANK" (str (data_parallel_id grid))) in
      ret {| global_rank := global_rank;
             world_size := world_size;
             local_rank := local_rank;
             _topo := topology;
             num_stages := num_stages;
             _grid := grid;
             stage_id := stage_id;
             _layer_specs := layers;
             _num_layers := length layers;
             parts := parts;
             forward_funcs := forward_funcs;
             activation_checkpoint_interval := activation_checkpoint_interval |}
  end.

End Construction.

(** *** Vocabulary of the statements *)

(** The data-parallel size the resolution ends with, as the design document
    words it: kept when the requested dims multiply to the world size,
    otherwise the world size divided by pipeline times tensor size. *)
Definition resolved_dp_size (world_size pp_size dp_size tp_size : Z) : Z :=
  if decide (world_size = pp_size * dp_size * tp_size) then dp_size
  else world_size `div` (pp_size * tp_size).

(** A mesh that is not well-formed for [world_size] processes. *)
Definition invalid_mesh (world_size pp_size dp_size tp_size : Z) : Prop :=
  pp_size ≤ 0 ∨ dp_size ≤ 0 ∨ tp_size ≤ 0 ∨
  world_size `mod` (pp_size * tp_size) ≠ 0.

(** [needle in haystack] on strings. *)
Fixpoint contains (haystack needle : string) : bool :=
  String.prefix needle haystack ||
  match haystack with
  | EmptyString => false
  | String _ rest => contains rest needle
  end.

End Pipeline.

(** ** Chat templates and conversation tokenisation *)

Module Template.

(** A value held by a message dict.  The templates compare it with a
    [str] ([==]), add a [str] to it ([+]), insert it in an f-string, use it
    as a dict key and hand it to [json.dumps].  A [str] is its text.  Any
    other object ([None], a number, a list, a dict, an instance of a class
    that keeps the default operators) is told by what these operations make
    of it: the text an f-string shows for it, whether it is hashable, and
    what [json.dumps] returns or raises on it.  Such an object is equal to
    no [str], and adding a [str] to it raises [TypeError]. *)
Inductive object : Type :=
  | Str (s : string)
  | NonStr (shown : string) (hashable : bool) (dumped : result string).

Global Instance exn_eq_dec : EqDecision exn.
Proof. solve_decision. Defined.

Global Instance result_eq_dec `{EqDecision A} : EqDecision (result A).
Proof. solve_decision. Defined.

Global Instance object_eq_dec : EqDecision object.
Proof. solve_decision. Defined.

(** [o + s] for a [str] [s]. *)
Definition add_str (o : object) (s : string) : result string :=
  match o with
  | Str t => Ok (t +:+ s)
  | NonStr _ _ _ => Raise TypeError
  end.

(** What an f-string inserts for [{o}]. *)
Definition format (o : object) : string :=
  match o with
  | Str s => s
  | NonStr shown _ _ => shown
  end.

(** The object is a [str]. *)
Definition is_str (o : object) : Prop :=
  match o with
  | Str _ => True
  | NonStr _ _ _ => False
  end.

Global Instance is_str_dec o : Decision (is_str o).
Proof. destruct o; apply _. Defined.

(** A message is a Python dict; so is a conversation, whose [text_field]
    entry holds the list of messages. *)
Abbreviation message := (gmap string object).
Abbreviation conversation := (gmap string (list message)).

(** [d[key]] on a dict. *)
Definition getitem {V} (d : gmap string V) (key : string) : result V :=
  match d !! key with
  | Some v => Ok v
  | None => Raise (KeyError key)
  end.

(** An entry of the prepared list: [{"content": .., "require_loss": ..}]. *)
Record prepared : Type := mkPrepared {
  content : string;
  require_loss : bool
}.

(** What a tokenizer call returns, as far as it is read. *)
Record BatchEncoding : Type := mkEncoding {
  input_ids : list Z;
  attention_mask : list Z
}.

Definition prepare_fn : Type :=
  conversation → gmap string string → string → bool → result (list prepared).

(** The tokenizer object: its class name, its special tokens, and the call
    [tokenizer(text, add_special_tokens=False)]. *)
Record Tokenizer : Type := mkTokenizer {
  type_name : string;
  special_tokens_map : gmap string string;
  call : string → result BatchEncoding
}.

(** Body of the loop of [prepare_chatml_messages] (template_utils.py 27-35). *)
Definition chatml_step (prepared_messages : list prepared) (m : message)
  : result (list prepared) :=
  let? role := getitem m "role" in
  if decide (role = Str "assistant") then
    let prepared_messages :=
      prepared_messages ++ [mkPrepared "<|im_start|>assistant
" false] in
    let? c := getitem m "content" in
    let? reply := add_str c "<|im_end|>" in
    let prepared_messages :=
      prepared_messages ++ [mkPrepared reply true] in
    Ok (prepared_messages ++ [mkPrepared "
" false])
  else
    let? role := getitem m "role" in
    let? c := getitem m "content" in
    Ok (prepared_messages ++
        [mkPrepared ("<|im_start|>" +:+ format role +:+ "
" +:+ format c +:+ "<|im_end|>
") false]).

(** [prepare_chatml_messages] (template_utils.py 5-38). *)
Definition prepare_chatml_messages : prepare_fn :=
  λ messages special_tokens_map text_field add_generation_prompt,
  let prepared_messages := [] in
  let? bos := getitem special_tokens_map "bos_token" in
  let prepared_messages := prepared_messages ++ [mkPrepared bos false] in
  let? history := getitem messages text_field in
  let? prepared_messages := for_each chatml_step history prepared_messages in
  if add_generation_prompt then
    Ok (prepared_messages ++ [mkPrepared "<|im_start|>assistant
" false])
  else Ok prepared_messages.

(** [TOKENIZER_PREPARE_TEMPLATE_FN_MAPPING] (template_utils.py 109-112). *)
Definition TOKENIZER_PREPARE_TEMPLATE_FN_MAPPING : list (string * prepare_fn) :=
  [("Qwen2Tokenizer", prepare_chatml_messages);
   ("Qwen2TokenizerFast", prepare_chatml_messages)].

Fixpoint assoc {V} (key : string) (kvs : list (string * V)) : option V :=
  match kvs with
  | [] => None
  | (k, v) :: rest => if decide (k = key) then Some v else assoc key rest
  end.

(** Body of the loop of [tokenize_conversation] (template_utils.py 132-140). *)
Definition tokenize_step (tokenizer : Tokenizer)
  (acc : list Z * list Z * list Z) (m : prepared)
  : result (list Z * list Z * list Z) :=
  let '(ids, labels, mask) := acc in
  let? output := call tokenizer (content m) in
  let label :=
    if require_loss m then input_ids output
    else replicate (length (input_ids output)) (-100) in
  Ok (ids ++ input_ids output, labels ++ label, mask ++ attention_mask output).

(** [tokenize_conversation] (template_utils.py 115-142). *)
Definition tokenize_conversation (conv : conversation) (tokenizer : Tokenizer)
  (text_field : string) (prepare_template_fn : option prepare_fn)
  (add_generation_prompt : bool) : result (list Z * list Z * list Z) :=
  let? prepare_template_fn :=
    match prepare_template_fn with
    | None =>
        match assoc (type_name tokenizer) TOKENIZER_PREPARE_TEMPLATE_FN_MAPPING with
        | None =>
            Raise (ValueError ("Tokenizer " +:+ type_name tokenizer +:+
                               " has no preset template. Please provide one."))
        | Some f => Ok f
        end
    | Some f => Ok f
    end in
  let? prepared_messages :=
    prepare_template_fn conv (special_tokens_map tokenizer) text_field
                        add_generation_prompt in
  for_each (tokenize_step tokenizer) prepared_messages ([], [], []).

(** *** Vocabulary of the statements *)

(** The labels one prepared segment contributes, as the claim words them:
    the ignore index on every token of a segment that needs no loss, the
    token ids themselves on a segment that does. *)
Definition segment_labels (needs_loss : bool) (ids : list Z) : list Z :=
  if needs_loss then ids else (λ _, -100) <$> ids.

(** The labels of a whole conversation: segment by segment, in order. *)
Definition conversation_labels (segments : list (prepared * BatchEncoding))
  : list Z :=
  segments ≫= (λ seg, segment_labels (require_loss seg.1) (input_ids seg.2)).

(** The tokenizer returns one mask entry per token id. *)
Definition mask_per_token (tokenizer : Tokenizer) : Prop :=
  ∀ text enc, call tokenizer text = Ok enc →
    length (attention_mask enc) = length (input_ids enc).

End Template.

(** ** Further vocabulary for the per-layer slots *)

Module CacheMore.
Import Cache.

(** Every layer that carries [attr_name] holds something other than [None]
    under it. *)
Definition all_bearing_filled (attr_name : string) (layers : list layer)
  : Prop :=
  Forall (λ l : layer, l !! attr_name ≠ Some VNone) layers.

Global Instance all_bearing_filled_dec a layers :
  Decision (all_bearing_filled a layers).
Proof. unfold all_bearing_filled. apply _. Defined.

(** Two stages that differ at most in the attribute [attr_name]. *)
Definition same_but (attr_name : string) (layers layers' : list layer)
  : Prop :=
  Forall2 (λ l l' : layer,
             (∀ b, b ≠ attr_name → l' !! b = l !! b) ∧
             hasattr l' attr_name = hasattr l attr_name)
          layers layers'.

End CacheMore.

(** ** Vocabulary for the chat template *)

Module TemplateMore.
Import Template.

(** The text a list of prepared segments spells out. *)
Fixpoint rendered (ms : list prepared) : string :=
  match ms with
  | [] => EmptyString
  | m :: rest => content m +:+ rendered rest
  end.

(** A turn of the conversation: the role and the content of a message. *)
Abbreviation turn := (object * object)%type.

(** The ChatML format as the docstring of [prepare_chatml_messages] gives
    it (template_utils.py 9-15): the bos token, then for every message
    ['<|im_start|>' + role + '\n' + content + '<|im_end|>' + '\n'], then
    ['<|im_start|>assistant\n'] when a generation prompt is asked for.  Role
    and content stand in the text as they are shown. *)
Definition chatml_message (t : turn) : string :=
  "<|im_start|>" +:+ format t.1 +:+ "
" +:+ format t.2 +:+ "<|im_end|>" +:+ "
".

Fixpoint chatml_messages (turns : list turn) : string :=
  match turns with
  | [] => EmptyString
  | t :: rest => chatml_message t +:+ chatml_messages rest
  end.

Definition chatml_format (bos_token : string) (turns : list turn)
  (add_generation_prompt : bool) : string :=
  bos_token +:+ chatml_messages turns +:+
  (if add_generation_prompt then "<|im_start|>assistant
" else EmptyString).

(** A message the ChatML template can render: it has a role and a content,
    and the reply of the assistant is a [str]. *)
Definition chatml_renders (m : message) : Prop :=
  ∃ r c, m !! "role" = Some r ∧ m !! "content" = Some c ∧
         (r = Str "assistant" → is_str c).

(** What the body of the loop raises on a message it cannot render: the
    missing key, or the [TypeError] of adding a [str] to a reply that is
    none. *)
Definition chatml_error (m : message) : exn :=
  match m !! "role", m !! "content" with
  | None, _ => KeyError "role"
  | Some _, None => KeyError "content"
  | Some _, Some _ => TypeError
  end.

(** A message dict read as its role and content, when it can be
    rendered. *)
Definition turn_of (m : message) : option turn :=
  match m !! "role", m !! "content" with
  | Some r, Some c =>
      if decide (r = Str "assistant" ∧ ¬ is_str c) then None else Some (r, c)
  | _, _ => None
  end.

(** The replies of the assistant, in order. *)
Definition assistant_replies (turns : list turn) : list string :=
  (λ t : turn, format t.2) <$> filter (λ t : turn, t.1 = Str "assistant") turns.

(** The segments one turn is prepared into. *)
Definition turn_segments (t : turn) : list prepared :=
  if decide (t.1 = Str "assistant") then
    [ mkPrepared "<|im_start|>assistant
" false;
      mkPrepared (format t.2 +:+ "<|im_end|>") true;
      mkPrepared "
" false ]
  else
    [ mkPrepared ("<|im_start|>" +:+ format t.1 +:+ "
" +:+ format t.2 +:+ "<|im_end|>
") false ].

End TemplateMore.

(** ** The MOSS template *)

Module Moss.
Import Template.

(** [json.dumps] on a [str]: the quoted and escaped text. *)
Class Json : Type := {
  json_string : string → string
}.

Section Messages.
Context `{Json}.

(** [json.dumps(o)]. *)
Definition json_dumps (o : object) : result string :=
  match o with
  | Str s => Ok (json_string s)
  | NonStr _ _ dumped => dumped
  end.

(** [end_token_dict] (template_utils.py 52-63). *)
Definition end_token_dict : list (string * string) :=
  [ ("user", "<|end_of_user|>");
    ("system", "<|end_of_system|>");
    ("assistant", "<|end_of_assistant|>");
    ("func_call", "<|end_of_func_call|>");
    ("func_ret", "<|end_of_func_ret|>");
    ("thought", "<|end_of_thought|>");
    ("image", "<|end_of_image|>");
    ("audio", "<|end_of_audio|>");
    ("video", "<|end_of_video|>");
    ("moss", "<|end_of_moss|>") ].

(** [end_token_dict[key]]: a key that is no [str] is not in the dict, and
    cannot even be looked up when it is not hashable. *)
Definition end_token (key : object) : result string :=
  match key with
  | Str k =>
      match assoc k end_token_dict with
      | Some tok => Ok tok
      | None => Raise (KeyError k)
      end
  | NonStr shown hashable _ =>
      if hashable then Raise (KeyError shown) else Raise TypeError
  end.

(** Body of the loop of [prepare_moss_messages] (template_utils.py 66-101);
    the state is the list built so far and [first_user_message]. *)
Definition moss_step (state : list prepared * bool) (message : message)
  : result (list prepared * bool) :=
  let '(prepared_messages, first_user_message) := state in
  let? role := getitem message "role" in
  if decide (role = Str "user") then
    let? c := getitem message "content" in
    let message_content :=
      "<|im_start|>user
" +:+ format c +:+ "<|end_of_user|>" +:+ "
" in
    if first_user_message then
      Ok (prepared_messages ++ [mkPrepared message_content false], false)
    else
      Ok ((prepared_messages ++ [mkPrepared "<|end_of_moss|>" true]) ++
          [mkPrepared ("
" +:+ message_content) false], first_user_message)
  else if decide (role = Str "assistant") then
    let prepared_messages :=
      prepared_messages ++ [mkPrepared "<|im_start|>assistant
" false] in
    let? c := getitem message "content" in
    let? reply := add_str c "<|end_of_assistant|>" in
    let prepared_messages :=
      prepared_messages ++ [mkPrepared reply true] in
    Ok (prepared_messages ++ [mkPrepared "
" false], first_user_message)
  else if decide (role = Str "func_call") then
    let? fc := getitem message "func_call" in
    let? func_call_content := json_dumps fc in
    let prepared_messages :=
      prepared_messages ++
      [mkPrepared ("<|im_start|>func_call
" +:+ func_call_content +:+ "<|end_of_func_call|>") true] in
    Ok (prepared_messages ++ [mkPrepared "
" false], first_user_message)
  else if decide (role = Str "func_ret") then
    let? fr := getitem message "func_ret" in
    let? func_ret_content := json_dumps fr in
    Ok (prepared_messages ++
        [mkPrepared ("<|im_start|>func_ret
" +:+ func_ret_content +:+ "<|end_of_func_ret|>" +:+ "
") false], first_user_message)
  else
    let? c := getitem message "content" in
    let? tok := end_token role in
    Ok (prepared_messages ++
        [mkPrepared ("<|im_start|>" +:+ format role +:+ "
" +:+ format c +:+ tok +:+ "
") false], first_user_message).

(** [prepare_moss_messages] (template_utils.py 41-106). *)
Definition prepare_moss_messages : prepare_fn :=
  λ messages special_tokens_map text_field add_generation_prompt,
  let prepared_messages := [] in
  let? bos := getitem special_tokens_map "bos_token" in
  let prepared_messages := prepared_messages ++ [mkPrepared bos false] in
  let first_user_message := true in
  let? history := getitem messages text_field in
  let? state :=
    for_each moss_step history (prepared_messages, first_user_message) in
  let prepared_messages :=
    state.1 ++ [mkPrepared ("<|end_of_moss|>" +:+ "
") true] in
  if add_generation_prompt then
    Ok (prepared_messages ++ [mkPrepared "<|im_start|>assistant
" false])
  else Ok prepared_messages.

(** *** Vocabulary of the statements *)

Definition has_role (r : string) (message : message) : Prop :=
  message !! "role" = Some (Str r).

Global Instance has_role_dec r message : Decision (has_role r message).
Proof. unfold has_role. apply _. Defined.

(** The roles of the final [else] branch that [end_token_dict] knows. *)
Definition other_known_role (r : object) : Prop :=
  r ∈ Str <$> ["system"; "thought"; "image"; "audio"; "video"; "moss"].

(** A message that has what the branch of its role reads, in a form the
    branch can use: a content for a user message, a content that is a [str]
    for an assistant message, a value [json.dumps] serialises for a function
    call or return, and for any other role one of the further keys of
    [end_token_dict] and a content. *)
Definition moss_well_formed (message : message) : Prop :=
  match message !! "role" with
  | None => False
  | Some r =>
      if decide (r = Str "user") then is_Some (message !! "content")
      else if decide (r = Str "assistant") then
        ∃ c, message !! "content" = Some c ∧ is_str c
      else if decide (r = Str "func_call") then
        ∃ v, message !! "func_call" = Some v ∧ is_ok (json_dumps v) = true
      else if decide (r = Str "func_ret") then
        ∃ v, message !! "func_ret" = Some v ∧ is_ok (json_dumps v) = true
      else is_Some (message !! "content") ∧ other_known_role r
  end.

(** A history of plain data: every role and every reply of the assistant
    is a [str], and [json.dumps] serialises what the function messages
    carry. *)
Definition moss_plain (message : message) : Prop :=
  (∀ r, message !! "role" = Some r → is_str r) ∧
  (∀ c, has_role "assistant" message → message !! "content" = Some c →
        is_str c) ∧
  (∀ v, message !! "func_call" = Some v → is_ok (json_dumps v) = true) ∧
  (∀ v, message !! "func_ret" = Some v → is_ok (json_dumps v) = true).

(** How many segments with loss a history gives rise to before the closing
    marker: one per assistant message, one per function call and one before
    every user message but the first. *)
Definition loss_segments (history : list message) : nat :=
  length (filter (has_role "assistant") history) +
  length (filter (has_role "func_call") history) +
  pred (length (filter (has_role "user") history)).

End Messages.
End Moss.

(** ** The language-model loss *)

Module Loss.

Section GPTLMLoss.
Context {Row Scalar : Type}.

(** [torch.nn.CrossEntropyLoss(ignore_index=..)] on the flattened rows of
    logits and the flattened labels. *)
Variable cross_entropy : Z → list Row → list Z → result Scalar.

(** [logits[..., :-1, :]] on a batch of sequences of logit rows. *)
Definition shift_logits (logits : list (list Row)) : list (list Row) :=
  (λ seq, take (length seq - 1) seq) <$> logits.

(** [labels[..., 1:]] on a batch of label sequences. *)
Definition shift_labels (labels : list (list Z)) : list (list Z) :=
  drop 1 <$> labels.

(** [GPTLMLoss.forward] (module.py 100-104); [ignore_index] is the value
    given to [__init__] (module.py 96-98). *)
Definition GPTLMLoss_forward (ignore_index : Z) (logits : list (list Row))
  (labels : list (list Z)) : result Scalar :=
  cross_entropy ignore_index
                (concat (shift_logits logits)) (concat (shift_labels labels)).


End GPTLMLoss.
End Loss.

(** ** Construction of the parallel linear layers *)

Module Linear.

(** What torch contributes: the values passed as arguments, among them the
    defaults [True] and [None], and [nn.Linear.__init__] once its arguments
    are bound, which builds the layer or raises. *)
Class Torch : Type := {
  arg : Type;
  py_True : arg;
  py_None : arg;
  nn_Linear : Type;
  nn_Linear__init__ : arg → arg → arg → arg → arg → result nn_Linear
}.

Section New.
Context `{Torch}.

(** [if key in kwargs: naive_kwargs[key] = kwargs[key]]. *)
Definition pick (key : string) (kwargs naive_kwargs : gmap string arg)
  : gmap string arg :=
  match kwargs !! key with
  | Some v => <[key := v]> naive_kwargs
  | None => naive_kwargs
  end.

(** The keyword arguments handed to the plain linear layer
    (module.py 33-39, 69-75, 85-91). *)
Definition naive_kwargs (kwargs : gmap string arg) : gmap string arg :=
  pick "bias" kwargs (pick "input_size" kwargs (pick "output_size" kwargs ∅)).

(** The parameters of the plain layer after [self], as
    [LinearWithHiddenStates.__init__] declares them (module.py 44) and hands
    them on, in this order, to [nn.Linear.__init__] (module.py 45), whose
    own parameters they are. *)
Definition parameters : list string :=
  ["in_features"; "out_features"; "bias"; "device"; "dtype"].

(** The value a call [f( *args, **kwargs)] binds to the parameter [name] at
    position [position]: the positional argument there or the keyword of
    that name, [TypeError] when both are given, the default when neither
    is, [TypeError] when there is no default. *)
Definition argument (position : nat) (name : string) (default : option arg)
  (args : list arg) (kwargs : gmap string arg) : result arg :=
  match args !! position, kwargs !! name with
  | Some _, Some _ => Raise TypeError
  | Some v, None => Ok v
  | None, Some v => Ok v
  | None, None =>
      match default with
      | Some d => Ok d
      | None => Raise TypeError
      end
  end.

(** Binding a call [f( *args, **kwargs)] to these parameters: more
    positional arguments than parameters and a keyword that names no
    parameter are [TypeError]s; the sizes have no default, [bias] defaults
    to [True], [device] and [dtype] to [None]. *)
Definition bind_parameters (args : list arg) (kwargs : gmap string arg)
  : result (arg * arg * arg * arg * arg) :=
  if decide (length parameters < length args)%nat then Raise TypeError
  else if decide (map_Forall (λ k _, k ∈ parameters) kwargs) then
    let? in_features := argument 0 "in_features" None args kwargs in
    let? out_features := argument 1 "out_features" None args kwargs in
    let? bias := argument 2 "bias" (Some py_True) args kwargs in
    let? device := argument 3 "device" (Some py_None) args kwargs in
    let? dtype := argument 4 "dtype" (Some py_None) args kwargs in
    Ok (in_features, out_features, bias, device, dtype)
  else Raise TypeError.

(** The call [nn.Linear( *args, **kwargs)]. *)
Definition nn_Linear__call__ (args : list arg) (kwargs : gmap string arg)
  : result nn_Linear :=
  let? bound := bind_parameters args kwargs in
  let '(in_features, out_features, bias, device, dtype) := bound in
  nn_Linear__init__ in_features out_features bias device dtype.

(** A [LinearWithHiddenStates]: the layer [nn.Linear.__init__] has built
    and the attribute [hidden_states]. *)
Record LinearWithHiddenStates : Type := mkLinearWithHiddenStates {
  linear : nn_Linear;
  hidden_states : option arg
}.

(** The call [LinearWithHiddenStates( *args, **kwargs)] (module.py 44-46):
    the arguments are bound to the parameters of its [__init__], passed on
    by position to [nn.Linear.__init__], and [hidden_states] starts as
    [None]. *)
Definition LinearWithHiddenStates__call__ (args : list arg)
  (kwargs : gmap string arg) : result LinearWithHiddenStates :=
  let? bound := bind_parameters args kwargs in
  let '(in_features, out_features, bias, device, dtype) := bound in
  let? layer := nn_Linear__init__ in_features out_features bias device dtype in
  Ok (mkLinearWithHiddenStates layer None).

(** What [__new__] returns: a plain [nn.Linear], a [LinearWithHiddenStates],
    or a bare instance of the megatron class, still to be initialised. *)
Inductive instance : Type :=
  | NaiveLinear (layer : nn_Linear)
  | NaiveLinearWithHiddenStates (layer : LinearWithHiddenStates)
  | ParallelInstance (cls : string).

(** [ColumnParallelLinearWithoutBias.__new__] (module.py 31-41). *)
Definition ColumnParallelLinearWithoutBias__new__ (tp_size : Z)
  (args : list arg) (kwargs : gmap string arg) : result instance :=
  if decide (tp_size = 1) then
    let? layer := nn_Linear__call__ args (naive_kwargs kwargs) in
    Ok (NaiveLinear layer)
  else Ok (ParallelInstance "ColumnParallelLinearWithoutBias").

(** [ColumnParallelLMHead.__new__] (module.py 67-77). *)
Definition ColumnParallelLMHead__new__ (tp_size : Z)
  (args : list arg) (kwargs : gmap string arg) : result instance :=
  if decide (tp_size = 1) then
    let? layer := LinearWithHiddenStates__call__ args (naive_kwargs kwargs) in
    Ok (NaiveLinearWithHiddenStates layer)
  else Ok (ParallelInstance "ColumnParallelLMHead").

(** [RowParallelLinearWithoutBias.__new__] (module.py 83-93). *)
Definition RowParallelLinearWithoutBias__new__ (tp_size : Z)
  (args : list arg) (kwargs : gmap string arg) : result instance :=
  if decide (tp_size = 1) then
    let? layer := nn_Linear__call__ args (naive_kwargs kwargs) in
    Ok (NaiveLinear layer)
  else Ok (ParallelInstance "RowParallelLinearWithoutBias").

(** *** Vocabulary of the statements *)

(** The plain [nn.Linear] inside an instance, if it is a plain layer. *)
Definition plain_layer (i : instance) : option nn_Linear :=
  match i with
  | NaiveLinear layer => Some layer
  | NaiveLinearWithHiddenStates layer => Some (linear layer)
  | ParallelInstance _ => None
  end.

(** The caller names a size the way megatron's classes do. *)
Definition megatron_size_keyword (kwargs : gmap string arg) : Prop :=
  is_Some (kwargs !! "output_size") ∨ is_Some (kwargs !! "input_size").

End New.
End Linear.

(** ** Concrete stages, engines and processes

    Small closed instances of the parameters above, on which the statements
    below are evaluated. *)

Module Scenario.
Import Cache Generation.

(** An engine that counts its [eval_batch] calls, stamps the call number
    into the [past_key_values] and [hidden_states] of every layer that has
    them, and fails from call number [fails_from] on. *)
Definition stamp (n : nat) (l : layer) : layer :=
  setattr_if_present "hidden_states" (VObj (Pos.of_succ_nat n))
    (setattr_if_present "past_key_values" (VObj (Pos.of_succ_nat n)) l).

Definition counting_engine (fails_from : option nat) : EngineModel :=
  {| engine_state := nat;
     logits := unit;
     eval_batch := λ n ls _,
       (S n, stamp n <$> ls,
        match fails_from with
        | Some k => if decide (k ≤ n)%nat
                    then Raise (ExternalError "eval_batch") else Ok ()
        | None => Ok ()
        end);
     reset_activation_shape := λ n, n;
     set_total_loss_none := λ n, n |}.

(** A stage of three layers: two attention blocks with a cache slot and a
    head with a hidden-state slot. *)
Definition three_layers : list layer :=
  [ {["past_key_values" := VNone; "use_cache" := VBool false]};
    {["past_key_values" := VNone; "use_cache" := VBool false]};
    {["hidden_states" := VNone]} ].

Definition ids_of_length (n : nat) : Tensor2 :=
  {| shape0 := 1; shape1 := n; rows := [replicate n 7] |}.

Definition append_token (t : Tensor2) (tok : Z) : Tensor2 :=
  {| shape0 := shape0 t; shape1 := S (shape1 t);
     rows := (λ r, r ++ [tok]) <$> rows t |}.

(** A greedy decoding loop in the manner of [GenerationMixin.generate]:
    prepare the inputs, call [forward], keep the returned cache, append one
    token, [steps] times. *)
Fixpoint greedy_loop `{EngineModel}
  (prepare : Tensor2 → option (list value) → Eff Mixin Tensor2)
  (fwd : Tensor2 → Eff Mixin CausalLMOutputWithPast)
  (steps : nat) (input_ids : Tensor2) (pkv : option (list value))
  : Eff Mixin Tensor2 :=
  match steps with
  | O => ret input_ids
  | S steps' =>
      let! model_inputs := prepare input_ids pkv in
      let! out := fwd model_inputs in
      greedy_loop prepare fwd steps' (append_token input_ids 0)
                  (past_key_values out)
  end.

Definition greedy `{EngineModel} : SuperGenerate (Tensor2 * nat) Tensor2 :=
  λ prepare fwd args, greedy_loop prepare fwd args.2 args.1 None.

Definition fresh_mixin (fails_from : option nat)
  : @Mixin (counting_engine fails_from) :=
  @__init__ (counting_engine fails_from) O three_layers true.

(** A library instance: decimal integer literals, the row-major rank
    mapping of the (pipe, data, model) mesh, an even split of the layers,
    and stages built from cache-bearing blocks. *)
Import Pipeline.

Definition decimal (s : string) : option Z :=
  Z.of_int <$> NilZero.int_of_string s.

Definition row_major_coord (t : Topology) (rank : Z) : result ProcessCoord :=
  if decide (0 ≤ rank < num_pp t * num_dp t * num_mp t ∧
             0 < num_pp t ∧ 0 < num_dp t ∧ 0 < num_mp t) then
    Ok {| pipe := rank `div` (num_dp t * num_mp t);
          data := (rank `div` num_mp t) `mod` num_dp t;
          model := rank `mod` num_mp t |}
  else Raise (ValueError "rank not found in topology").

Definition even_split (num_items num_parts : Z) : list Z :=
  (λ i : nat, Z.of_nat i * (num_items `div` num_parts) +
              Z.of_nat i `min` (num_items `mod` num_parts))
  <$> seq 0 (S (Z.to_nat num_parts)).

Definition even_library : Library :=
  {| LayerSpec := string;
     int_of_str := decimal;
     get_coord := row_major_coord;
     get_stage_id := λ t rank,
       let? c := row_major_coord t rank in Ok (pipe c);
     get_data_parallel_id := λ t rank,
       let? c := row_major_coord t rank in Ok (data c);
     parallel_state_groups := λ _ _, Ok ();
     _partition_layers := λ specs t _ _,
       if decide (0 < num_pp t)
       then Ok (even_split (Z.of_nat (length specs)) (num_pp t))
       else Raise (ExternalError "_partition_layers");
     _build := λ specs _ _, Ok three_layers;
     _synchronize_tied_weights := λ _, Ok () |}.

Definition ten_layers : list string := replicate 10 "block".

(** Rank [rank] of a job of [world] processes, as a launcher sets it up. *)
Definition launched (rank world : Z) : Process :=
  {| environ := {[ "WORLD_SIZE" := pretty world; "LOCAL_RANK" := pretty rank ]};
     dist_rank := rank;
     dist_world_size := world;
     warnings := [] |}.

(** The model rank 1 of a 4-process job ends with when it asks for two
    pipeline stages and leaves the data-parallel size at 1. *)
Definition stage_0_replica_1 : @PipelineModel even_library :=
  let mesh := {| num_pp := 2; num_dp := 2; num_mp := 1 |} in
  let grid :=
    {| grid_global_rank := 1;
       grid_world_size := 4;
       grid_topo := mesh;
       data_parallel_size := 2;
       pipe_parallel_size := 2;
       model_parallel_size := 1;
       slice_parallel_size := 1;
       grid_stage_id := 0;
       data_parallel_id := 1;
       is_first_stage := true;
       is_last_stage := false |} in
  @mkPipelineModel even_library 1 4 1 mesh 2 grid 0 ten_layers 10
                   [0; 5; 10] three_layers 0.

(** A tokenizer of the Qwen2 class that makes one token of every character
    and masks none of them. *)
Import Template.

Definition char_codes (s : string) : list Z :=
  (λ c, Z.of_nat (Ascii.nat_of_ascii c)) <$> String.list_ascii_of_string s.

Definition char_tokenizer : Tokenizer :=
  {| type_name := "Qwen2Tokenizer";
     special_tokens_map := {[ "bos_token" := "#" ]};
     call := λ text,
       Ok {| input_ids := char_codes text;
             attention_mask := (λ _, 1) <$> char_codes text |} |}.

Definition short_chat : conversation :=
  {[ "history" :=
       [ {[ "role" := Str "user"; "content" := Str "hi" ]};
         {[ "role" := Str "assistant"; "content" := Str "yo" ]} ] ]}.

End Scenario.

(** ** Further concrete instances *)

Module ScenarioMore.
Import Template Scenario.

(** What the ChatML template makes of [short_chat]. *)
Definition short_chat_segments : list prepared :=
  [ mkPrepared "#" false;
    mkPrepared "<|im_start|>user
hi<|im_end|>
" false;
    mkPrepared "<|im_start|>assistant
" false;
    mkPrepared "yo<|im_end|>" true;
    mkPrepared "
" false ].

(** A conversation in which the assistant has not spoken yet. *)
Definition open_question : conversation :=
  {[ "history" :=
       [ {[ "role" := Str "system"; "content" := Str "be brief" ]};
         {[ "role" := Str "user"; "content" := Str "hi" ]} ] ]}.

(** Some objects that are no [str]: [None], the number 4, the list
    [[2, 2]] and the set [{2}], which [json.dumps] refuses. *)
Definition py_None : object := NonStr "None" true (Ok "null").
Definition py_4 : object := NonStr "4" true (Ok "4").
Definition py_list_2_2 : object := NonStr "[2, 2]" false (Ok "[2, 2]").
Definition py_set_2 : object := NonStr "{2}" false (Raise TypeError).

(** A reply that was never filled in. *)
Definition unanswered : conversation :=
  {[ "history" :=
       [ {[ "role" := Str "user"; "content" := Str "hi" ]};
         {[ "role" := Str "assistant"; "content" := py_None ]} ] ]}.

(** [json.dumps] on texts that need no escaping: the text between double
    quotes. *)
Import Moss.

Definition text_json : Json :=
  {| json_string := λ s,
       let quote := Ascii.ascii_of_nat 34 in
       String quote (s +:+ String quote EmptyString) |}.

(** A conversation with a function call between two user turns. *)
Definition tool_history : list message :=
  [ {[ "role" := Str "user"; "content" := Str "2+2?" ]};
    {[ "role" := Str "func_call"; "func_call" := py_list_2_2 ]};
    {[ "role" := Str "func_ret"; "func_ret" := py_4 ]};
    {[ "role" := Str "assistant"; "content" := Str "4" ]};
    {[ "role" := Str "user"; "content" := Str "ok" ]} ].

Definition tool_chat : conversation :=
  {[ "history" := tool_history ]}.

Definition tool_chat_segments : list prepared :=
  [ mkPrepared "#" false;
    mkPrepared "<|im_start|>user
2+2?<|end_of_user|>
" false;
    mkPrepared "<|im_start|>func_call
[2, 2]<|end_of_func_call|>" true;
    mkPrepared "
" false;
    mkPrepared "<|im_start|>func_ret
4<|end_of_func_ret|>
" false;
    mkPrepared "<|im_start|>assistant
" false;
    mkPrepared "4<|end_of_assistant|>" true;
    mkPrepared "
" false;
    mkPrepared "<|end_of_moss|>" true;
    mkPrepared "
<|im_start|>user
ok<|end_of_user|>
" false;
    mkPrepared "<|end_of_moss|>
" true ].

(** Arguments of the linear layers: integers, with 1 for [True] and 0 for
    [None]; a layer is the five values it was initialised with, and a
    negative size is refused. *)
Import Linear.

Definition int_torch : Torch :=
  {| arg := Z;
     py_True := 1;
     py_None := 0;
     nn_Linear := Z * Z * Z * Z * Z;
     nn_Linear__init__ := λ i o b d t,
       if decide (i < 0 ∨ o < 0) then Raise (RuntimeError "negative size")
       else Ok (i, o, b, d, t) |}.

End ScenarioMore.

(** * Properties *)

(** Closed equations are decided by evaluation. *)
Ltac by_evaluation :=
  intros;
  lazymatch goal with
  | |- ?x = ?y => vm_cast_no_check (@eq_refl _ y)
  end.

(** ** Gathering, clearing and setting the per-layer slots *)

Module CacheFacts.
Import Cache.

Implicit Types (l : layer) (layers : list layer) (a : string) (vs : list value).

Lemma gather_step_slot a acc l :
  gather_step a acc l = acc ++ option_list (slot a l).
Proof.
  unfold gather_step, slot.
  destruct (l !! a) as [v|]; simpl; [|by rewrite app_nil_r].
  destruct (decide (v = VNone)); simpl; [by rewrite app_nil_r|done].
Qed.

Lemma gather_loop a layers acc :
  foldl (gather_step a) acc layers = acc ++ non_empty_slots a layers.
Proof.
  revert acc. induction layers as [|l layers IH]; intros acc; simpl.
  - by rewrite app_nil_r.
  - rewrite IH, gather_step_slot. unfold non_empty_slots. simpl.
    destruct (slot a l); simpl; [by rewrite <-app_assoc|by rewrite app_nil_r].
Qed.

Lemma get_past_key_values_spec layers a :
  _get_past_key_values layers a =
    if decide (2 ≤ length (non_empty_slots a layers))%nat
    then Some (non_empty_slots a layers) else None.
Proof.
  unfold _get_past_key_values. rewrite gather_loop. simpl.
  repeat case_decide; first [done | lia].
Qed.

Lemma get_hidden_states_spec layers a :
  _get_hidden_states layers a =
    if decide (2 ≤ length (non_empty_slots a layers))%nat
    then Some (non_empty_slots a layers) else None.
Proof.
  unfold _get_hidden_states. rewrite gather_loop. simpl.
  repeat case_decide; first [done | lia].
Qed.

(** Gathered entries come in layer definition order: the entry of an earlier
    layer stands before the entry of a later one. *)
Lemma non_empty_slots_app a layers1 layers2 :
  non_empty_slots a (layers1 ++ layers2) =
  non_empty_slots a layers1 ++ non_empty_slots a layers2.
Proof. unfold non_empty_slots. apply omap_app. Qed.

Lemma non_empty_slots_elem a layers v :
  v ∈ non_empty_slots a layers ↔
  v ≠ VNone ∧ ∃ l, l ∈ layers ∧ l !! a = Some v.
Proof.
  unfold non_empty_slots. rewrite list_elem_of_omap. split.
  - intros (l & Hl & Hs). unfold slot in Hs.
    destruct (l !! a) as [w|] eqn:E; [|done].
    destruct (decide (w = VNone)); [done|]. simplify_eq. eauto.
  - intros (Hv & l & Hl & E). exists l. split; [done|].
    unfold slot. rewrite E. by destruct (decide (v = VNone)).
Qed.

(** C4: gathering [past_key_values], and likewise [hidden_states], collects
    the non-empty slots of the local layers in layer definition order and
    returns that list exactly when it has at least two entries; with fewer
    than two it returns [None], never a one-element list. *)
Theorem gather_two_or_nothing layers a :
  (_get_past_key_values layers a =
     if decide (2 ≤ length (non_empty_slots a layers))%nat
     then Some (non_empty_slots a layers) else None) ∧
  (_get_hidden_states layers a =
     if decide (2 ≤ length (non_empty_slots a layers))%nat
     then Some (non_empty_slots a layers) else None) ∧
  (∀ v, _get_past_key_values layers a ≠ Some [v]) ∧
  (∀ v, _get_hidden_states layers a ≠ Some [v]) ∧
  (∀ before after,
     layers = before ++ after →
     non_empty_slots a layers =
       non_empty_slots a before ++ non_empty_slots a after) ∧
  (∀ v, v ∈ non_empty_slots a layers ↔
        v ≠ VNone ∧ ∃ l, l ∈ layers ∧ l !! a = Some v).
Proof.
  rewrite get_past_key_values_spec, get_hidden_states_spec.
  split_and!; try done.
  - intros v. case_decide as Hn; [|done]. intros [= E]. rewrite E in Hn.
    simpl in Hn. lia.
  - intros v. case_decide as Hn; [|done]. intros [= E]. rewrite E in Hn.
    simpl in Hn. lia.
  - intros before after ->. apply non_empty_slots_app.
  - apply non_empty_slots_elem.
Qed.

Lemma gather_two_or_nothing_witness :
  let layers : list layer :=
    [ {["past_key_values" := VObj 1]}; ∅; {["past_key_values" := VObj 2]} ] in
  non_empty_slots "past_key_values" layers =
    non_empty_slots "past_key_values" [ {["past_key_values" := VObj 1]} ] ++
    non_empty_slots "past_key_values" [ ∅; {["past_key_values" := VObj 2]} ].
Proof.
  intros layers.
  apply (gather_two_or_nothing layers "past_key_values").
  reflexivity.
Defined.

Example gather_three_layers :
  _get_past_key_values
    [ {["past_key_values" := VObj 1]}; {["hidden_states" := VObj 7]};
      {["past_key_values" := VNone]}; {["past_key_values" := VObj 2]} ]
    "past_key_values" = Some [VObj 1; VObj 2].
Proof. by_evaluation. Qed.

Example gather_single_layer :
  _get_past_key_values [ {["past_key_values" := VObj 1]} ] "past_key_values"
  = None.
Proof. by_evaluation. Qed.

(** *** Clearing *)

Lemma setattr_if_present_lookup a v l :
  setattr_if_present a v l !! a = (λ _, v) <$> (l !! a).
Proof.
  unfold setattr_if_present, hasattr. case_bool_decide as Hs.
  - destruct Hs as [w Hw]. rewrite Hw. simpl. apply lookup_insert_eq.
  - apply eq_None_not_Some in Hs. by rewrite Hs.
Qed.

Lemma setattr_if_present_other a b v l :
  a ≠ b → setattr_if_present a v l !! b = l !! b.
Proof.
  intros Hne. unfold setattr_if_present. destruct (hasattr l a); [|done].
  by apply lookup_insert_ne.
Qed.

Lemma clean_slot_empty a l : slot_empty a (setattr_if_present a VNone l).
Proof.
  unfold slot_empty. rewrite setattr_if_present_lookup.
  destruct (l !! a); simpl; auto.
Qed.

Lemma clean_keeps_empty a b l :
  slot_empty b l → slot_empty b (setattr_if_present a VNone l).
Proof.
  intros Hb. destruct (decide (a = b)) as [->|Hne].
  - apply clean_slot_empty.
  - unfold slot_empty. by rewrite setattr_if_present_other.
Qed.

Lemma clean_past_key_values_empty layers a :
  Forall (slot_empty a) (_clean_past_key_values layers a).
Proof.
  unfold _clean_past_key_values. apply Forall_fmap, Forall_forall.
  intros l _. apply clean_slot_empty.
Qed.

Lemma clean_hidden_states_empty layers a :
  Forall (slot_empty a) (_clean_hidden_states layers a).
Proof.
  unfold _clean_hidden_states. apply Forall_fmap, Forall_forall.
  intros l _. apply clean_slot_empty.
Qed.

Lemma clean_hidden_states_keeps layers a b :
  Forall (slot_empty b) layers →
  Forall (slot_empty b) (_clean_hidden_states layers a).
Proof.
  unfold _clean_hidden_states. intros Hall. apply Forall_fmap.
  eapply Forall_impl; [exact Hall|]. intros l Hl. by apply clean_keeps_empty.
Qed.

Lemma slot_empty_no_slot a l : slot_empty a l → slot a l = None.
Proof. unfold slot_empty, slot. by intros [-> | ->]. Qed.

Lemma empty_slots_gather_nothing a layers :
  Forall (slot_empty a) layers → non_empty_slots a layers = [].
Proof.
  unfold non_empty_slots. induction 1 as [|l layers Hl _ IH]; [done|].
  simpl. rewrite (slot_empty_no_slot _ _ Hl). exact IH.
Qed.

(** *** Setting *)

Lemma set_past_key_values_result layers vs a :
  (_set_past_key_values layers vs a).2 =
    if decide (length vs < length (cache_bearing a layers))%nat
    then Raise StopIteration else Ok ().
Proof.
  revert vs. unfold cache_bearing.
  induction layers as [|l layers IH]; intros vs.
  - rewrite filter_nil. rewrite decide_False by (simpl; lia). done.
  - cbn [_set_past_key_values]. destruct (hasattr l a) eqn:Ha.
    + rewrite filter_cons_True by done. destruct vs as [|v vs].
      * rewrite decide_True by (simpl; lia). done.
      * specialize (IH vs). destruct (_set_past_key_values layers vs a).
        cbn [snd length] in *. rewrite IH.
        destruct (decide (length vs < _)%nat);
          [rewrite decide_True by lia|rewrite decide_False by lia]; done.
    + rewrite filter_cons_False by (rewrite Ha; done).
      specialize (IH vs). by destruct (_set_past_key_values layers vs a).
Qed.

Lemma hasattr_insert l a v : hasattr (<[a := v]> l) a = true.
Proof.
  unfold hasattr. apply bool_decide_eq_true. rewrite lookup_insert_eq. eauto.
Qed.

Lemma set_past_key_values_held layers vs a :
  held a (_set_past_key_values layers vs a).1 =
    (Some <$> take (length (cache_bearing a layers)) vs) ++
    drop (length vs) (held a layers).
Proof.
  revert vs. unfold held, cache_bearing.
  induction layers as [|l layers IH]; intros vs.
  - cbn [_set_past_key_values fst]. rewrite filter_nil, fmap_nil.
    cbn [length take]. by rewrite drop_nil.
  - cbn [_set_past_key_values]. destruct (hasattr l a) eqn:Ha.
    + rewrite (filter_cons_True _ l layers) by done.
      destruct vs as [|v vs].
      * cbn [fst]. by rewrite filter_cons_True by done.
      * specialize (IH vs). destruct (_set_past_key_values layers vs a).
        cbn [fst] in *. rewrite filter_cons_True by apply hasattr_insert.
        cbn [length take drop fmap list_fmap app].
        rewrite lookup_insert_eq, IH. done.
    + rewrite (filter_cons_False _ l layers) by (rewrite Ha; done).
      specialize (IH vs). destruct (_set_past_key_values layers vs a).
      cbn [fst] in *. rewrite filter_cons_False by (rewrite Ha; done). done.
Qed.

Lemma set_past_key_values_frame layers vs a :
  Forall2 (λ l l', (∀ b, b ≠ a → l' !! b = l !! b) ∧
                   (l !! a = None → l' = l) ∧
                   hasattr l' a = hasattr l a)
          layers (_set_past_key_values layers vs a).1.
Proof.
  revert vs. induction layers as [|l layers IH]; intros vs; simpl; [constructor|].
  destruct (hasattr l a) eqn:Ha.
  - destruct vs as [|v vs]; simpl.
    + apply Forall2_same_length_lookup_2; [done|].
      intros i x y Hx Hy. by simplify_eq.
    + specialize (IH vs). destruct (_set_past_key_values layers vs a).
      simpl in *. constructor; [|done]. split_and!.
      * intros b Hb. by rewrite lookup_insert_ne.
      * intros Hn. unfold hasattr in Ha. apply bool_decide_eq_true in Ha.
        rewrite Hn in Ha. by destruct Ha.
      * rewrite Ha. apply hasattr_insert.
  - specialize (IH vs). destruct (_set_past_key_values layers vs a).
    simpl in *. constructor; done.
Qed.

(** Setting and then gathering gives the caller's list back, when it has one
    entry per cache-bearing layer, none of them [None], and at least two. *)
Lemma set_then_get layers vs a :
  length vs = length (cache_bearing a layers) →
  Forall (λ v, v ≠ VNone) vs →
  (2 ≤ length vs)%nat →
  _get_past_key_values (_set_past_key_values layers vs a).1 a = Some vs.
Proof.
  intros Hlen Hvs H2. rewrite get_past_key_values_spec.
  assert (non_empty_slots a (_set_past_key_values layers vs a).1 = vs) as ->.
  { clear H2. revert vs Hlen Hvs. unfold cache_bearing, non_empty_slots.
    induction layers as [|l layers IH]; intros vs; simpl.
    - by destruct vs.
    - destruct (hasattr l a) eqn:Ha.
      + rewrite filter_cons_True by done. destruct vs as [|v vs]; [done|].
        simpl. intros [= Hlen] Hvs. apply Forall_cons in Hvs as [Hv Hvs].
        specialize (IH vs Hlen Hvs).
        destruct (_set_past_key_values layers vs a). simpl in *.
        unfold slot at 1. rewrite lookup_insert_eq.
        destruct (decide (v = VNone)); [done|]. simpl. f_equal. exact IH.
      + rewrite filter_cons_False by (rewrite Ha; done). intros Hlen Hvs.
        specialize (IH vs Hlen Hvs).
        destruct (_set_past_key_values layers vs a). simpl in *.
        unfold slot at 1. unfold hasattr in Ha.
        apply bool_decide_eq_false in Ha. apply eq_None_not_Some in Ha.
        by rewrite Ha. }
  by rewrite decide_True.
Qed.

(** C6 (as the code has it): an explicit cache-set hands the entries of the
    caller's list to the cache-bearing layers in layer definition order; a
    list with fewer entries than cache-bearing layers ends in
    [StopIteration]; a list with more entries is accepted and the surplus is
    ignored.  Layers without the attribute and all other attributes are left
    alone. *)
Theorem set_past_key_values_in_order layers vs a :
  (_set_past_key_values layers vs a).2 =
    (if decide (length vs < length (cache_bearing a layers))%nat
     then Raise StopIteration else Ok ()) ∧
  held a (_set_past_key_values layers vs a).1 =
    (Some <$> take (length (cache_bearing a layers)) vs) ++
    drop (length vs) (held a layers) ∧
  Forall2 (λ l l', (∀ b, b ≠ a → l' !! b = l !! b) ∧
                   (l !! a = None → l' = l) ∧
                   hasattr l' a = hasattr l a)
          layers (_set_past_key_values layers vs a).1.
Proof.
  split_and!.
  - apply set_past_key_values_result.
  - apply set_past_key_values_held.
  - apply set_past_key_values_frame.
Qed.

(** C6, as stated, fails: a list longer than the number of cache-bearing
    layers is not rejected. *)
Lemma set_longer_list_accepted :
  let layers : list layer := [ {["past_key_values" := VNone]}; ∅ ] in
  let vs := [VObj 1; VObj 2; VObj 3] in
  length vs ≠ length (cache_bearing "past_key_values" layers) ∧
  _set_past_key_values layers vs "past_key_values" =
    ([ {["past_key_values" := VObj 1]}; ∅ ], Ok ()).
Proof. split; [vm_compute; lia | by_evaluation]. Qed.

Example set_shorter_list_rejected :
  let layers : list layer :=
    [ {["past_key_values" := VNone]}; {["past_key_values" := VNone]} ] in
  _set_past_key_values layers [VObj 1] "past_key_values" =
    ([ {["past_key_values" := VObj 1]}; {["past_key_values" := VNone]} ],
     Raise StopIteration).
Proof. by_evaluation. Qed.

End CacheFacts.

(** ** The generation coordinator *)

Module GenerationFacts.
Import Cache CacheFacts Generation.

Section MixinFacts.
Context `{EngineModel}.

Implicit Types (self : Mixin) (ids b : Tensor2).




Lemma sync_buffer_shape_calls b self :
  calls (sync_buffer_shape b self) ++ [CallEvalBatch b] =
  calls self ++ reset_on_change (communicate_buffer_shape self) [b].
Proof.
  unfold sync_buffer_shape. simpl.
  destruct (communicate_buffer_shape self) as [s|]; [|done].
  destruct (decide (s ≠ shape b)); simpl; [|done]. by rewrite <-app_assoc.
Qed.

Lemma sync_buffer_shape_stored b self :
  communicate_buffer_shape (sync_buffer_shape b self) = Some (shape b).
Proof.
  unfold sync_buffer_shape.
  destruct (communicate_buffer_shape self) as [s|] eqn:E; [|done].
  destruct (decide (s ≠ shape b)) as [|Heq]; [done|].
  rewrite E. f_equal. by destruct (decide (s = shape b)).
Qed.

Lemma sync_buffer_shape_layers b self :
  layers (sync_buffer_shape b self) = layers self.
Proof.
  unfold sync_buffer_shape.
  destruct (communicate_buffer_shape self) as [s|]; [|done].
  by destruct (decide (s ≠ shape b)).
Qed.

Lemma sync_buffer_shape_engine b self :
  engine (sync_buffer_shape b self) =
    match communicate_buffer_shape self with
    | Some s =>
        if decide (s ≠ shape b)
        then set_total_loss_none (reset_activation_shape (engine self))
        else engine self
    | None => engine self
    end.
Proof.
  unfold sync_buffer_shape.
  destruct (communicate_buffer_shape self) as [s|]; [|done].
  by destruct (decide (s ≠ shape b)).
Qed.

(** [forward], with the engine call named. *)
Lemma forward_unfold ids self :
  let b := forwarded self ids in
  let self' := sync_buffer_shape b self in
  let call := eval_batch (engine self') (layers self) (b, b) in
  (forward ids self).1 =
    {| engine := call.1.1; layers := call.1.2;
       communicate_buffer_shape := Some (shape b);
       use_cache := use_cache self';
       calls := calls self ++ reset_on_change (communicate_buffer_shape self) [b] |} ∧
  (forward ids self).2 =
    match call.2 with
    | Ok lg =>
        Ok {| loss := None; out_logits := lg;
              past_key_values := _get_past_key_values call.1.2 "past_key_values";
              hidden_states := _get_hidden_states call.1.2 "hidden_states";
              attentions := None |}
    | Raise e => Raise e
    end.
Proof.
  intros b self' call. unfold forward. fold b. cbn [fst]. fold self'.
  assert (layers self' = layers self) as Hl
    by apply sync_buffer_shape_layers.
  assert (communicate_buffer_shape self' = Some (shape b)) as Hs
    by apply sync_buffer_shape_stored.
  assert (calls self' ++ [CallEvalBatch b] =
          calls self ++ reset_on_change (communicate_buffer_shape self) [b])
    as Hc by apply sync_buffer_shape_calls.
  rewrite Hl, Hs, Hc. fold call.
  destruct call as [[e ls] [lg|err]]; done.
Qed.

Lemma forward_calls ids self :
  calls (forward ids self).1 =
  calls self ++
  reset_on_change (communicate_buffer_shape self) [forwarded self ids].
Proof. by rewrite (proj1 (forward_unfold ids self)). Qed.



Lemma forwarded_by_state ids self :
  forwarded self ids =
    match coordinator_state self with
    | CachePopulated => last_column ids
    | NoCache => ids
    end.
Proof.
  unfold forwarded, coordinator_state.
  by destruct (_get_past_key_values (layers self) "past_key_values").
Qed.



Lemma last_column_well_shaped ids :
  well_shaped ids → well_shaped (last_column ids).
Proof.
  intros [Hrows Hcols]. split; simpl.
  - by rewrite length_fmap.
  - apply Forall_fmap. eapply Forall_impl; [exact Hcols|].
    intros r Hr. unfold compose, last_slice. simpl in Hr.
    rewrite length_drop. lia.
Qed.





End MixinFacts.

Section GenerateFacts.
Context `{EngineModel} {Args Res : Type} `{!SuperGenerate Args Res}.

Implicit Types (self : Mixin).

Lemma cleaned_all_slots_empty self :
  all_slots_empty
    (with_layers
       (_clean_hidden_states
          (layers (with_layers
                     (_clean_past_key_values (layers self) "past_key_values")
                     self))
          "hidden_states")
       (with_layers (_clean_past_key_values (layers self) "past_key_values")
                    self)).
Proof.
  unfold all_slots_empty. cbn [layers with_layers].
  apply Forall_and. split.
  - apply clean_hidden_states_keeps, clean_past_key_values_empty.
  - apply clean_hidden_states_empty.
Qed.

Lemma all_slots_empty_gather self :
  all_slots_empty self →
  _get_past_key_values (layers self) "past_key_values" = None ∧
  _get_hidden_states (layers self) "hidden_states" = None.
Proof.
  unfold all_slots_empty. intros [Hp Hh]%Forall_and.
  rewrite get_past_key_values_spec, get_hidden_states_spec.
  rewrite !empty_slots_gather_nothing by done. done.
Qed.

(** C1 (as the code has it): when the underlying generation returns, the
    [past_key_values] slot and the [hidden_states] slot of every layer of the
    local stage read as empty after [generate], and both gathers return
    [None]; when the underlying generation raises, [generate] raises the same
    error and leaves the state as the failed generation left it. *)
Theorem generate_clears_when_it_returns (args : Args) self :
  (∀ res, (generate args self).2 = Ok res →
     all_slots_empty (generate args self).1 ∧
     _get_past_key_values (layers (generate args self).1) "past_key_values"
       = None ∧
     _get_hidden_states (layers (generate args self).1) "hidden_states"
       = None) ∧
  (∀ e,
     (super_generate prepare_inputs_for_generation forward args self).2
       = Raise e →
     generate args self =
       super_generate prepare_inputs_for_generation forward args self).
Proof.
  unfold generate.
  destruct (super_generate prepare_inputs_for_generation forward args self)
    as [self' [res|err]]; cbn [fst snd]; split; try done.
  intros _ _.
  pose proof (cleaned_all_slots_empty self') as Hc.
  split; [exact Hc|]. by apply all_slots_empty_gather.
Qed.

End GenerateFacts.
(** *** On a concrete stage *)

Import Scenario.


Example second_call_forwards_one_column :
  let self := fresh_mixin None in
  shape <$> eval_batches
    (calls (run_forwards [ids_of_length 20; ids_of_length 21] self))
  = [(1, 20); (1, 1)]%nat.
Proof. by_evaluation. Qed.


Example same_shape_no_reset :
  let self := fresh_mixin None in
  calls (run_forwards [ids_of_length 5; ids_of_length 6; ids_of_length 7] self)
  = [ CallEvalBatch (ids_of_length 5);
      CallResetActivationShape;
      CallEvalBatch (last_column (ids_of_length 6));
      CallEvalBatch (last_column (ids_of_length 7)) ].
Proof. by_evaluation. Qed.

Lemma generate_clears_when_it_returns_witness :
  let self := fresh_mixin None in
  let args := (ids_of_length 3, 2%nat) in
  all_slots_empty (@generate _ _ _ greedy args self).1.
Proof.
  intros self args.
  apply (proj1 (@generate_clears_when_it_returns _ _ _ greedy args self)
               (append_token (append_token (ids_of_length 3) 0) 0)).
  by_evaluation.
Defined.

Example generate_decodes_incrementally :
  let self := fresh_mixin None in
  let args := (ids_of_length 3, 3%nat) in
  shape <$> eval_batches (calls (@generate _ _ _ greedy args self).1)
  = [(1, 3); (1, 1); (1, 1)]%nat.
Proof. by_evaluation. Qed.

(** C1, as stated, fails on the error path: when the engine fails in the
    second decoding step, [generate] raises and the layers keep the cache
    and hidden states of that step. *)
Lemma generate_error_leaves_cache :
  let self := fresh_mixin (Some 1%nat) in
  let args := (ids_of_length 3, 2%nat) in
  (@generate _ _ _ greedy args self).2 = Raise (ExternalError "eval_batch") ∧
  layers (@generate _ _ _ greedy args self).1 =
    [ {["past_key_values" := VObj 2; "use_cache" := VBool true]};
      {["past_key_values" := VObj 2; "use_cache" := VBool true]};
      {["hidden_states" := VObj 2]} ] ∧
  ¬ all_slots_empty (@generate _ _ _ greedy args self).1.
Proof.
  intros self args.
  assert (layers (@generate _ _ _ greedy args self).1 =
    [ {["past_key_values" := VObj 2; "use_cache" := VBool true]};
      {["past_key_values" := VObj 2; "use_cache" := VBool true]};
      {["hidden_states" := VObj 2]} ]) as Hl by by_evaluation.
  split_and!.
  - by_evaluation.
  - exact Hl.
  - unfold all_slots_empty. rewrite Hl. intros Hall.
    apply Forall_cons in Hall as [[Hp _] _].
    destruct Hp as [Hp|Hp]; vm_compute in Hp; discriminate.
Qed.

End GenerationFacts.

(** ** Mesh resolution and [PipelineModel] construction *)

Module PipelineFacts.
Import Pipeline.

Section ConstructionFacts.
Context `{Library}.

Implicit Types (p : Process) (t : Topology) (W : Z).

Lemma environ_int_ok p key s n :
  environ p !! key = Some s → int_of_str s = Some n →
  environ_int key p = (p, Ok n).
Proof. intros Hs Hn. unfold environ_int. by rewrite Hs, Hn. Qed.

Lemma environ_int_state p key : (environ_int key p).1 = p.
Proof.
  unfold environ_int. destruct (environ p !! key) as [s|]; [|done].
  by destruct (int_of_str s).
Qed.

Lemma resolve_topology_spec p t W :
  world_size_is p W →
  resolve_topology t p =
    if decide (W = num_pp t * num_dp t * num_mp t) then
      (p, Ok {| num_pp := num_pp t; num_dp := num_dp t; num_mp := num_mp t |})
    else if decide (num_mp t * num_pp t = 0) then
      (add_warning (mismatch_message W (num_pp t) (num_dp t) (num_mp t)) p,
       Raise ZeroDivisionError)
    else
      (add_warning set_dp_size_message
         (add_warning (mismatch_message W (num_pp t) (num_dp t) (num_mp t)) p),
       Ok {| num_pp := num_pp t;
             num_dp := W `div` (num_mp t * num_pp t);
             num_mp := num_mp t |}).
Proof.
  intros (s & Hs & Hn). unfold resolve_topology, dims, bind.
  rewrite (environ_int_ok p _ s W) by done.
  destruct (decide (W ≠ _)) as [Hne|Heq].
  - rewrite decide_False by done.
    rewrite (environ_int_ok p _ s W) by done.
    unfold rank_zero_warning at 1, modify.
    rewrite (environ_int_ok (add_warning _ p) _ s W) by done.
    unfold lift, floordiv. destruct (decide (num_mp t * num_pp t = 0)); done.
  - apply dec_stable in Heq. by rewrite decide_True.
Qed.

Lemma exact_division W pp tp :
  pp * tp ≠ 0 → W `mod` (pp * tp) = 0 → pp * (W `div` (tp * pp)) * tp = W.
Proof.
  intros Hnz Hmod. rewrite (Z.mul_comm tp pp).
  pose proof (Z.div_mod W (pp * tp) Hnz) as Hd. rewrite Hmod in Hd. lia.
Qed.

(** C3: for positive [pipeline_size], [tensor_size] and [world_size] with
    [world_size] a multiple of [pipeline_size * tensor_size], mesh resolution
    returns normally a mesh with
    [pipeline_size * data_size * tensor_size = world_size]; a requested
    product that disagrees with [world_size] is answered by two warnings and
    [data_size = world_size // (pipeline_size * tensor_size)], not by an
    error. *)
Theorem mesh_resolution p pp dp tp W :
  world_size_is p W →
  0 < pp → 0 < tp → 0 < W → W `mod` (pp * tp) = 0 →
  let r := resolve_topology {| num_pp := pp; num_dp := dp; num_mp := tp |} p in
  ∃ data_size,
    r.2 = Ok {| num_pp := pp; num_dp := data_size; num_mp := tp |} ∧
    pp * data_size * tp = W ∧
    data_size = resolved_dp_size W pp dp tp ∧
    environ r.1 = environ p ∧
    (W = pp * dp * tp → data_size = dp ∧ warnings r.1 = warnings p) ∧
    (W ≠ pp * dp * tp →
       data_size = W `div` (pp * tp) ∧
       warnings r.1 =
         warnings p ++ [mismatch_message W pp dp tp; set_dp_size_message]).
Proof.
  intros HW Hpp Htp HWpos Hmod r. subst r.
  rewrite (resolve_topology_spec p _ W HW). cbn [num_pp num_dp num_mp].
  unfold resolved_dp_size.
  destruct (decide (W = pp * dp * tp)) as [Heq|Hne].
  - exists dp. cbn [fst snd]. split_and!; done.
  - rewrite decide_False by nia. exists (W `div` (tp * pp)). cbn [fst snd].
    split_and!; try done.
    + apply exact_division; [nia|done].
    + by rewrite (Z.mul_comm tp pp).
    + intros _. split; [by rewrite (Z.mul_comm tp pp)|].
      cbn. by rewrite <-app_assoc.
Qed.

Lemma add_warning_world_size_is msg p W :
  world_size_is p W → world_size_is (add_warning msg p) W.
Proof. by intros (s & Hs & Hn); exists s. Qed.

Lemma resolve_topology_environ t p :
  environ (resolve_topology t p).1 = environ p ∧
  dist_rank (resolve_topology t p).1 = dist_rank p ∧
  dist_world_size (resolve_topology t p).1 = dist_world_size p.
Proof.
  unfold resolve_topology, dims, bind, environ_int, rank_zero_warning, modify,
    lift, ret.
  destruct (environ p !! "WORLD_SIZE") as [s|] eqn:Hs; [|done].
  destruct (int_of_str s) as [W|] eqn:Hn; [|done].
  destruct (decide (W ≠ _)); [|done].
  rewrite Hs, Hn. cbn [add_warning environ]. rewrite Hs, Hn.
  by destruct (floordiv W _).
Qed.

Lemma grid_init_state t p : (MultiParallelGrid__init__ t p).1 = p.
Proof.
  unfold MultiParallelGrid__init__, bind, get, raise, lift, ret.
  destruct (_is_grid_valid t (dist_world_size p)); [|done]. cbn [negb].
  destruct (get_stage_id t (dist_rank p)); [|done].
  destruct (get_data_parallel_id t (dist_rank p)); [|done].
  by destruct (parallel_state_groups t (dist_rank p)).
Qed.

Lemma grid_invalid_raises t p :
  _is_grid_valid t (dist_world_size p) = false →
  MultiParallelGrid__init__ t p = (p, Raise (AssertionError "Invalid Grid")).
Proof.
  intros Hv. unfold MultiParallelGrid__init__, bind, get. by rewrite Hv.
Qed.

Lemma grid_init_ids t p grid :
  (MultiParallelGrid__init__ t p).2 = Ok grid →
  _is_grid_valid t (dist_world_size p) = true ∧
  get_stage_id t (dist_rank p) = Ok (grid_stage_id grid) ∧
  get_data_parallel_id t (dist_rank p) = Ok (data_parallel_id grid).
Proof.
  unfold MultiParallelGrid__init__, bind, get, raise, lift, ret.
  destruct (_is_grid_valid t (dist_world_size p)); [|done]. cbn [negb].
  destruct (get_stage_id t (dist_rank p)); [|done].
  destruct (get_data_parallel_id t (dist_rank p)); [|done].
  destruct (parallel_state_groups t (dist_rank p)); [|done].
  by intros [= <-].
Qed.

Lemma invalid_mesh_grid W pp dp tp :
  invalid_mesh W pp dp tp →
  _is_grid_valid {| num_pp := pp; num_dp := dp; num_mp := tp |} W = false.
Proof.
  intros Hinv. unfold _is_grid_valid. cbn [num_pp num_dp num_mp].
  apply not_true_is_false. rewrite !andb_true_iff, !bool_decide_eq_true.
  intros [[[Hpp Hdp] Htp] Hprod].
  destruct Hinv as [?|[?|[?|Hmod]]]; try lia.
  apply Hmod. rewrite <-Hprod.
  replace (pp * dp * tp) with (dp * (pp * tp)) by lia.
  apply Z.mod_mul. lia.
Qed.

(** What a completed construction went through. *)
Lemma init_completed layers t method aci p p' m :
  PipelineModel__init__ layers (Some t) method aci p = (p', Ok m) →
  ∃ c,
    (resolve_topology t p).2 = Ok (_topo m) ∧
    _is_grid_valid (_topo m) (dist_world_size p) = true ∧
    get_coord (_topo m) (dist_rank p) = Ok c ∧
    stage_id m = pipe c ∧
    get_data_parallel_id (_topo m) (dist_rank p)
      = Ok (data_parallel_id (_grid m)) ∧
    _partition_layers layers (_topo m) (stage_id m) method = Ok (parts m) ∧
    _build layers (parts m) (stage_id m) = Ok (forward_funcs m) ∧
    p' = setenv "COLLIE_DP_RANK" (str (data_parallel_id (_grid m)))
           (setenv "COLLIE_PP_RANK" (str (stage_id m))
              (setenv "COLLIE_PP_PARTS" (json_dumps (parts m))
                 (resolve_topology t p).1)).
Proof.
  unfold PipelineModel__init__, bind, get.
  pose proof (environ_int_state p "LOCAL_RANK") as Hst.
  destruct (environ_int "LOCAL_RANK" p) as [p0 [lr|]]; [|done].
  cbn [fst] in Hst. subst p0.
  pose proof (resolve_topology_environ t p) as (_ & Hrank & Hws).
  destruct (resolve_topology t p) as [p1 [t'|]]; [|done]. cbn [fst] in *.
  pose proof (grid_init_state t' p1) as Hg1.
  pose proof (grid_init_ids t' p1) as Hg2.
  destruct (MultiParallelGrid__init__ t' p1) as [p2 [grid|]]; [|done].
  cbn [fst snd] in *. subst p2.
  destruct (Hg2 grid eq_refl) as (Hvalid & _ & Hdata).
  rewrite Hrank in Hdata. rewrite Hws in Hvalid.
  unfold lift, modify, ret.
  destruct (get_coord t' (dist_rank p)) as [c|] eqn:Hc; [|done].
  destruct (_partition_layers layers t' (pipe c) method) as [ps|] eqn:Hps;
    [|done].
  destruct (_build layers ps (pipe c)) as [ff|] eqn:Hff; [|done].
  destruct (_synchronize_tied_weights ff); [|done].
  intros [= <- <-]. exists c. cbn. split_and!; done.
Qed.

(** C7: when the mesh left by the recomputation of [data_size] is invalid (a
    dimension below 1, or the world size no multiple of
    [pipeline_size * tensor_size]), construction raises; with a readable
    [LOCAL_RANK] the error is the division by zero of the recomputation or
    the failed grid assertion, and no discovery variable has been set. *)
Theorem invalid_mesh_aborts layers t method aci p W :
  world_size_is p W →
  dist_world_size p = W →
  invalid_mesh W (num_pp t)
    (resolved_dp_size W (num_pp t) (num_dp t) (num_mp t)) (num_mp t) →
  let r := PipelineModel__init__ layers (Some t) method aci p in
  ∃ e, r.2 = Raise e ∧
       environ r.1 = environ p ∧
       (is_ok (environ_int "LOCAL_RANK" p).2 = true →
        e = ZeroDivisionError ∨ e = AssertionError "Invalid Grid").
Proof.
  intros HW Hdist Hinv r. subst r.
  unfold PipelineModel__init__, bind, get.
  pose proof (environ_int_state p "LOCAL_RANK") as Hst.
  destruct (environ_int "LOCAL_RANK" p) as [p0 [lr|err]];
    cbn [fst] in Hst; subst p0; [|by exists err].
  rewrite (resolve_topology_spec p t W HW).
  unfold resolved_dp_size in Hinv.
  destruct (decide (W = num_pp t * num_dp t * num_mp t)) as [Heq|Hne].
  - rewrite grid_invalid_raises
      by (rewrite Hdist; by apply invalid_mesh_grid).
    eexists. split_and!; eauto.
  - destruct (decide (num_mp t * num_pp t = 0)) as [Hz|Hnz].
    + eexists. split_and!; eauto.
    + rewrite grid_invalid_raises.
      * eexists. split_and!; eauto.
      * cbn [add_warning dist_world_size]. rewrite Hdist.
        apply invalid_mesh_grid. by rewrite (Z.mul_comm (num_mp t)).
Qed.

(** C9: when construction completes, the environment of the process holds
    under [COLLIE_PP_PARTS] the partition boundaries the partitioner
    returned, under [COLLIE_PP_RANK] the pipeline stage of the process and
    under [COLLIE_DP_RANK] its data-parallel index, each as text from which
    the value reads back; every other variable is as it was. *)
Theorem discovery_state_published layers topology method aci p p' m :
  PipelineModel__init__ layers topology method aci p = (p', Ok m) →
  environ p' !! "COLLIE_PP_PARTS" = Some (json_dumps (parts m)) ∧
  environ p' !! "COLLIE_PP_RANK" = Some (str (stage_id m)) ∧
  environ p' !! "COLLIE_DP_RANK" = Some (str (data_parallel_id (_grid m))) ∧
  _partition_layers layers (_topo m) (stage_id m) method = Ok (parts m) ∧
  (∃ c, get_coord (_topo m) (dist_rank p) = Ok c ∧ stage_id m = pipe c) ∧
  get_data_parallel_id (_topo m) (dist_rank p)
    = Ok (data_parallel_id (_grid m)) ∧
  (∀ n, str n = str (stage_id m) → n = stage_id m) ∧
  (∀ n, str n = str (data_parallel_id (_grid m)) →
        n = data_parallel_id (_grid m)) ∧
  (∀ key, key ∉ ["COLLIE_PP_PARTS"; "COLLIE_PP_RANK"; "COLLIE_DP_RANK"] →
          environ p' !! key = environ p !! key).
Proof.
  destruct topology as [t|]; [|done]. intros Hinit.
  destruct (init_completed _ _ _ _ _ _ _ Hinit)
    as (c & _ & _ & Hc & Hstage & Hdata & Hparts & _ & ->).
  pose proof (resolve_topology_environ t p) as (Henv & _ & _).
  cbn [setenv environ]. split_and!.
  - rewrite lookup_insert_ne by done. rewrite lookup_insert_ne by done.
    by rewrite lookup_insert_eq.
  - rewrite lookup_insert_ne by done. by rewrite lookup_insert_eq.
  - by rewrite lookup_insert_eq.
  - exact Hparts.
  - by exists c.
  - exact Hdata.
  - intros n Hn. by apply (inj pretty) in Hn.
  - intros n Hn. by apply (inj pretty) in Hn.
  - intros key Hkey. rewrite !not_elem_of_cons in Hkey.
    destruct Hkey as (? & ? & ? & _).
    rewrite !lookup_insert_ne by done. by rewrite Henv.
Qed.

End ConstructionFacts.

(** *** On a concrete job *)

Import Scenario.

Lemma mesh_resolution_witness :
  let p := launched 0 12 in
  let r := @resolve_topology even_library
             {| num_pp := 3; num_dp := 1; num_mp := 2 |} p in
  ∃ data_size,
    r.2 = Ok {| num_pp := 3; num_dp := data_size; num_mp := 2 |} ∧
    3 * data_size * 2 = 12 ∧
    data_size = resolved_dp_size 12 3 1 2 ∧
    environ r.1 = environ p ∧
    (12 = 3 * 1 * 2 → data_size = 1 ∧ warnings r.1 = warnings p) ∧
    (12 ≠ 3 * 1 * 2 →
       data_size = 12 `div` (3 * 2) ∧
       warnings r.1 =
         warnings p ++ [@mismatch_message 12 3 1 2; set_dp_size_message]).
Proof.
  intros p.
  apply (@mesh_resolution even_library p 3 1 2 12); try lia.
  - exists "12". split; by_evaluation.
  - reflexivity.
Defined.

Example requested_dp_1_on_12_processes :
  (@resolve_topology even_library
     {| num_pp := 3; num_dp := 1; num_mp := 2 |} (launched 0 12)).2
  = Ok {| num_pp := 3; num_dp := 2; num_mp := 2 |}.
Proof. by_evaluation. Qed.

Example two_stages_on_4_processes :
  (@resolve_topology even_library
     {| num_pp := 2; num_dp := 1; num_mp := 1 |} (launched 0 4)).2
  = Ok {| num_pp := 2; num_dp := 2; num_mp := 1 |}.
Proof. by_evaluation. Qed.

Lemma invalid_mesh_aborts_witness :
  let p := launched 1 5 in
  let r := @PipelineModel__init__ even_library ten_layers
             (Some {| num_pp := 2; num_dp := 1; num_mp := 1 |})
             "parameters" 0 p in
  ∃ e, r.2 = Raise e ∧
       environ r.1 = environ p ∧
       (is_ok (@environ_int even_library "LOCAL_RANK" p).2 = true →
        e = ZeroDivisionError ∨ e = AssertionError "Invalid Grid").
Proof.
  intros p.
  apply (@invalid_mesh_aborts even_library ten_layers
           {| num_pp := 2; num_dp := 1; num_mp := 1 |} "parameters" 0 p 5).
  - exists "5". split; by_evaluation.
  - reflexivity.
  - right. right. right. vm_compute. discriminate.
Defined.

Example odd_world_size_fails_the_grid_assertion :
  (@PipelineModel__init__ even_library ten_layers
     (Some {| num_pp := 2; num_dp := 1; num_mp := 1 |})
     "parameters" 0 (launched 1 5)).2
  = Raise (AssertionError "Invalid Grid").
Proof. by_evaluation. Qed.

Example zero_pipeline_size_divides_by_zero :
  (@PipelineModel__init__ even_library ten_layers
     (Some {| num_pp := 0; num_dp := 1; num_mp := 1 |})
     "parameters" 0 (launched 1 4)).2
  = Raise ZeroDivisionError.
Proof. by_evaluation. Qed.

Lemma discovery_state_published_witness :
  let r := @PipelineModel__init__ even_library ten_layers
             (Some {| num_pp := 2; num_dp := 1; num_mp := 1 |})
             "parameters" 0 (launched 1 4) in
  environ r.1 !! "COLLIE_PP_PARTS" = Some (json_dumps [0; 5; 10]) ∧
  environ r.1 !! "COLLIE_PP_RANK" = Some (str 0) ∧
  environ r.1 !! "COLLIE_DP_RANK" = Some (str 1).
Proof.
  intros r.
  assert (r.2 = Ok stage_0_replica_1) as H2 by by_evaluation.
  assert (r = (r.1, Ok stage_0_replica_1)) as Hr
    by (rewrite <-H2; apply surjective_pairing).
  pose proof (@discovery_state_published even_library _ _ _ _ _ _ _ Hr)
    as (Hparts & Hstage & Hdata & _).
  auto.
Defined.

Example published_text :
  let r := @PipelineModel__init__ even_library ten_layers
             (Some {| num_pp := 2; num_dp := 1; num_mp := 1 |})
             "parameters" 0 (launched 1 4) in
  environ r.1 =
    {[ "WORLD_SIZE" := "4"; "LOCAL_RANK" := "1";
       "COLLIE_PP_PARTS" := "[0, 5, 10]";
       "COLLIE_PP_RANK" := "0"; "COLLIE_DP_RANK" := "1" ]}.
Proof. by_evaluation. Qed.

(** C8 at [pipeline_size = 2], requested [data_size = 1], [tensor_size = 1]
    on 6 processes: the data-parallel size is corrected to 3, and neither of
    the two warnings names it; the second one is the literal text with its
    braces. *)
Theorem warning_omits_corrected_value :
  let r := @resolve_topology even_library
             {| num_pp := 2; num_dp := 1; num_mp := 1 |} (launched 0 6) in
  r.2 = Ok {| num_pp := 2; num_dp := 3; num_mp := 1 |} ∧
  warnings r.1 =
    [ "The world size is not equal to the product of the parallel sizes set.6 != 2 * 1 * 1.";
      "Set dp_size to {dp_size}." ] ∧
  Forall (λ w, contains w (str 3) = false) (warnings r.1).
Proof.
  intros r.
  assert (warnings r.1 =
    [ "The world size is not equal to the product of the parallel sizes set.6 != 2 * 1 * 1.";
      "Set dp_size to {dp_size}." ]) as Hw by by_evaluation.
  split_and!.
  - by_evaluation.
  - exact Hw.
  - rewrite Hw. repeat constructor.
Qed.

End PipelineFacts.

(** ** Conversation tokenisation *)

Module TemplateFacts.
Import Template.

Implicit Types (tok : Tokenizer) (ms : list prepared) (b : bool).
Implicit Types (ids labels mask : list Z).

Lemma segment_labels_length b ids : length (segment_labels b ids) = length ids.
Proof. unfold segment_labels. destruct b; [done|]. by rewrite length_fmap. Qed.

Lemma segment_labels_replicate b ids :
  (if b then ids else replicate (length ids) (-100)) = segment_labels b ids.
Proof.
  unfold segment_labels. destruct b; [done|].
  induction ids as [|i ids IH]; [done|]. simpl. by rewrite IH.
Qed.

Lemma segment_labels_pointwise b ids :
  Forall2 (λ label id, label = -100 ∨ label = id) (segment_labels b ids) ids.
Proof.
  unfold segment_labels. destruct b.
  - induction ids; constructor; auto.
  - induction ids; constructor; auto.
Qed.

(** The loop of [tokenize_conversation]: each prepared message is tokenized
    once, in order, and the three accumulators grow by its segment. *)
Lemma tokenize_loop tok ms ids labels mask ids' labels' mask' :
  for_each (tokenize_step tok) ms (ids, labels, mask)
    = Ok (ids', labels', mask') →
  ∃ encs,
    Forall2 (λ m enc, call tok (content m) = Ok enc) ms encs ∧
    ids' = ids ++ (encs ≫= input_ids) ∧
    labels' = labels ++ conversation_labels (zip ms encs) ∧
    mask' = mask ++ (encs ≫= attention_mask).
Proof.
  revert ids labels mask.
  induction ms as [|m ms IH]; intros ids labels mask; simpl.
  - intros [= <- <- <-]. exists []. rewrite !app_nil_r. by split.
  - unfold result_bind at 1. unfold tokenize_step at 1. unfold result_bind at 1.
    destruct (call tok (content m)) as [enc|] eqn:Henc; [|done].
    intros Hloop. apply IH in Hloop as (encs & Hall & -> & -> & ->).
    exists (enc :: encs). split; [by constructor|].
    unfold conversation_labels. cbn [zip zip_with mbind list_bind fst snd].
    rewrite segment_labels_replicate, <-!app_assoc. done.
Qed.

Lemma conversation_labels_length ms encs :
  length ms = length encs →
  length (conversation_labels (zip ms encs)) = length (encs ≫= input_ids).
Proof.
  revert encs. induction ms as [|m ms IH]; intros [|enc encs]; try done.
  intros [= Hlen]. unfold conversation_labels in *.
  cbn [zip zip_with mbind list_bind fst snd]. rewrite !length_app.
  rewrite segment_labels_length. f_equal. by apply IH.
Qed.

Lemma conversation_labels_pointwise ms encs :
  length ms = length encs →
  Forall2 (λ label id, label = -100 ∨ label = id)
          (conversation_labels (zip ms encs)) (encs ≫= input_ids).
Proof.
  revert encs. induction ms as [|m ms IH]; intros [|enc encs]; try done.
  intros [= Hlen]. unfold conversation_labels in *.
  cbn [zip zip_with mbind list_bind fst snd].
  apply Forall2_app; [apply segment_labels_pointwise|by apply IH].
Qed.

Lemma mask_length tok ms encs :
  mask_per_token tok →
  Forall2 (λ m enc, call tok (content m) = Ok enc) ms encs →
  length (encs ≫= attention_mask) = length (encs ≫= input_ids).
Proof.
  intros Htok. induction 1 as [|m enc ms encs Hm _ IH]; [done|].
  cbn [mbind list_bind]. rewrite !length_app, IH. f_equal. by eapply Htok.
Qed.

(** C10: when [tokenize_conversation] returns, [labels] has the length of
    [input_ids] and each of its entries is -100 or the token id at the same
    position.  Which of the two is fixed by the template: the segments the
    result is built from are the ones the template function in use (the one
    given, or the preset one of the tokenizer's class) has returned for this
    conversation, each tokenised once and in order, and the labels are -100
    throughout a segment the template marks as requiring no loss and the
    token ids themselves throughout a segment it marks as requiring loss.
    [attention_mask] has the length of [input_ids] too when the tokenizer
    returns one mask entry per token id. *)
Theorem tokenize_conversation_aligned conv tok text_field fn gen
    ids labels mask :
  tokenize_conversation conv tok text_field fn gen = Ok (ids, labels, mask) →
  length labels = length ids ∧
  (mask_per_token tok → length mask = length ids) ∧
  Forall2 (λ label id, label = -100 ∨ label = id) labels ids ∧
  ∃ f ms encs,
    (fn = Some f ∨
     fn = None ∧
     assoc (type_name tok) TOKENIZER_PREPARE_TEMPLATE_FN_MAPPING = Some f) ∧
    f conv (special_tokens_map tok) text_field gen = Ok ms ∧
    Forall2 (λ m enc, call tok (content m) = Ok enc) ms encs ∧
    ids = encs ≫= input_ids ∧
    labels = conversation_labels (zip ms encs) ∧
    mask = encs ≫= attention_mask.
Proof.
  unfold tokenize_conversation. unfold result_bind at 1.
  destruct (match fn with Some f => Ok f | None => _ end) as [f|] eqn:Hf;
    [|done].
  unfold result_bind at 1.
  destruct (f conv (special_tokens_map tok) text_field gen) as [ms|] eqn:Hms;
    [|done].
  intros (encs & Hall & -> & -> & ->)%tokenize_loop.
  pose proof (Forall2_length _ _ _ Hall) as Hlen.
  rewrite !app_nil_l. split_and!.
  - by apply conversation_labels_length.
  - intros Htok. by eapply mask_length.
  - by apply conversation_labels_pointwise.
  - exists f, ms, encs. split_and!; try done.
    destruct fn as [g|].
    + left. by injection Hf as ->.
    + right. split; [done|].
      destruct (assoc (type_name tok) TOKENIZER_PREPARE_TEMPLATE_FN_MAPPING)
        as [g|]; [|done].
      by injection Hf as ->.
Qed.

(** *** On a concrete conversation *)

Import Scenario.

Lemma char_tokenizer_mask_per_token : mask_per_token char_tokenizer.
Proof. intros text enc [= <-]. simpl. by rewrite length_fmap. Qed.

Lemma tokenize_conversation_aligned_witness :
  let r := tokenize_conversation short_chat char_tokenizer "history" None false in
  let out := match r with Ok o => o | Raise _ => ([], [], []) end in
  r = Ok out ∧
  length out.1.2 = length out.1.1 ∧
  length out.2 = length out.1.1 ∧
  Forall2 (λ label id, label = -100 ∨ label = id) out.1.2 out.1.1 ∧
  (∃ ms encs,
     prepare_chatml_messages short_chat (special_tokens_map char_tokenizer)
                             "history" false = Ok ms ∧
     Forall2 (λ m enc, call char_tokenizer (content m) = Ok enc) ms encs ∧
     out.1.1 = encs ≫= input_ids ∧
     out.1.2 = conversation_labels (zip ms encs)) ∧
  drop 48 out.1.2 =
    [-100; -100; -100; -100; -100;
     121; 111; 60; 124; 105; 109; 95; 101; 110; 100; 124; 62; -100].
Proof.
  intros r out.
  assert (r = Ok (out.1.1, out.1.2, out.2)) as Hr by by_evaluation.
  split; [by_evaluation|].
  destruct (tokenize_conversation_aligned
              short_chat char_tokenizer "history" None false
              out.1.1 out.1.2 out.2 Hr)
    as (Hlabels & Hmask & Hpoint & f & ms & encs & Hf & Hms & Hall & Hids &
        Hlabs & _).
  split_and!; [exact Hlabels | | exact Hpoint | | by_evaluation].
  - apply Hmask, char_tokenizer_mask_per_token.
  - exists ms, encs. split_and!; try done.
    destruct Hf as [[=]|[_ Hf]].
    assert (f = prepare_chatml_messages) as <-; [|exact Hms].
    revert Hf. unfold TOKENIZER_PREPARE_TEMPLATE_FN_MAPPING.
    cbn [assoc type_name char_tokenizer].
    rewrite decide_True by done. by intros [= <-].
Defined.

Example short_chat_prepared :
  prepare_chatml_messages short_chat (special_tokens_map char_tokenizer)
                          "history" false
  = Ok [ mkPrepared "#" false;
         mkPrepared "<|im_start|>user
hi<|im_end|>
" false;
         mkPrepared "<|im_start|>assistant
" false;
         mkPrepared "yo<|im_end|>" true;
         mkPrepared "
" false ].
Proof. by_evaluation. Qed.

Example short_chat_labels :
  (let? o := tokenize_conversation short_chat char_tokenizer "history" None
                                   false in
   Ok (drop 48 o.1.2))
  = Ok [-100; -100; -100; -100; -100;
        121; 111; 60; 124; 105; 109; 95; 101; 110; 100; 124; 62; -100].
Proof. by_evaluation. Qed.

Example unknown_tokenizer_needs_a_template :
  tokenize_conversation short_chat
    {| type_name := "LlamaTokenizer";
       special_tokens_map := special_tokens_map char_tokenizer;
       call := call char_tokenizer |} "history" None false
  = Raise (ValueError
             "Tokenizer LlamaTokenizer has no preset template. Please provide one.").
Proof. by_evaluation. Qed.

End TemplateFacts.

(** * Further properties of the modelled code *)

(** ** Composition of the slot operations *)

Module CacheMoreFacts.
Import Cache CacheFacts CacheMore.

Implicit Types (l : layer) (layers : list layer) (a b : string) (vs : list value).

Lemma setattr_same_but a v layers :
  same_but a layers (setattr_if_present a v <$> layers).
Proof.
  unfold same_but. apply Forall2_fmap_r, Forall_Forall2_diag, Forall_forall.
  intros l _. split.
  - intros b Hb. by apply setattr_if_present_other.
  - unfold hasattr. f_equal. rewrite setattr_if_present_lookup.
    apply bool_decide_ext. by rewrite fmap_is_Some.
Qed.

Lemma same_but_slots a b layers layers' :
  a ≠ b → same_but a layers layers' →
  non_empty_slots b layers' = non_empty_slots b layers.
Proof.
  intros Hab. unfold same_but, non_empty_slots.
  induction 1 as [|l l' layers layers' [Hl _] _ IH]; [done|].
  assert (slot b l' = slot b l) as Hs by (unfold slot; by rewrite Hl).
  simpl. rewrite Hs. destruct (slot b l); [f_equal|]; exact IH.
Qed.




(** X2: setting and then gathering is a round trip: a list of at least
    two values other than [None], one per layer that carries the attribute,
    is gathered back unchanged after it has been set, for the cache
    ([_set_past_key_values], [_get_past_key_values]) and for the hidden
    states ([_set_hidden_states], [_get_hidden_states]) alike, and the call
    that sets it succeeds. *)
Theorem set_then_gather_round_trip layers vs a :
  length vs = length (cache_bearing a layers) →
  Forall (λ v, v ≠ VNone) vs →
  (2 ≤ length vs)%nat →
  (_set_past_key_values layers vs a).2 = Ok () ∧
  _get_past_key_values (_set_past_key_values layers vs a).1 a = Some vs ∧
  (_set_hidden_states layers vs a).2 = Ok () ∧
  _get_hidden_states (_set_hidden_states layers vs a).1 a = Some vs.
Proof.
  intros Hlen Hvs H2.
  pose proof (set_then_get layers vs a Hlen Hvs H2) as Hget.
  assert ((_set_past_key_values layers vs a).2 = Ok ()) as Hok.
  { rewrite set_past_key_values_result. by rewrite decide_False by lia. }
  unfold _set_hidden_states. split_and!; done.
Qed.

Lemma set_then_gather_round_trip_witness :
  let layers : list layer :=
    [ {["past_key_values" := VNone]}; {["use_cache" := VBool true]};
      {["past_key_values" := VObj 9]} ] in
  (_set_past_key_values layers [VObj 1; VObj 2] "past_key_values").2
    = Ok () ∧
  _get_past_key_values
    (_set_past_key_values layers [VObj 1; VObj 2] "past_key_values").1
    "past_key_values"
  = Some [VObj 1; VObj 2].
Proof.
  intros layers.
  assert (length [VObj 1; VObj 2] =
          length (cache_bearing "past_key_values" layers)) as Hlen
    by by_evaluation.
  assert (Forall (λ v, v ≠ VNone) [VObj 1; VObj 2]) as Hvs
    by (repeat constructor; discriminate).
  assert (2 ≤ length [VObj 1; VObj 2])%nat as H2 by (simpl; lia).
  pose proof (set_then_gather_round_trip layers [VObj 1; VObj 2]
                "past_key_values" Hlen Hvs H2) as (Hok & Hget & _).
  by split.
Defined.

Lemma non_empty_slots_cons a l layers :
  non_empty_slots a (l :: layers) =
  option_list (slot a l) ++ non_empty_slots a layers.
Proof. unfold non_empty_slots. simpl. by destruct (slot a l). Qed.

Lemma cache_bearing_cons a l layers :
  cache_bearing a (l :: layers) =
  (if hasattr l a then [l] else []) ++ cache_bearing a layers.
Proof.
  unfold cache_bearing. destruct (hasattr l a) eqn:Ha.
  - by rewrite filter_cons_True.
  - rewrite filter_cons_False; [done|]. by rewrite Ha.
Qed.

Lemma slot_le_hasattr a l :
  (length (option_list (slot a l)) ≤
   length (if hasattr l a then [l] else []))%nat.
Proof.
  unfold slot, hasattr. destruct (l !! a) as [v|].
  - rewrite bool_decide_true by eauto.
    destruct (decide (v = VNone)); simpl; lia.
  - simpl. lia.
Qed.

Lemma slot_lt_hasattr a l :
  l !! a = Some VNone →
  (length (option_list (slot a l)) <
   length (if hasattr l a then [l] else []))%nat.
Proof.
  intros E. unfold slot, hasattr. rewrite E.
  rewrite bool_decide_true by eauto. simpl. lia.
Qed.

Lemma slots_le_bearing a layers :
  (length (non_empty_slots a layers) ≤ length (cache_bearing a layers))%nat.
Proof.
  induction layers as [|l layers IH]; [done|].
  rewrite non_empty_slots_cons, cache_bearing_cons, !length_app.
  pose proof (slot_le_hasattr a l). lia.
Qed.

Lemma slots_lt_bearing a layers :
  ¬ all_bearing_filled a layers →
  (length (non_empty_slots a layers) < length (cache_bearing a layers))%nat.
Proof.
  unfold all_bearing_filled. intros Hnot.
  apply not_Forall_Exists in Hnot; [|apply _].
  induction Hnot as [l layers Hl|l layers _ IH];
    rewrite non_empty_slots_cons, cache_bearing_cons, !length_app.
  - apply dec_stable in Hl. pose proof (slot_lt_hasattr a l Hl).
    pose proof (slots_le_bearing a layers). lia.
  - pose proof (slot_le_hasattr a l). lia.
Qed.

Lemma set_gathered_back a layers :
  all_bearing_filled a layers →
  _set_past_key_values layers (non_empty_slots a layers) a = (layers, Ok ()).
Proof.
  unfold all_bearing_filled.
  induction 1 as [|l layers Hl _ IH]; [done|].
  rewrite non_empty_slots_cons. cbn [_set_past_key_values].
  unfold slot, hasattr. destruct (l !! a) as [v|] eqn:E.
  - rewrite bool_decide_true by eauto.
    destruct (decide (v = VNone)) as [->|Hv]; [done|].
    simpl. rewrite IH. by rewrite insert_id.
  - rewrite bool_decide_false by (by intros [? ?]).
    simpl. by rewrite IH.
Qed.

(** X3: handing the gathered cache back to the stage it was gathered from
    is the identity when every layer that carries the attribute holds a
    value; when one of them holds [None], the gathered list is one entry
    short for the setter, which ends in [StopIteration]. *)
Theorem gather_then_set_back layers a pkv :
  _get_past_key_values layers a = Some pkv →
  (all_bearing_filled a layers →
     _set_past_key_values layers pkv a = (layers, Ok ())) ∧
  (¬ all_bearing_filled a layers →
     (_set_past_key_values layers pkv a).2 = Raise StopIteration).
Proof.
  rewrite get_past_key_values_spec. case_decide; [|done]. intros [= <-].
  split.
  - apply set_gathered_back.
  - intros Hnot. rewrite set_past_key_values_result.
    by rewrite decide_True by by apply slots_lt_bearing.
Qed.

Lemma gather_then_set_back_witness :
  let filled : list layer :=
    [ {["past_key_values" := VObj 1]}; {["past_key_values" := VObj 2]} ] in
  let gap : list layer :=
    [ {["past_key_values" := VObj 1]}; {["past_key_values" := VNone]};
      {["past_key_values" := VObj 2]} ] in
  _set_past_key_values filled [VObj 1; VObj 2] "past_key_values"
    = (filled, Ok ()) ∧
  (_set_past_key_values gap [VObj 1; VObj 2] "past_key_values").2
    = Raise StopIteration.
Proof.
  intros filled gap. split.
  - apply (proj1 (gather_then_set_back filled "past_key_values"
                    [VObj 1; VObj 2] ltac:(by_evaluation))).
    unfold all_bearing_filled. repeat constructor; by vm_compute.
  - apply (proj2 (gather_then_set_back gap "past_key_values"
                    [VObj 1; VObj 2] ltac:(by_evaluation))).
    unfold all_bearing_filled. intros Hall.
    apply Forall_cons in Hall as [_ Hall].
    apply Forall_cons in Hall as [Hgap _]. by apply Hgap.
Defined.

(** X4: [_set_use_cache] writes the flag into every layer that has the
    attribute and into nothing else: the layers without it, all other
    attributes, and hence every gathered cache and hidden-state list are as
    before. *)
Theorem set_use_cache_frame layers (flag : bool) a :
  Forall (λ l : layer, l !! a = None ∨ l !! a = Some (VBool flag))
         (_set_use_cache layers flag a) ∧
  same_but a layers (_set_use_cache layers flag a) ∧
  (∀ b, b ≠ a →
     _get_past_key_values (_set_use_cache layers flag a) b
       = _get_past_key_values layers b ∧
     _get_hidden_states (_set_use_cache layers flag a) b
       = _get_hidden_states layers b).
Proof.
  unfold _set_use_cache. split_and!.
  - apply Forall_fmap, Forall_forall. intros l _. simpl.
    rewrite setattr_if_present_lookup. destruct (l !! a); simpl; auto.
  - apply setattr_same_but.
  - intros b Hb. split.
    + rewrite !get_past_key_values_spec.
      by rewrite (same_but_slots a b layers)
        by (done || apply setattr_same_but).
    + rewrite !get_hidden_states_spec.
      by rewrite (same_but_slots a b layers)
        by (done || apply setattr_same_but).
Qed.

Lemma set_use_cache_frame_witness :
  let layers : list layer :=
    [ {["past_key_values" := VObj 1; "use_cache" := VBool false]};
      {["past_key_values" := VObj 2; "use_cache" := VBool false]} ] in
  _get_past_key_values (_set_use_cache layers true "use_cache")
                       "past_key_values"
  = _get_past_key_values layers "past_key_values".
Proof.
  intros layers.
  apply (proj1 (proj2 (proj2 (set_use_cache_frame layers true "use_cache"))
                 "past_key_values" ltac:(done))).
Defined.

End CacheMoreFacts.

(** ** The decoding loop around [forward] *)

Module GenerationMoreFacts.
Import Cache CacheFacts CacheMore CacheMoreFacts Generation GenerationFacts.

Section LoopFacts.
Context `{EngineModel}.

Implicit Types (self : Mixin) (ids : Tensor2) (pkv : list value).

Lemma use_cache_keeps_filled a (flag : bool) (ls : list layer) :
  a ≠ "use_cache" →
  all_bearing_filled a (_set_use_cache ls flag "use_cache") ↔
  all_bearing_filled a ls.
Proof.
  intros Ha. unfold all_bearing_filled, _set_use_cache.
  rewrite Forall_fmap. apply Forall_iff. intros l. simpl.
  by rewrite setattr_if_present_other.
Qed.

Lemma use_cache_keeps_slots a (flag : bool) (ls : list layer) :
  a ≠ "use_cache" →
  non_empty_slots a (_set_use_cache ls flag "use_cache")
  = non_empty_slots a ls.
Proof.
  intros Ha. unfold _set_use_cache.
  apply (same_but_slots "use_cache" a); [done|apply setattr_same_but].
Qed.

(** X5: a generation step that starts without cache returns its
    [input_ids] unchanged and cannot fail; it leaves the coordinator in
    [NoCache], so that the next [forward] hands the whole input to the
    engine; the hidden states, the engine, the stored buffer shape and the
    record of engine calls are untouched. *)
Theorem prepare_without_cache ids self :
  let r := prepare_inputs_for_generation ids None self in
  r.2 = Ok ids ∧
  coordinator_state r.1 = NoCache ∧
  (∀ ids', forwarded r.1 ids' = ids') ∧
  _get_hidden_states (layers r.1) "hidden_states"
    = _get_hidden_states (layers self) "hidden_states" ∧
  engine r.1 = engine self ∧
  communicate_buffer_shape r.1 = communicate_buffer_shape self ∧
  calls r.1 = calls self.
Proof.
  unfold prepare_inputs_for_generation. cbn [fst snd].
  assert (_get_past_key_values
            (layers (with_layers
               (_clean_past_key_values
                  (layers (with_layers
                     (_set_use_cache (layers self) (use_cache self) "use_cache")
                     self)) "past_key_values")
               (with_layers
                  (_set_use_cache (layers self) (use_cache self) "use_cache")
                  self))) "past_key_values" = None) as Hnone.
  { cbn [layers with_layers]. rewrite get_past_key_values_spec.
    by rewrite empty_slots_gather_nothing
      by apply clean_past_key_values_empty. }
  split_and!; try done.
  - unfold coordinator_state. by rewrite Hnone.
  - intros ids'. unfold forwarded. by rewrite Hnone.
  - cbn [layers with_layers]. rewrite !get_hidden_states_spec.
    unfold _clean_past_key_values.
    rewrite (same_but_slots "past_key_values" "hidden_states"
               (_set_use_cache (layers self) (use_cache self) "use_cache"))
      by (done || apply setattr_same_but).
    by rewrite use_cache_keeps_slots.
Qed.

(** X6: one turn of the decoding loop.  When [forward] has returned a
    cache and every cache-bearing layer of the stage holds one, handing the
    returned cache to [prepare_inputs_for_generation] succeeds, puts the same
    cache back and keeps the coordinator in [CachePopulated], so the next
    [forward] hands on the last column only.  When a cache-bearing layer was
    left empty, the same call ends in [StopIteration]. *)
Theorem decoding_turn ids ids' self out pkv :
  (forward ids self).2 = Ok out →
  past_key_values out = Some pkv →
  let after := (forward ids self).1 in
  let r := prepare_inputs_for_generation ids' (Some pkv) after in
  (all_bearing_filled "past_key_values" (layers after) →
     r.2 = Ok ids' ∧
     _get_past_key_values (layers r.1) "past_key_values" = Some pkv ∧
     coordinator_state r.1 = CachePopulated ∧
     forwarded r.1 ids' = last_column ids') ∧
  (¬ all_bearing_filled "past_key_values" (layers after) →
     r.2 = Raise StopIteration).
Proof.
  intros Hout Hpkv after r.
  assert (_get_past_key_values (layers after) "past_key_values" = Some pkv)
    as Hget.
  { subst after. destruct (forward_unfold ids self) as [Hst Hres].
    rewrite Hres in Hout. rewrite Hst. cbn [layers].
    destruct (eval_batch _ _ _).2; [|done]. injection Hout as <-.
    exact Hpkv. }
  set (ls := _set_use_cache (layers after) (use_cache after) "use_cache").
  assert (_get_past_key_values ls "past_key_values" = Some pkv) as Hget'.
  { rewrite get_past_key_values_spec in Hget |- *.
    subst ls. by rewrite use_cache_keeps_slots. }
  subst r. unfold prepare_inputs_for_generation. cbn [layers with_layers].
  fold ls.
  assert (non_empty_slots "past_key_values" ls = pkv) as Hslots.
  { rewrite get_past_key_values_spec in Hget'. by case_decide; simplify_eq. }
  assert (all_bearing_filled "past_key_values" ls ↔
          all_bearing_filled "past_key_values" (layers after)) as Hiff
    by by apply use_cache_keeps_filled.
  clearbody ls. subst pkv. split.
  - intros Hfilled.
    assert (all_bearing_filled "past_key_values" ls) as Hfilled'
      by by apply Hiff.
    rewrite (set_gathered_back _ _ Hfilled').
    cbn [fst snd layers with_layers].
    split_and!; try done.
    + unfold coordinator_state. cbn [layers with_layers]. by rewrite Hget'.
    + unfold forwarded. cbn [layers with_layers]. by rewrite Hget'.
  - intros Hnot.
    assert (¬ all_bearing_filled "past_key_values" ls) as Hnot'
      by by rewrite Hiff.
    pose proof (set_past_key_values_result
                  ls (non_empty_slots "past_key_values" ls)
                  "past_key_values") as Hres.
    rewrite decide_True in Hres
      by by apply slots_lt_bearing.
    destruct (_set_past_key_values ls _ "past_key_values") as [ls' res].
    cbn [snd] in Hres. by rewrite Hres.
Qed.




Lemma last_slice_idempotent (r : list Z) :
  last_slice (last_slice r) = last_slice r.
Proof.
  unfold last_slice at 1.
  replace (length (last_slice r) - 1)%nat with 0%nat; [done|].
  unfold last_slice. rewrite length_drop. lia.
Qed.

Lemma last_slice_short (r : list Z) :
  (length r ≤ 1)%nat → last_slice r = r.
Proof.
  intros Hr. unfold last_slice.
  by replace (length r - 1)%nat with 0%nat by lia.
Qed.

(** X8: taking the last column twice is taking it once, and a well-shaped
    input of at most one column is its own last column; hence in state
    [CachePopulated] it makes no difference to [forward] whether the caller
    passes the whole sequence or only its last column. *)
Theorem last_column_once ids self :
  last_column (last_column ids) = last_column ids ∧
  (well_shaped ids → (shape1 ids ≤ 1)%nat → last_column ids = ids) ∧
  (coordinator_state self = CachePopulated →
     forwarded self (last_column ids) = forwarded self ids ∧
     eval_batches (calls (forward (last_column ids) self).1)
       = eval_batches (calls (forward ids self).1)).
Proof.
  assert (last_column (last_column ids) = last_column ids) as Hidem.
  { unfold last_column. simpl. f_equal; [lia|].
    rewrite <-list_fmap_compose. apply list_fmap_ext.
    intros i r _. apply last_slice_idempotent. }
  split_and!.
  - exact Hidem.
  - intros [Hrows Hcols] Hle. destruct ids as [n m rs]. simpl in *.
    unfold last_column. simpl. f_equal; [lia|].
    rewrite <-(list_fmap_id rs) at 2. apply Forall_fmap_ext.
    eapply Forall_impl; [exact Hcols|]. intros r Hr.
    simpl in Hr. unfold id. apply last_slice_short. lia.
  - intros Hst.
    assert (forwarded self (last_column ids) = forwarded self ids) as Hf
      by (by rewrite !forwarded_by_state, Hst).
    split; [exact Hf|]. by rewrite !forward_calls, Hf.
Qed.

End LoopFacts.

Section GenerateFrame.
Context `{EngineModel} {Args Res : Type} `{!SuperGenerate Args Res}.

(** X9: [generate] returns or raises exactly what the underlying
    generation does, and differs from it in the state only by the two cleared
    slot kinds: the engine, the record of its calls, the stored buffer shape,
    the number of layers and every other attribute of every layer (such as
    [use_cache]) are as the underlying generation left them. *)
Theorem generate_frame (args : Args) (self : Mixin) :
  let g := generate args self in
  let s := super_generate prepare_inputs_for_generation forward args self in
  g.2 = s.2 ∧
  engine g.1 = engine s.1 ∧
  calls g.1 = calls s.1 ∧
  communicate_buffer_shape g.1 = communicate_buffer_shape s.1 ∧
  use_cache g.1 = use_cache s.1 ∧
  Forall2 (λ l l' : layer,
             (∀ b, b ≠ "past_key_values" → b ≠ "hidden_states" →
                   l' !! b = l !! b) ∧
             hasattr l' "past_key_values" = hasattr l "past_key_values" ∧
             hasattr l' "hidden_states" = hasattr l "hidden_states")
          (layers s.1) (layers g.1).
Proof.
  intros g s. subst g s. unfold generate.
  destruct (super_generate prepare_inputs_for_generation forward args self)
    as [self' [res|err]]; cbn [fst snd].
  - split_and!; try done. cbn [layers with_layers].
    unfold _clean_hidden_states, _clean_past_key_values.
    rewrite <-list_fmap_compose. apply Forall2_fmap_r, Forall_Forall2_diag.
    apply Forall_forall. intros l _. simpl. split_and!.
    + intros b Hp Hh. by rewrite !setattr_if_present_other.
    + unfold hasattr. apply bool_decide_ext.
      rewrite setattr_if_present_other by done.
      by rewrite setattr_if_present_lookup, fmap_is_Some.
    + unfold hasattr. apply bool_decide_ext.
      rewrite setattr_if_present_lookup, fmap_is_Some.
      by rewrite setattr_if_present_other.
  - split_and!; try done. apply Forall_Forall2_diag, Forall_forall.
    by intros l _.
Qed.

End GenerateFrame.

(** *** On a concrete stage *)

Import Scenario.

Lemma decoding_turn_witness :
  let self := fresh_mixin None in
  let after := (forward (ids_of_length 3) self).1 in
  let r := prepare_inputs_for_generation (ids_of_length 4)
             (Some [VObj 1; VObj 1]) after in
  r.2 = Ok (ids_of_length 4) ∧
  _get_past_key_values (layers r.1) "past_key_values"
    = Some [VObj 1; VObj 1] ∧
  coordinator_state r.1 = CachePopulated ∧
  forwarded r.1 (ids_of_length 4) = last_column (ids_of_length 4).
Proof.
  intros self after r.
  pose (out := @mkOutput (counting_engine None) None ()
                 (Some [VObj 1; VObj 1]) None None).
  apply (proj1 (decoding_turn (ids_of_length 3) (ids_of_length 4) self out
                  [VObj 1; VObj 1] ltac:(by_evaluation) eq_refl)).
  apply (bool_decide_unpack _). vm_cast_no_check I.
Defined.

Lemma last_column_once_witness :
  last_column (ids_of_length 1) = ids_of_length 1.
Proof.
  apply (proj1 (proj2 (last_column_once (ids_of_length 1)
                         (fresh_mixin None)))).
  - split; [done|]. by repeat constructor.
  - simpl. lia.
Defined.

End GenerationMoreFacts.

(** ** Mesh resolution and construction, continued *)

Module PipelineMoreFacts.
Import Pipeline PipelineFacts.

Section ResolutionFacts.
Context `{Library}.

Implicit Types (p : Process) (t : Topology) (W : Z).

Lemma world_size_is_unique p W W' :
  world_size_is p W → world_size_is p W' → W = W'.
Proof. intros (s & Hs & Hn) (s' & Hs' & Hn'). congruence. Qed.

(** X10: mesh resolution succeeds exactly when [WORLD_SIZE] reads as an
    integer and either the requested sizes multiply to it or
    [tensor_size * pipeline_size] is not zero.  Otherwise it raises
    [TypeError] (variable unset), [ValueError] (no integer) or
    [ZeroDivisionError]; only in the last case has a warning been logged. *)
Theorem resolve_topology_outcome p t :
  (is_ok (resolve_topology t p).2 = true ↔
     ∃ W, world_size_is p W ∧
          (W = num_pp t * num_dp t * num_mp t ∨ num_mp t * num_pp t ≠ 0)) ∧
  (∀ e, (resolve_topology t p).2 = Raise e →
     (e = TypeError ∧ environ p !! "WORLD_SIZE" = None ∧
      (resolve_topology t p).1 = p) ∨
     (∃ s, e = ValueError s ∧ environ p !! "WORLD_SIZE" = Some s ∧
           int_of_str s = None ∧ (resolve_topology t p).1 = p) ∨
     (∃ W, e = ZeroDivisionError ∧ world_size_is p W ∧
           num_mp t * num_pp t = 0 ∧ W ≠ 0 ∧
           warnings (resolve_topology t p).1 =
             warnings p ++
             [mismatch_message W (num_pp t) (num_dp t) (num_mp t)])).
Proof.
  destruct (environ p !! "WORLD_SIZE") as [s|] eqn:Hs.
  - destruct (int_of_str s) as [W|] eqn:Hn.
    + assert (world_size_is p W) as HW by (by exists s).
      rewrite (resolve_topology_spec p t W HW).
      destruct (decide (W = num_pp t * num_dp t * num_mp t)) as [Heq|Hne].
      { cbn [fst snd is_ok]. split; [|done]. split; [|done].
        intros _. exists W. auto. }
      destruct (decide (num_mp t * num_pp t = 0)) as [Hz|Hnz].
      { cbn [fst snd is_ok]. split.
        - split; [done|]. intros (W' & HW' & [Heq|Hnz]); [|done].
          by rewrite (world_size_is_unique p W W') in Hne.
        - intros e [= <-]. right. right. exists W. split_and!; try done.
          intros ->. apply Hne.
          replace (num_pp t * num_dp t * num_mp t)
            with (num_dp t * (num_mp t * num_pp t)) by ring.
          rewrite Hz. ring. }
      cbn [fst snd is_ok]. split; [|done]. split; [|done].
      intros _. exists W. auto.
    + unfold resolve_topology, dims, bind, environ_int. rewrite Hs, Hn.
      cbn [fst snd is_ok]. split; [split; [done|]|].
      * intros (W & (s' & Hs' & Hn') & _). congruence.
      * intros e [= <-]. right. left. by exists s.
  - unfold resolve_topology, dims, bind, environ_int. rewrite Hs.
    cbn [fst snd is_ok]. split; [split; [done|]|].
    + intros (W & (s' & Hs' & Hn') & _). congruence.
    + intros e [= <-]. by left.
Qed.

(** X11: resolving a resolved mesh changes nothing more: the mesh that
    comes out of a resolution comes out of the next one again, with the
    requested pipeline and tensor sizes in place; and when its sizes multiply
    to the world size the next resolution logs no warning. *)
Theorem resolve_topology_idempotent p t t' W :
  world_size_is p W →
  (resolve_topology t p).2 = Ok t' →
  num_pp t' = num_pp t ∧ num_mp t' = num_mp t ∧
  (resolve_topology t' (resolve_topology t p).1).2 = Ok t' ∧
  (W = num_pp t' * num_dp t' * num_mp t' →
     resolve_topology t' p = (p, Ok t')).
Proof.
  intros HW. rewrite (resolve_topology_spec p t W HW).
  destruct (decide (W = num_pp t * num_dp t * num_mp t)) as [Heq|Hne];
    [|destruct (decide (num_mp t * num_pp t = 0)) as [Hz|Hnz]];
    cbn [fst snd]; [| done |]; intros [= <-]; cbn [num_pp num_dp num_mp].
  - split_and!; try done.
    + rewrite (resolve_topology_spec p _ W HW). cbn [num_pp num_dp num_mp].
      by rewrite decide_True.
    + intros _. rewrite (resolve_topology_spec p _ W HW).
      cbn [num_pp num_dp num_mp]. by rewrite decide_True.
  - assert (∀ p', world_size_is p' W →
       (resolve_topology
          {| num_pp := num_pp t; num_dp := W `div` (num_mp t * num_pp t);
             num_mp := num_mp t |} p').2
       = Ok {| num_pp := num_pp t; num_dp := W `div` (num_mp t * num_pp t);
               num_mp := num_mp t |}) as Hagain.
    { intros p' HW'. rewrite (resolve_topology_spec p' _ W HW').
      cbn [num_pp num_dp num_mp].
      destruct (decide (W = _)); [done|]. by rewrite decide_False. }
    split_and!; try done.
    + apply Hagain. by do 2 apply add_warning_world_size_is.
    + intros Hex. rewrite (resolve_topology_spec p _ W HW).
      cbn [num_pp num_dp num_mp]. by rewrite decide_True.
Qed.

(** X12: for positive pipeline and tensor sizes mesh resolution never
    fails, whatever the world size, and the resolved mesh covers as many
    ranks as fit: its sizes multiply to at most the world size and miss it by
    less than [pipeline_size * tensor_size].  With fewer processes than
    [pipeline_size * tensor_size] the data size resolves to 0. *)
Theorem resolved_mesh_bounds p pp dp tp W :
  world_size_is p W → 0 < pp → 0 < tp →
  ∃ data_size,
    (resolve_topology {| num_pp := pp; num_dp := dp; num_mp := tp |} p).2
      = Ok {| num_pp := pp; num_dp := data_size; num_mp := tp |} ∧
    pp * data_size * tp ≤ W < pp * data_size * tp + pp * tp ∧
    (0 ≤ W < pp * tp → W ≠ pp * dp * tp → data_size = 0).
Proof.
  intros HW Hpp Htp. rewrite (resolve_topology_spec p _ W HW).
  cbn [num_pp num_dp num_mp].
  destruct (decide (W = pp * dp * tp)) as [Heq|Hne].
  - exists dp. cbn [snd]. split_and!; [done|nia|nia|done].
  - rewrite decide_False by nia. exists (W `div` (tp * pp)). cbn [snd].
    assert (0 < tp * pp) as Hpos by nia.
    pose proof (Z.mul_div_le W (tp * pp) Hpos) as Hle.
    pose proof (Z.mul_succ_div_gt W (tp * pp) Hpos) as Hgt.
    split_and!; [done|nia|nia|].
    intros Hsmall _. apply Z.div_small. lia.
Qed.

End ResolutionFacts.

Section ConstructionMoreFacts.
Context `{Library}.

Implicit Types (p : Process) (t : Topology) (W : Z).

Lemma grid_init_fields t p grid :
  (MultiParallelGrid__init__ t p).2 = Ok grid →
  grid_topo grid = t ∧
  grid_global_rank grid = dist_rank p ∧
  grid_world_size grid = dist_world_size p ∧
  data_parallel_size grid = num_dp t `max` 1 ∧
  pipe_parallel_size grid = num_pp t `max` 1 ∧
  model_parallel_size grid = num_mp t `max` 1 ∧
  slice_parallel_size grid = model_parallel_size grid ∧
  is_first_stage grid = bool_decide (grid_stage_id grid = 0) ∧
  is_last_stage grid =
    bool_decide (grid_stage_id grid = pipe_parallel_size grid - 1).
Proof.
  unfold MultiParallelGrid__init__, bind, get, raise, lift, ret.
  destruct (_is_grid_valid t (dist_world_size p)); [|done]. cbn [negb].
  destruct (get_stage_id t (dist_rank p)); [|done].
  destruct (get_data_parallel_id t (dist_rank p)); [|done].
  destruct (parallel_state_groups t (dist_rank p)); [|done].
  by intros [= <-].
Qed.

(** X13: a construction that fails publishes nothing: whichever step
    raises, [os.environ] is as it was before the call. *)
Theorem failed_construction_publishes_nothing layers topology method aci p e :
  (PipelineModel__init__ layers topology method aci p).2 = Raise e →
  environ (PipelineModel__init__ layers topology method aci p).1 = environ p.
Proof.
  destruct topology as [t|]; [|done].
  unfold PipelineModel__init__, bind, get.
  pose proof (environ_int_state p "LOCAL_RANK") as Hst.
  destruct (environ_int "LOCAL_RANK" p) as [p0 [lr|]];
    cbn [fst] in Hst; subst p0; [|done].
  pose proof (resolve_topology_environ t p) as (Henv & Hrank & _).
  destruct (resolve_topology t p) as [p1 [t'|]]; cbn [fst] in *; [|done].
  pose proof (grid_init_state t' p1) as Hg1.
  destruct (MultiParallelGrid__init__ t' p1) as [p2 [grid|]];
    cbn [fst] in Hg1; subst p2; [|done].
  unfold lift, modify, ret.
  destruct (get_coord t' (dist_rank p)) as [c|]; [|done].
  destruct (_partition_layers layers t' (pipe c) method) as [ps|]; [|done].
  destruct (_build layers ps (pipe c)) as [ff|]; [|done].
  destruct (_synchronize_tied_weights ff); done.
Qed.

(** X14: the model a completed construction returns carries the resolved
    mesh: the requested pipeline and tensor sizes, the data size kept or
    recomputed from [WORLD_SIZE], the grid built on that mesh with each of
    its three sizes at least 1, the rank and world size of the process and
    the layer specs it was given; the warnings logged are the two of a
    mismatch or none. *)
Theorem constructed_model_carries_mesh layers t method aci p p' m W :
  world_size_is p W →
  PipelineModel__init__ layers (Some t) method aci p = (p', Ok m) →
  let exact := W = num_pp t * num_dp t * num_mp t in
  _topo m =
    {| num_pp := num_pp t;
       num_dp := if decide exact then num_dp t
                 else W `div` (num_mp t * num_pp t);
       num_mp := num_mp t |} ∧
  num_stages m = num_pp t ∧
  grid_topo (_grid m) = _topo m ∧
  1 ≤ data_parallel_size (_grid m) ∧
  1 ≤ pipe_parallel_size (_grid m) ∧
  1 ≤ model_parallel_size (_grid m) ∧
  global_rank m = dist_rank p ∧
  world_size m = dist_world_size p ∧
  _layer_specs m = layers ∧
  _num_layers m = length layers ∧
  activation_checkpoint_interval m = aci ∧
  warnings p' =
    warnings p ++
    (if decide exact then []
     else [mismatch_message W (num_pp t) (num_dp t) (num_mp t);
           set_dp_size_message]).
Proof.
  intros HW. unfold PipelineModel__init__, bind, get.
  pose proof (environ_int_state p "LOCAL_RANK") as Hst.
  destruct (environ_int "LOCAL_RANK" p) as [p0 [lr|]];
    cbn [fst] in Hst; subst p0; [|done].
  pose proof (resolve_topology_spec p t W HW) as Hres.
  destruct (resolve_topology t p) as [p1 [t'|]]; cbn [fst] in *;
    [|done].
  pose proof (grid_init_state t' p1) as Hg1.
  pose proof (grid_init_fields t' p1) as Hg2.
  destruct (MultiParallelGrid__init__ t' p1) as [p2 [grid|]];
    cbn [fst snd] in *; subst p2; [|done].
  destruct (Hg2 grid eq_refl)
    as (Htopo & _ & _ & Hdp & Hpp & Hmp & _).
  unfold lift, modify, ret.
  destruct (get_coord t' (dist_rank p)) as [c|]; [|done].
  destruct (_partition_layers layers t' (pipe c) method) as [ps|]; [|done].
  destruct (_build layers ps (pipe c)) as [ff|]; [|done].
  destruct (_synchronize_tied_weights ff); [|done].
  intros [= <- <-]. cbn.
  destruct (decide (W = num_pp t * num_dp t * num_mp t)) as [Heq|Hne].
  - injection Hres as -> ->. cbn in *. rewrite app_nil_r.
    split_and!; try done; lia.
  - destruct (decide (num_mp t * num_pp t = 0)); [done|].
    injection Hres as -> ->. cbn in *. rewrite <-app_assoc.
    split_and!; try done; lia.
Qed.

End ConstructionMoreFacts.

(** *** On a concrete job *)

Lemma resolve_topology_outcome_witness :
  is_ok (@resolve_topology Scenario.even_library
           {| num_pp := 2; num_dp := 1; num_mp := 1 |}
           (Scenario.launched 0 4)).2 = true.
Proof.
  apply (proj1 (@resolve_topology_outcome Scenario.even_library _ _)).
  exists 4. split; [|right; done].
  exists "4". split; by_evaluation.
Defined.

Lemma resolve_topology_idempotent_witness :
  let p := Scenario.launched 0 12 in
  let t := {| num_pp := 3; num_dp := 1; num_mp := 2 |} in
  let t' := {| num_pp := 3; num_dp := 2; num_mp := 2 |} in
  (@resolve_topology Scenario.even_library t'
     (@resolve_topology Scenario.even_library t p).1).2 = Ok t'.
Proof.
  intros p t t'.
  apply (@resolve_topology_idempotent Scenario.even_library p t t' 12).
  - exists "12". split; by_evaluation.
  - by_evaluation.
Defined.

Lemma resolved_mesh_bounds_witness :
  let p := Scenario.launched 0 7 in
  ∃ data_size,
    (@resolve_topology Scenario.even_library
       {| num_pp := 2; num_dp := 1; num_mp := 2 |} p).2
      = Ok {| num_pp := 2; num_dp := data_size; num_mp := 2 |} ∧
    2 * data_size * 2 ≤ 7 < 2 * data_size * 2 + 2 * 2 ∧
    (0 ≤ 7 < 2 * 2 → 7 ≠ 2 * 1 * 2 → data_size = 0).
Proof.
  intros p.
  apply (@resolved_mesh_bounds Scenario.even_library p 2 1 2 7); try lia.
  exists "7". split; by_evaluation.
Defined.

Lemma failed_construction_publishes_nothing_witness :
  let r := @PipelineModel__init__ Scenario.even_library Scenario.ten_layers
             (Some {| num_pp := 2; num_dp := 1; num_mp := 1 |})
             "parameters" 0 (Scenario.launched 1 5) in
  environ r.1 = environ (Scenario.launched 1 5).
Proof.
  intros r.
  apply (@failed_construction_publishes_nothing Scenario.even_library
           _ _ _ _ _ (AssertionError "Invalid Grid")).
  by_evaluation.
Defined.

Lemma constructed_model_carries_mesh_witness :
  let r := @PipelineModel__init__ Scenario.even_library Scenario.ten_layers
             (Some {| num_pp := 2; num_dp := 1; num_mp := 1 |})
             "parameters" 0 (Scenario.launched 1 4) in
  _topo Scenario.stage_0_replica_1
    = {| num_pp := 2; num_dp := 2; num_mp := 1 |} ∧
  warnings r.1 =
    [ @mismatch_message 4 2 1 1; set_dp_size_message ].
Proof.
  intros r.
  assert (r.2 = Ok Scenario.stage_0_replica_1) as H2 by by_evaluation.
  assert (r = (r.1, Ok Scenario.stage_0_replica_1)) as Hr
    by (rewrite <-H2; apply surjective_pairing).
  assert (@world_size_is Scenario.even_library (Scenario.launched 1 4) 4)
    as HW by (exists "4"; split; by_evaluation).
  pose proof (@constructed_model_carries_mesh Scenario.even_library
                _ _ _ _ _ _ _ 4 HW Hr) as Hm.
  split; [exact (proj1 Hm)|].
  exact (proj2 (proj2 (proj2 (proj2 (proj2 (proj2 (proj2 (proj2
           (proj2 (proj2 (proj2 Hm))))))))))).
Defined.

End PipelineMoreFacts.

(** ** The ChatML template *)

Module TemplateMoreFacts.
Import Template TemplateFacts TemplateMore.

Implicit Types (m : message) (history : list message) (ms acc : list prepared).
Implicit Types (turns : list turn) (conv : conversation).

Lemma append_assoc (s1 s2 s3 : string) :
  (s1 +:+ s2) +:+ s3 = s1 +:+ (s2 +:+ s3).
Proof.
  induction s1 as [|c s1 IH]; [done|].
  change (String c ((s1 +:+ s2) +:+ s3) = String c (s1 +:+ s2 +:+ s3)).
  by f_equal.
Qed.

Lemma append_empty_r (s : string) : s +:+ EmptyString = s.
Proof.
  induction s as [|c s IH]; [done|].
  change (String c (s +:+ EmptyString) = String c s). by f_equal.
Qed.

Lemma rendered_app ms1 ms2 :
  rendered (ms1 ++ ms2) = rendered ms1 +:+ rendered ms2.
Proof.
  induction ms1 as [|m ms1 IH]; simpl; [done|].
  by rewrite IH, append_assoc.
Qed.

Lemma chatml_step_spec acc m :
  chatml_step acc m =
    match turn_of m with
    | Some t => Ok (acc ++ turn_segments t)
    | None => Raise (chatml_error m)
    end.
Proof.
  unfold chatml_step, turn_of, chatml_error, turn_segments, getitem,
    result_bind.
  destruct (m !! "role") as [r|] eqn:Hr; [|done]. cbn [fst snd].
  destruct (decide (r = Str "assistant")) as [->|Hne].
  - destruct (m !! "content") as [[c|shown hashable dumped]|];
      cbn [add_str is_str format]; [| |done].
    + rewrite decide_False by (intros [_ Hc]; by apply Hc).
      rewrite decide_True by done. by rewrite <-!app_assoc.
    + by rewrite decide_True by (split; [done|by intros []]).
  - destruct (m !! "content") as [c|]; [|done].
    rewrite decide_False by (by intros [? _]).
    by rewrite decide_False.
Qed.

Lemma turn_of_renders m : is_Some (turn_of m) ↔ chatml_renders m.
Proof.
  unfold turn_of, chatml_renders.
  destruct (m !! "role") as [r|]; [|split; [by intros [? ?]|]].
  - destruct (m !! "content") as [c|]; [|split; [by intros [? ?]|]].
    + destruct (decide (r = Str "assistant" ∧ ¬ is_str c)) as [[-> Hc]|Hok].
      * split; [by intros [? ?]|]. intros (r & c' & [= <-] & [= <-] & Himp).
        destruct Hc. by apply Himp.
      * split; [|eauto]. intros _. exists r, c. split_and!; try done.
        intros ->. destruct (decide (is_str c)); [done|]. by destruct Hok.
    + by intros (? & ? & _ & ? & _).
  - by intros (? & ? & ? & _).
Qed.

Lemma chatml_loop_ok history acc turns :
  mapM turn_of history = Some turns →
  for_each chatml_step history acc = Ok (acc ++ (turns ≫= turn_segments)).
Proof.
  revert acc turns. induction history as [|m history IH]; intros acc turns.
  - intros [= <-]. simpl. by rewrite app_nil_r.
  - rewrite mapM_Some. intros Hall.
    destruct turns as [|t turns]; [by apply Forall2_cons_nil_inv in Hall|].
    apply Forall2_cons in Hall as [Hm Hall]. apply mapM_Some in Hall.
    cbn [for_each]. rewrite chatml_step_spec, Hm. cbn [result_bind].
    rewrite (IH _ turns Hall). cbn [mbind list_bind].
    by rewrite <-app_assoc.
Qed.

(** The loop stops at the first message that cannot be rendered, with the
    error of that message. *)
Lemma chatml_loop_first history m after acc :
  Forall chatml_renders history → ¬ chatml_renders m →
  for_each chatml_step (history ++ m :: after) acc = Raise (chatml_error m).
Proof.
  intros Hall Hm. revert acc.
  induction Hall as [|m' history Hm' _ IH]; intros acc; cbn [app for_each].
  - rewrite chatml_step_spec.
    destruct (turn_of m) as [t|] eqn:Ht; [|done].
    destruct Hm. apply turn_of_renders. eauto.
  - rewrite chatml_step_spec. apply turn_of_renders in Hm' as [t ->].
    cbn [result_bind]. apply IH.
Qed.

Lemma chatml_loop_raise history acc :
  mapM turn_of history = None →
  ∃ before m after,
    history = before ++ m :: after ∧
    Forall chatml_renders before ∧ ¬ chatml_renders m ∧
    for_each chatml_step history acc = Raise (chatml_error m).
Proof.
  intros Hnone.
  assert (∃ before m after,
            history = before ++ m :: after ∧
            Forall chatml_renders before ∧ ¬ chatml_renders m)
    as (before & m & after & -> & Hbefore & Hm).
  { induction history as [|m history IH]; [done|].
    destruct (turn_of m) as [t|] eqn:Hm.
    - destruct (mapM turn_of history) as [turns|] eqn:Hrest.
      + exfalso. revert Hnone. cbn. rewrite Hm, Hrest. done.
      + destruct (IH eq_refl) as (before & m' & after & -> & Hb & Hm').
        exists (m :: before), m', after. split_and!; try done.
        constructor; [|done]. apply turn_of_renders. eauto.
    - exists [], m, history. split_and!; try done.
      intros [t Ht]%turn_of_renders. congruence. }
  exists before, m, after. split_and!; try done.
  by apply chatml_loop_first.
Qed.

Lemma chatml_error_cases m :
  ¬ chatml_renders m →
  (m !! "role" = None ∧ chatml_error m = KeyError "role") ∨
  (is_Some (m !! "role") ∧ m !! "content" = None ∧
   chatml_error m = KeyError "content") ∨
  (m !! "role" = Some (Str "assistant") ∧
   (∃ c, m !! "content" = Some c ∧ ¬ is_str c) ∧
   chatml_error m = TypeError).
Proof.
  intros Hm. unfold chatml_error.
  destruct (m !! "role") as [r|] eqn:Hr; [|by left].
  destruct (m !! "content") as [c|] eqn:Hc; [|right; left; eauto].
  right; right.
  destruct (decide (r = Str "assistant")) as [->|Hne].
  - split_and!; try done. exists c. split; [done|]. intros Hstr.
    apply Hm. unfold chatml_renders. rewrite Hr, Hc. eauto.
  - destruct Hm. unfold chatml_renders. rewrite Hr, Hc.
    exists r, c. by split_and!.
Qed.

(** What [prepare_chatml_messages] computes, in one equation. *)
Lemma prepare_chatml_spec conv (stm : gmap string string) text_field gen :
  prepare_chatml_messages conv stm text_field gen =
    match stm !! "bos_token" with
    | None => Raise (KeyError "bos_token")
    | Some bos =>
        match conv !! text_field with
        | None => Raise (KeyError text_field)
        | Some history =>
            match mapM turn_of history with
            | None => for_each chatml_step history [mkPrepared bos false]
            | Some turns =>
                Ok ([mkPrepared bos false] ++ (turns ≫= turn_segments) ++
                    (if gen then [mkPrepared "<|im_start|>assistant
" false] else []))
            end
        end
    end.
Proof.
  unfold prepare_chatml_messages, getitem, result_bind.
  destruct (stm !! "bos_token") as [bos|]; [|done].
  destruct (conv !! text_field) as [history|]; [|done].
  change ([] ++ [mkPrepared bos false]) with [mkPrepared bos false].
  destruct (mapM turn_of history) as [turns|] eqn:Hturns.
  - rewrite (chatml_loop_ok _ _ _ Hturns). cbn [app].
    destruct gen; [done|by rewrite app_nil_r].
  - destruct (chatml_loop_raise history [mkPrepared bos false] Hturns)
      as (before & m & after & _ & _ & _ & Hkey). by rewrite Hkey.
Qed.

Lemma rendered_turn_segments (t : turn) :
  rendered (turn_segments t) = chatml_message t.
Proof.
  destruct t as [r c]. unfold turn_segments, chatml_message. cbn [fst snd].
  destruct (decide (r = Str "assistant")) as [->|Hne]; simpl.
  - by rewrite append_empty_r, !append_assoc.
  - rewrite append_empty_r. reflexivity.
Qed.

Lemma rendered_turns turns :
  rendered (turns ≫= turn_segments) = chatml_messages turns.
Proof.
  induction turns as [|t turns IH]; [done|].
  cbn [mbind list_bind chatml_messages].
  by rewrite rendered_app, rendered_turn_segments, IH.
Qed.

(** X15: the segments [prepare_chatml_messages] returns spell out the
    ChatML format its docstring gives: the bos token, one
    [<|im_start|>role\ncontent<|im_end|>\n] block per message in order, and
    the opening of an assistant block when a generation prompt is asked
    for. *)
Theorem chatml_spells_the_format conv (stm : gmap string string)
    text_field gen ms :
  prepare_chatml_messages conv stm text_field gen = Ok ms →
  ∃ bos history turns,
    stm !! "bos_token" = Some bos ∧
    conv !! text_field = Some history ∧
    mapM turn_of history = Some turns ∧
    rendered ms = chatml_format bos turns gen.
Proof.
  rewrite prepare_chatml_spec.
  destruct (stm !! "bos_token") as [bos|]; [|done].
  destruct (conv !! text_field) as [history|]; [|done].
  destruct (mapM turn_of history) as [turns|] eqn:Hturns.
  - intros [= <-]. exists bos, history, turns. split_and!; try done.
    unfold chatml_format. cbn [app rendered content].
    rewrite rendered_app, rendered_turns.
    destruct gen; cbn [rendered content]; by rewrite ?append_empty_r.
  - destruct (chatml_loop_raise history [mkPrepared bos false] Hturns)
      as (before & m & after & _ & _ & _ & Hkey). by rewrite Hkey.
Qed.

Lemma mapM_turn_of_renders history :
  is_Some (mapM turn_of history) ↔ Forall chatml_renders history.
Proof.
  rewrite mapM_is_Some. apply Forall_proper; [|done].
  intros m. apply turn_of_renders.
Qed.

(** X16: [prepare_chatml_messages] succeeds exactly when the tokenizer has
    a [bos_token], the conversation has the text field, every message has a
    role and a content, and the content of every assistant message is a
    [str].  A failure is a [KeyError] naming the missing key or a
    [TypeError]; a missing [bos_token] is reported before the conversation
    is looked at; otherwise the first message that cannot be rendered
    decides: [KeyError] on [role] when it has no role, [KeyError] on
    [content] when it has a role and no content, [TypeError] when it is an
    assistant message whose content is not a [str].  When every content is
    a [str], every failure is a [KeyError].  Messages are dicts whose values
    are a [str] or any other object that keeps the default operators. *)
Theorem chatml_outcome conv (stm : gmap string string) text_field gen :
  (is_ok (prepare_chatml_messages conv stm text_field gen) = true ↔
     is_Some (stm !! "bos_token") ∧
     ∃ history, conv !! text_field = Some history ∧
       Forall chatml_renders history) ∧
  (∀ e, prepare_chatml_messages conv stm text_field gen = Raise e →
     (∃ key, e = KeyError key ∧
        (key = "bos_token" ∨ key = text_field ∨
         key = "role" ∨ key = "content")) ∨
     e = TypeError) ∧
  (stm !! "bos_token" = None →
     prepare_chatml_messages conv stm text_field gen
       = Raise (KeyError "bos_token")) ∧
  (∀ before m after,
     is_Some (stm !! "bos_token") →
     conv !! text_field = Some (before ++ m :: after) →
     Forall chatml_renders before →
     (m !! "role" = None →
        prepare_chatml_messages conv stm text_field gen
          = Raise (KeyError "role")) ∧
     (is_Some (m !! "role") → m !! "content" = None →
        prepare_chatml_messages conv stm text_field gen
          = Raise (KeyError "content")) ∧
     (∀ c, m !! "role" = Some (Str "assistant") → m !! "content" = Some c →
           ¬ is_str c →
        prepare_chatml_messages conv stm text_field gen = Raise TypeError)) ∧
  (∀ history e,
     conv !! text_field = Some history →
     Forall (λ m : message, ∀ c, m !! "content" = Some c → is_str c) history →
     prepare_chatml_messages conv stm text_field gen = Raise e →
     ∃ key, e = KeyError key).
Proof.
  split_and!.
  - rewrite prepare_chatml_spec.
    destruct (stm !! "bos_token") as [bos|];
      [|split; [done|by intros [[? ?] _]]].
    destruct (conv !! text_field) as [history|];
      [|split; [done|by intros (_ & ? & ? & _)]].
    destruct (mapM turn_of history) as [turns|] eqn:Hturns.
    + split; [|done]. intros _. split; [eauto|]. exists history.
      split; [done|]. apply mapM_turn_of_renders. eauto.
    + destruct (chatml_loop_raise history [mkPrepared bos false] Hturns)
        as (before & m & after & _ & _ & _ & Hkey). rewrite Hkey.
      split; [done|]. intros (_ & history' & [= <-] & Hall).
      apply mapM_turn_of_renders in Hall as [? ?]. congruence.
  - intros e. rewrite prepare_chatml_spec.
    destruct (stm !! "bos_token") as [bos|]; [|intros [= <-]; left; eauto].
    destruct (conv !! text_field) as [history|];
      [|intros [= <-]; left; eauto 6].
    destruct (mapM turn_of history) as [turns|] eqn:Hturns; [done|].
    destruct (chatml_loop_raise history [mkPrepared bos false] Hturns)
      as (before & m & after & _ & _ & Hm & Hkey). rewrite Hkey.
    intros [= <-].
    destruct (chatml_error_cases m Hm)
      as [[_ ->]|[(_ & _ & ->)|(_ & _ & ->)]]; [left|left|right];
      eauto 8.
  - intros Hbos. by rewrite prepare_chatml_spec, Hbos.
  - intros before m after [bos Hbos] Hconv Hbefore.
    assert (¬ chatml_renders m →
            prepare_chatml_messages conv stm text_field gen
              = Raise (chatml_error m)) as Hfirst.
    { intros Hm. unfold prepare_chatml_messages, getitem.
      rewrite Hbos, Hconv. cbn [result_bind].
      by rewrite chatml_loop_first. }
    split_and!.
    + intros Hr. rewrite Hfirst.
      * unfold chatml_error. by rewrite Hr.
      * intros (r & c & ? & _). congruence.
    + intros [r Hr] Hc. rewrite Hfirst.
      * unfold chatml_error. by rewrite Hr, Hc.
      * intros (r' & c & _ & ? & _). congruence.
    + intros c Hr Hc Hstr. rewrite Hfirst.
      * unfold chatml_error. by rewrite Hr, Hc.
      * intros (r' & c' & Hr' & Hc' & Himp). apply Hstr.
        rewrite Hr in Hr'. rewrite Hc in Hc'.
        injection Hr' as <-. injection Hc' as <-. by apply Himp.
  - intros history e Hconv Hstr. rewrite prepare_chatml_spec, Hconv.
    destruct (stm !! "bos_token") as [bos|]; [|intros [= <-]; eauto].
    destruct (mapM turn_of history) as [turns|] eqn:Hturns; [done|].
    destruct (chatml_loop_raise history [mkPrepared bos false] Hturns)
      as (before & m & after & -> & _ & Hm & Hkey). rewrite Hkey.
    intros [= <-].
    destruct (chatml_error_cases m Hm)
      as [[_ ->]|[(_ & _ & ->)|(_ & (c & Hc & Hnot) & _)]]; [eauto..|].
    destruct Hnot. apply Forall_app in Hstr as [_ Hstr].
    apply Forall_cons in Hstr as [Hstr _]. by apply Hstr.
Qed.

Lemma filter_loss_turn_segments (t : turn) :
  filter (λ seg, require_loss seg = true) (turn_segments t) =
    if decide (t.1 = Str "assistant")
    then [mkPrepared (format t.2 +:+ "<|im_end|>") true] else [].
Proof. unfold turn_segments. by destruct (decide (t.1 = Str "assistant")). Qed.

Lemma filter_loss_turns turns :
  filter (λ seg, require_loss seg = true) (turns ≫= turn_segments) =
  (λ c, mkPrepared (c +:+ "<|im_end|>") true) <$> assistant_replies turns.
Proof.
  unfold assistant_replies.
  induction turns as [|t turns IH]; [done|].
  cbn [mbind list_bind]. rewrite filter_app, filter_loss_turn_segments, IH.
  destruct (decide (t.1 = Str "assistant")) as [Ha|Hna].
  - by rewrite filter_cons_True.
  - by rewrite filter_cons_False.
Qed.

Lemma length_turns_segments turns :
  length (turns ≫= turn_segments) =
  (length turns + 2 * length (assistant_replies turns))%nat.
Proof.
  unfold assistant_replies.
  induction turns as [|t turns IH]; [done|].
  cbn [mbind list_bind]. rewrite length_app, IH. unfold turn_segments.
  destruct (decide (t.1 = Str "assistant")) as [Ha|Hna].
  - rewrite filter_cons_True by done. rewrite !length_fmap.
    cbn [length]. lia.
  - rewrite filter_cons_False by done. rewrite !length_fmap.
    cbn [length]. lia.
Qed.

(** X17: in what [prepare_chatml_messages] returns, the first segment is
    the bos token and carries no loss; the segments that carry loss are
    exactly the replies of the assistant, each followed by [<|im_end|>], in
    conversation order; a generation prompt, when asked for, is the last
    segment and carries no loss; and there are one segment for the bos token,
    one per message, two more per assistant message and one for the
    prompt. *)
Theorem chatml_supervises_replies conv (stm : gmap string string)
    text_field gen ms :
  prepare_chatml_messages conv stm text_field gen = Ok ms →
  ∃ bos history turns,
    stm !! "bos_token" = Some bos ∧
    conv !! text_field = Some history ∧
    mapM turn_of history = Some turns ∧
    head ms = Some (mkPrepared bos false) ∧
    filter (λ seg, require_loss seg = true) ms =
      (λ c, mkPrepared (c +:+ "<|im_end|>") true) <$> assistant_replies turns ∧
    (gen = true →
       last ms = Some (mkPrepared "<|im_start|>assistant
" false)) ∧
    length ms =
      (1 + length turns + 2 * length (assistant_replies turns) +
       (if gen then 1 else 0))%nat.
Proof.
  rewrite prepare_chatml_spec.
  destruct (stm !! "bos_token") as [bos|]; [|done].
  destruct (conv !! text_field) as [history|]; [|done].
  destruct (mapM turn_of history) as [turns|] eqn:Hturns.
  - intros [= <-]. exists bos, history, turns. split_and!; try done.
    + cbn [app]. rewrite filter_cons_False by done.
      rewrite filter_app, filter_loss_turns.
      destruct gen; [|by rewrite filter_nil, app_nil_r].
      by rewrite filter_cons_False, filter_nil, app_nil_r.
    + intros ->. cbn [app]. rewrite app_comm_cons. apply last_snoc.
    + cbn [app length]. rewrite length_app, length_turns_segments.
      destruct gen; simpl; lia.
  - destruct (chatml_loop_raise history [mkPrepared bos false] Hturns)
      as (before & m & after & _ & _ & _ & Hkey). by rewrite Hkey.
Qed.

(** X18: with no template given, a tokenizer of class [Qwen2Tokenizer] or
    [Qwen2TokenizerFast] is served by the ChatML template; any other class is
    refused with a [ValueError] before the conversation is looked at. *)
Theorem preset_template_dispatch conv (tok : Tokenizer) text_field gen :
  (type_name tok = "Qwen2Tokenizer" ∨ type_name tok = "Qwen2TokenizerFast" →
     tokenize_conversation conv tok text_field None gen =
     tokenize_conversation conv tok text_field
                           (Some prepare_chatml_messages) gen) ∧
  (type_name tok ≠ "Qwen2Tokenizer" →
   type_name tok ≠ "Qwen2TokenizerFast" →
     tokenize_conversation conv tok text_field None gen =
     Raise (ValueError ("Tokenizer " +:+ type_name tok +:+
                        " has no preset template. Please provide one."))).
Proof.
  unfold tokenize_conversation, TOKENIZER_PREPARE_TEMPLATE_FN_MAPPING.
  cbn [assoc]. split.
  - intros [-> | ->]; by repeat case_decide.
  - intros H1 H2. rewrite decide_False by done. by rewrite decide_False.
Qed.

Lemma labels_without_loss ms (encs : list BatchEncoding) :
  Forall (λ seg, require_loss seg = false) ms →
  Forall (λ label, label = -100) (conversation_labels (zip ms encs)).
Proof.
  intros Hall. revert encs.
  induction Hall as [|seg ms Hseg _ IH]; intros [|enc encs]; try done.
  unfold conversation_labels in *. cbn [zip zip_with mbind list_bind fst snd].
  apply Forall_app. split; [|apply IH].
  rewrite Hseg. unfold segment_labels. apply Forall_fmap, Forall_forall.
  by intros.
Qed.

Lemma turn_segments_without_loss turns :
  Forall (λ t : turn, t.1 ≠ Str "assistant") turns →
  Forall (λ seg, require_loss seg = false) (turns ≫= turn_segments).
Proof.
  induction 1 as [|t turns Hturn _ IH]; [done|].
  cbn [mbind list_bind]. apply Forall_app. split; [|done].
  unfold turn_segments. rewrite decide_False by done. by repeat constructor.
Qed.

Lemma turns_without_assistant history turns :
  mapM turn_of history = Some turns →
  Forall (λ m : message, m !! "role" ≠ Some (Str "assistant")) history →
  Forall (λ t : turn, t.1 ≠ Str "assistant") turns.
Proof.
  rewrite mapM_Some.
  induction 1 as [|m t history turns Hm _ IH]; [done|].
  intros [Hrole Hroles]%Forall_cons. constructor; [|by apply IH].
  unfold turn_of in Hm. destruct (m !! "role") as [r|]; [|done].
  destruct (m !! "content"); [|done].
  destruct (decide _); [done|]. injection Hm as <-. simpl.
  congruence.
Qed.

(** X19: a conversation without assistant messages gives nothing to train
    on: under the ChatML template every label is -100, the generation prompt
    included. *)
Theorem no_reply_no_supervision conv (tok : Tokenizer) text_field gen
    history ids labels mask :
  conv !! text_field = Some history →
  Forall (λ m : message, m !! "role" ≠ Some (Str "assistant")) history →
  tokenize_conversation conv tok text_field (Some prepare_chatml_messages) gen
    = Ok (ids, labels, mask) →
  Forall (λ label, label = -100) labels.
Proof.
  intros Hconv Hroles. unfold tokenize_conversation. cbn [result_bind].
  rewrite prepare_chatml_spec, Hconv.
  destruct (special_tokens_map tok !! "bos_token") as [bos|]; [|done].
  destruct (mapM turn_of history) as [turns|] eqn:Hturns.
  - cbn [result_bind].
    intros (encs & _ & _ & -> & _)%tokenize_loop. cbn [app].
    apply labels_without_loss. constructor; [done|].
    apply Forall_app. split; [|by destruct gen; repeat constructor].
    apply turn_segments_without_loss. by eapply turns_without_assistant.
  - destruct (chatml_loop_raise history [mkPrepared bos false] Hturns)
      as (before & m & after & _ & _ & _ & Hkey). by rewrite Hkey.
Qed.

Lemma tokenize_loop_cons (tok : Tokenizer) seg ms
    (acc : list Z * list Z * list Z) :
  for_each (tokenize_step tok) (seg :: ms) acc =
    match call tok (content seg) with
    | Ok enc =>
        for_each (tokenize_step tok) ms
          (acc.1.1 ++ input_ids enc,
           acc.1.2 ++ (if require_loss seg then input_ids enc
                       else replicate (length (input_ids enc)) (-100)),
           acc.2 ++ attention_mask enc)
    | Raise e => Raise e
    end.
Proof.
  destruct acc as [[ids labels] mask]. cbn [for_each].
  unfold tokenize_step, result_bind.
  by destruct (call tok (content seg)).
Qed.

Lemma tokenize_loop_outcome (tok : Tokenizer) ms
    (acc : list Z * list Z * list Z) :
  (Forall (λ seg, is_ok (call tok (content seg)) = true) ms →
     is_ok (for_each (tokenize_step tok) ms acc) = true) ∧
  (∀ e, for_each (tokenize_step tok) ms acc = Raise e →
     ∃ i seg, ms !! i = Some seg ∧ call tok (content seg) = Raise e ∧
       Forall (λ seg', is_ok (call tok (content seg')) = true) (take i ms)).
Proof.
  revert acc. induction ms as [|seg ms IH]; intros acc.
  - split; [done|]. by intros e.
  - rewrite tokenize_loop_cons.
    destruct (call tok (content seg)) as [enc|err] eqn:Hcall.
    + split.
      * intros [_ Hall]%Forall_cons. by apply IH.
      * intros e He. apply IH in He as (i & seg' & Hi & Hfail & Hbefore).
        exists (S i), seg'. split_and!; try done.
        cbn [take]. constructor; [by rewrite Hcall|done].
    + split.
      * intros [Hok _]%Forall_cons. by rewrite Hcall in Hok.
      * intros e [= <-]. exists 0%nat, seg. split_and!; done.
Qed.

(** X20: given a template, [tokenize_conversation] fails with the
    template's error when the template fails; otherwise it succeeds exactly
    when the tokenizer accepts every prepared segment, and when it fails the
    error is that of the first segment the tokenizer rejects. *)
Theorem tokenize_conversation_outcome conv (tok : Tokenizer) text_field
    (fn : prepare_fn) gen :
  (∀ e, fn conv (special_tokens_map tok) text_field gen = Raise e →
     tokenize_conversation conv tok text_field (Some fn) gen = Raise e) ∧
  (∀ ms, fn conv (special_tokens_map tok) text_field gen = Ok ms →
     (is_ok (tokenize_conversation conv tok text_field (Some fn) gen) = true ↔
        Forall (λ seg, is_ok (call tok (content seg)) = true) ms) ∧
     (∀ e, tokenize_conversation conv tok text_field (Some fn) gen = Raise e →
        ∃ i seg, ms !! i = Some seg ∧ call tok (content seg) = Raise e ∧
          Forall (λ seg', is_ok (call tok (content seg')) = true)
                 (take i ms))).
Proof.
  unfold tokenize_conversation. cbn [result_bind]. split.
  - by intros e ->.
  - intros ms ->. cbn [result_bind].
    destruct (tokenize_loop_outcome tok ms ([], [], [])) as [Hok Hfail].
    split; [split; [|exact Hok]|exact Hfail].
    intros Hres. apply Forall_forall. intros seg Hseg.
    destruct (call tok (content seg)) as [enc|err] eqn:Hcall; [done|].
    exfalso.
    destruct (for_each (tokenize_step tok) ms ([], [], []))
      as [[[ids labels] mask]|] eqn:Hloop; [|done].
    apply tokenize_loop in Hloop as (encs & Hall & _).
    apply list_elem_of_lookup in Hseg as [i Hi].
    destruct (Forall2_lookup_l _ _ _ _ _ Hall Hi) as (enc & _ & Henc).
    congruence.
Qed.

Lemma for_each_app {A B} (body : B → A → result B) (xs ys : list A)
    (st : B) :
  for_each body (xs ++ ys) st =
    let? st' := for_each body xs st in for_each body ys st'.
Proof.
  revert st. induction xs as [|x xs IH]; intros st; [done|].
  cbn [app for_each]. unfold result_bind at 1 3.
  destruct (body st x) as [st'|]; [apply IH|done].
Qed.

Lemma mapM_turn_of_app history more turns turns' :
  mapM turn_of history = Some turns →
  mapM turn_of more = Some turns' →
  mapM turn_of (history ++ more) = Some (turns ++ turns').
Proof. rewrite !mapM_Some. apply Forall2_app. Qed.

(** X21: under the ChatML template a conversation that grows keeps what
    was prepared for it: the segments prepared for a history followed by more
    messages are the segments prepared for the history followed by the
    segments of the further messages, the bos token not repeated. *)
Theorem chatml_grows_with_the_history conv (stm : gmap string string)
    text_field history more ms more_ms bos :
  conv !! text_field = Some history →
  prepare_chatml_messages conv stm text_field false = Ok ms →
  prepare_chatml_messages (<[text_field := more]> conv) stm text_field false
    = Ok (mkPrepared bos false :: more_ms) →
  prepare_chatml_messages (<[text_field := history ++ more]> conv) stm
                          text_field false
    = Ok (ms ++ more_ms).
Proof.
  intros Hconv. rewrite !prepare_chatml_spec, Hconv, !lookup_insert_eq.
  destruct (stm !! "bos_token") as [bos'|]; [|done].
  destruct (mapM turn_of history) as [turns|] eqn:Hturns.
  - intros [= <-].
    destruct (mapM turn_of more) as [turns'|] eqn:Hmore.
    + intros [= <- <-].
      rewrite (mapM_turn_of_app _ _ _ _ Hturns Hmore).
      rewrite !app_nil_r. cbn [app]. f_equal. f_equal.
      by rewrite bind_app.
    + destruct (chatml_loop_raise more [mkPrepared bos' false] Hmore)
        as (before & m & after & _ & _ & _ & Hkey). by rewrite Hkey.
  - destruct (chatml_loop_raise history [mkPrepared bos' false] Hturns)
      as (before & m & after & _ & _ & _ & Hkey). by rewrite Hkey.
Qed.

(** X22: asking for a generation prompt only appends to the tokenised
    conversation: under the ChatML template the result with the prompt is the
    result without it, followed by the token ids and the mask of
    [<|im_start|>assistant\n] and by as many labels -100. *)
Theorem generation_prompt_appends conv (tok : Tokenizer) text_field
    ids labels mask enc :
  tokenize_conversation conv tok text_field (Some prepare_chatml_messages)
                        false = Ok (ids, labels, mask) →
  call tok "<|im_start|>assistant
" = Ok enc →
  tokenize_conversation conv tok text_field (Some prepare_chatml_messages)
                        true
    = Ok (ids ++ input_ids enc,
          labels ++ replicate (length (input_ids enc)) (-100),
          mask ++ attention_mask enc).
Proof.
  unfold tokenize_conversation. cbn [result_bind].
  rewrite !prepare_chatml_spec.
  destruct (special_tokens_map tok !! "bos_token") as [bos|]; [|done].
  destruct (conv !! text_field) as [history|]; [|done].
  destruct (mapM turn_of history) as [turns|] eqn:Hturns.
  - cbn [result_bind]. rewrite app_nil_r. intros Hloop Hcall.
    rewrite app_assoc, for_each_app, Hloop. cbn [result_bind for_each].
    unfold tokenize_step, result_bind. cbn [content require_loss].
    by rewrite Hcall.
  - destruct (chatml_loop_raise history [mkPrepared bos false] Hturns)
      as (before & m & after & _ & _ & _ & Hkey). by rewrite Hkey.
Qed.

(** *** On a concrete conversation *)

Import Scenario ScenarioMore.

Lemma chatml_spells_the_format_witness :
  ∃ bos history turns,
    special_tokens_map char_tokenizer !! "bos_token" = Some bos ∧
    short_chat !! "history" = Some history ∧
    mapM turn_of history = Some turns ∧
    rendered short_chat_segments = chatml_format bos turns false.
Proof.
  apply (chatml_spells_the_format short_chat
           (special_tokens_map char_tokenizer) "history" false).
  by_evaluation.
Defined.

Example short_chat_text :
  rendered short_chat_segments =
  "#<|im_start|>user
hi<|im_end|>
<|im_start|>assistant
yo<|im_end|>
".
Proof. by_evaluation. Qed.

Lemma chatml_outcome_witness :
  prepare_chatml_messages unanswered (special_tokens_map char_tokenizer)
                          "history" false
  = Raise TypeError.
Proof.
  apply (proj2 (proj2 (proj1 (proj2 (proj2 (proj2
           (chatml_outcome unanswered (special_tokens_map char_tokenizer)
                           "history" false))))
         [ {[ "role" := Str "user"; "content" := Str "hi" ]} ]
         {[ "role" := Str "assistant"; "content" := py_None ]}
         []
         ltac:(by exists "#")
         ltac:(by_evaluation)
         ltac:(repeat constructor;
               exists (Str "user"), (Str "hi"); by split_and!))) py_None).
  - by_evaluation.
  - by_evaluation.
  - by intros [].
Defined.

Example missing_bos_token_comes_first :
  prepare_chatml_messages unanswered ∅ "history" false
  = Raise (KeyError "bos_token").
Proof. by_evaluation. Qed.

Lemma chatml_supervises_replies_witness :
  ∃ bos history turns,
    special_tokens_map char_tokenizer !! "bos_token" = Some bos ∧
    short_chat !! "history" = Some history ∧
    mapM turn_of history = Some turns ∧
    head short_chat_segments = Some (mkPrepared bos false) ∧
    filter (λ seg, require_loss seg = true) short_chat_segments =
      (λ c, mkPrepared (c +:+ "<|im_end|>") true) <$> assistant_replies turns ∧
    (false = true →
       last short_chat_segments = Some (mkPrepared "<|im_start|>assistant
" false)) ∧
    length short_chat_segments =
      (1 + length turns + 2 * length (assistant_replies turns) + 0)%nat.
Proof.
  apply (chatml_supervises_replies short_chat
           (special_tokens_map char_tokenizer) "history" false).
  by_evaluation.
Defined.

Lemma preset_template_dispatch_witness :
  tokenize_conversation short_chat char_tokenizer "history" None true =
  tokenize_conversation short_chat char_tokenizer "history"
                        (Some prepare_chatml_messages) true.
Proof.
  apply (proj1 (preset_template_dispatch short_chat char_tokenizer
                  "history" true)).
  left. reflexivity.
Defined.

Lemma no_reply_no_supervision_witness :
  let r := tokenize_conversation open_question char_tokenizer "history"
             (Some prepare_chatml_messages) true in
  let out := match r with Ok o => o | Raise _ => ([], [], []) end in
  r = Ok out ∧ Forall (λ label, label = -100) out.1.2.
Proof.
  intros r out.
  assert (r = Ok (out.1.1, out.1.2, out.2)) as Hr by by_evaluation.
  split; [by_evaluation|].
  apply (no_reply_no_supervision open_question char_tokenizer "history" true
           [ {[ "role" := Str "system"; "content" := Str "be brief" ]};
             {[ "role" := Str "user"; "content" := Str "hi" ]} ]
           out.1.1 out.1.2 out.2).
  - by_evaluation.
  - repeat constructor; by vm_compute.
  - exact Hr.
Defined.

Lemma tokenize_conversation_outcome_witness :
  is_ok (tokenize_conversation short_chat char_tokenizer "history"
           (Some prepare_chatml_messages) false) = true.
Proof.
  apply (proj1 (proj2 (tokenize_conversation_outcome short_chat
                         char_tokenizer "history" prepare_chatml_messages
                         false) short_chat_segments
                 ltac:(by_evaluation))).
  apply Forall_forall. by intros seg _.
Defined.

Lemma chatml_grows_with_the_history_witness :
  let more : list message :=
    [ {[ "role" := Str "user"; "content" := Str "ok" ]} ] in
  prepare_chatml_messages
    (<["history" :=
         [ {[ "role" := Str "user"; "content" := Str "hi" ]};
           {[ "role" := Str "assistant"; "content" := Str "yo" ]} ] ++ more]>
       short_chat)
    (special_tokens_map char_tokenizer) "history" false
  = Ok (short_chat_segments ++
        [ mkPrepared "<|im_start|>user
ok<|im_end|>
" false ]).
Proof.
  intros more.
  apply (chatml_grows_with_the_history short_chat
           (special_tokens_map char_tokenizer) "history"
           [ {[ "role" := Str "user"; "content" := Str "hi" ]};
             {[ "role" := Str "assistant"; "content" := Str "yo" ]} ]
           more short_chat_segments _ "#"); by_evaluation.
Defined.

Lemma generation_prompt_appends_witness :
  let r := tokenize_conversation short_chat char_tokenizer "history"
             (Some prepare_chatml_messages) false in
  let out := match r with Ok o => o | Raise _ => ([], [], []) end in
  let prompt := char_codes "<|im_start|>assistant
" in
  tokenize_conversation short_chat char_tokenizer "history"
                        (Some prepare_chatml_messages) true
  = Ok (out.1.1 ++ prompt,
        out.1.2 ++ replicate (length prompt) (-100),
        out.2 ++ ((λ _, 1) <$> prompt)).
Proof.
  intros r out prompt.
  apply (generation_prompt_appends short_chat char_tokenizer "history"
           out.1.1 out.1.2 out.2
           {| input_ids := prompt;
              attention_mask := (λ _, 1) <$> prompt |}).
  - by_evaluation.
  - reflexivity.
Defined.

End TemplateMoreFacts.

(** ** The MOSS template *)

Module MossFacts.
Import Template TemplateFacts Moss.

Section MossMessages.
Context `{Json}.

Implicit Types (m : message) (history : list message).
Implicit Types (acc : list prepared) (first : bool).

Lemma end_token_known (r : object) :
  is_ok (end_token r) = true ↔
  r ∈ Str <$> ["user"; "system"; "assistant"; "func_call"; "func_ret";
               "thought"; "image"; "audio"; "video"; "moss"].
Proof.
  cbn [fmap list_fmap]. rewrite !elem_of_cons, elem_of_nil.
  destruct r as [k|shown hashable dumped].
  - unfold end_token, end_token_dict. cbn [assoc].
    repeat (destruct (decide (_ = k)) as [<-|?];
            [split; [intros _; tauto|done]|]).
    split; [done|]. intros Hr. exfalso.
    repeat (destruct Hr as [Hr|Hr]; [congruence|]). done.
  - cbn [end_token]. split; [by destruct hashable|].
    intros Hr. exfalso.
    repeat (destruct Hr as [Hr|Hr]; [congruence|]). done.
Qed.

Lemma end_token_error (r : object) e :
  end_token r = Raise e → (∃ key, e = KeyError key) ∨ e = TypeError.
Proof.
  destruct r as [k|shown [] dumped]; cbn [end_token].
  - destruct (assoc k end_token_dict); intros [= <-]; eauto.
  - intros [= <-]; eauto.
  - intros [= <-]; eauto.
Qed.

Lemma moss_step_ok acc first m :
  is_ok (moss_step (acc, first) m) = true ↔ moss_well_formed m.
Proof.
  pose proof (end_token_known) as Hknown.
  unfold moss_step, moss_well_formed, getitem, result_bind, other_known_role.
  destruct (m !! "role") as [r|]; [|done].
  destruct (decide (r = Str "user")) as [->|Hu].
  { destruct (m !! "content"); [by destruct first; split; eauto|].
    split; [done|by intros [? ?]]. }
  destruct (decide (r = Str "assistant")) as [->|Ha].
  { destruct (m !! "content") as [[c|shown hashable dumped]|];
      cbn [add_str is_ok].
    - split; [|done]. intros _. by exists (Str c).
    - split; [done|]. by intros (c & [= <-] & []).
    - split; [done|]. by intros (c & ? & _). }
  destruct (decide (r = Str "func_call")) as [->|Hc].
  { destruct (m !! "func_call") as [v|];
      [|split; [done|by intros (? & ? & _)]].
    destruct (json_dumps v) as [text|err] eqn:Hd; cbn [is_ok].
    - split; [|done]. intros _. exists v. by rewrite Hd.
    - split; [done|]. intros (v' & [= <-] & Hok). by rewrite Hd in Hok. }
  destruct (decide (r = Str "func_ret")) as [->|Hr].
  { destruct (m !! "func_ret") as [v|];
      [|split; [done|by intros (? & ? & _)]].
    destruct (json_dumps v) as [text|err] eqn:Hd; cbn [is_ok].
    - split; [|done]. intros _. exists v. by rewrite Hd.
    - split; [done|]. intros (v' & [= <-] & Hok). by rewrite Hd in Hok. }
  destruct (m !! "content") as [c|];
    [|split; [done|by intros [[? ?] _]]].
  specialize (Hknown r). cbn [fmap list_fmap] in *.
  destruct (end_token r) as [tok|]; cbn [is_ok] in *.
  - split; [|done]. intros _. split; [eauto|].
    destruct Hknown as [Hk _]. specialize (Hk eq_refl).
    repeat (apply elem_of_cons in Hk as [->|Hk];
            [first [done | by repeat constructor]|]).
    by apply elem_of_nil in Hk.
  - split; [done|]. intros [_ Hr']. apply Hknown.
    repeat (apply elem_of_cons in Hr' as [->|Hr'];
            [by repeat constructor|]).
    by apply elem_of_nil in Hr'.
Qed.

(** What a step can raise. *)
Lemma moss_step_error acc first m e :
  moss_step (acc, first) m = Raise e →
  (∃ key, e = KeyError key) ∨ e = TypeError ∨
  (∃ v, (has_role "func_call" m ∧ m !! "func_call" = Some v ∨
         has_role "func_ret" m ∧ m !! "func_ret" = Some v) ∧
        json_dumps v = Raise e).
Proof.
  unfold moss_step, getitem, result_bind, has_role.
  destruct (m !! "role") as [r|]; [|intros [= <-]; eauto].
  destruct (decide (r = Str "user"));
    [destruct (m !! "content"), first; intros [= <-]; eauto|].
  destruct (decide (r = Str "assistant")).
  { destruct (m !! "content") as [[c|shown hashable dumped]|];
      cbn [add_str]; intros [= <-]; eauto. }
  destruct (decide (r = Str "func_call")) as [->|].
  { destruct (m !! "func_call") as [v|]; [|intros [= <-]; eauto].
    destruct (json_dumps v) as [text|err] eqn:Hd; [done|].
    intros [= <-]. right; right. exists v. split; [|done]. by left. }
  destruct (decide (r = Str "func_ret")) as [->|].
  { destruct (m !! "func_ret") as [v|]; [|intros [= <-]; eauto].
    destruct (json_dumps v) as [text|err] eqn:Hd; [done|].
    intros [= <-]. right; right. exists v. split; [|done]. by right. }
  destruct (m !! "content"); [|intros [= <-]; eauto].
  destruct (end_token r) as [tok|err] eqn:Htok; [done|].
  intros [= <-]. apply end_token_error in Htok. tauto.
Qed.

(** On plain data a step raises nothing but a [KeyError]. *)
Lemma moss_step_error_plain acc first m e :
  moss_plain m →
  moss_step (acc, first) m = Raise e → ∃ key, e = KeyError key.
Proof.
  intros (Hrole & Hreply & Hcall & Hret).
  unfold moss_step, getitem, result_bind.
  unfold has_role in Hreply.
  destruct (m !! "role") as [r|]; [|intros [= <-]; eauto].
  specialize (Hrole r eq_refl).
  destruct (decide (r = Str "user"));
    [destruct (m !! "content"), first; intros [= <-]; eauto|].
  destruct (decide (r = Str "assistant")) as [->|].
  { destruct (m !! "content") as [c|]; [|intros [= <-]; eauto].
    specialize (Hreply c eq_refl eq_refl). by destruct c. }
  destruct (decide (r = Str "func_call")).
  { destruct (m !! "func_call") as [v|]; [|intros [= <-]; eauto].
    specialize (Hcall v eq_refl). by destruct (json_dumps v). }
  destruct (decide (r = Str "func_ret")).
  { destruct (m !! "func_ret") as [v|]; [|intros [= <-]; eauto].
    specialize (Hret v eq_refl). by destruct (json_dumps v). }
  destruct (m !! "content"); [|intros [= <-]; eauto].
  destruct r as [k|]; [|done]. cbn [end_token].
  destruct (assoc k end_token_dict); intros [= <-]; eauto.
Qed.

(** A reply of the assistant that is no [str] is a [TypeError]. *)
Lemma moss_step_reply (state : list prepared * bool) m c :
  has_role "assistant" m → m !! "content" = Some c → ¬ is_str c →
  moss_step state m = Raise TypeError.
Proof.
  unfold has_role. intros Hr Hc Hstr. destruct state as [acc first].
  unfold moss_step, getitem, result_bind. rewrite Hr, Hc.
  rewrite decide_False by done. rewrite decide_True by done.
  destruct c; [by destruct Hstr|done].
Qed.

(** What [json.dumps] raises on the value of a function call is what the
    step raises. *)
Lemma moss_step_dumps (state : list prepared * bool) m v e :
  has_role "func_call" m → m !! "func_call" = Some v →
  json_dumps v = Raise e →
  moss_step state m = Raise e.
Proof.
  unfold has_role. intros Hr Hv Hd. destruct state as [acc first].
  unfold moss_step, getitem, result_bind. rewrite Hr, Hv, Hd.
  rewrite decide_False by done. rewrite decide_False by done.
  by rewrite decide_True by done.
Qed.

Lemma moss_step_dumps_ret (state : list prepared * bool) m v e :
  has_role "func_ret" m → m !! "func_ret" = Some v →
  json_dumps v = Raise e →
  moss_step state m = Raise e.
Proof.
  unfold has_role. intros Hr Hv Hd. destruct state as [acc first].
  unfold moss_step, getitem, result_bind. rewrite Hr, Hv, Hd.
  rewrite decide_False by done. rewrite decide_False by done.
  rewrite decide_False by done. by rewrite decide_True by done.
Qed.

Lemma bool_of_role (b : bool) (r : object) (x : string) :
  (b = true ↔ Some r = Some (Str x)) → b = bool_decide (r = Str x).
Proof.
  intros Hb. destruct b; symmetry.
  - apply bool_decide_eq_true. by injection (proj1 Hb eq_refl).
  - apply bool_decide_eq_false. intros ->. by pose proof (proj2 Hb eq_refl).
Qed.

(** The segments with loss one step adds. *)
Lemma moss_step_adds acc first m acc' first' :
  moss_step (acc, first) m = Ok (acc', first') →
  ∃ segs,
    acc' = acc ++ segs ∧
    first' = first && negb (bool_decide (has_role "user" m)) ∧
    length (filter (λ seg, require_loss seg = true) segs) =
      ((if bool_decide (has_role "assistant" m) then 1 else 0) +
       (if bool_decide (has_role "func_call" m) then 1 else 0) +
       (if bool_decide (has_role "user" m) && negb first
        then 1 else 0))%nat.
Proof.
  set (ua := bool_decide (has_role "user" m)).
  set (aa := bool_decide (has_role "assistant" m)).
  set (ca := bool_decide (has_role "func_call" m)).
  assert (ua = true ↔ m !! "role" = Some (Str "user")) as Hua
    by apply bool_decide_eq_true.
  assert (aa = true ↔ m !! "role" = Some (Str "assistant")) as Haa
    by apply bool_decide_eq_true.
  assert (ca = true ↔ m !! "role" = Some (Str "func_call")) as Hca
    by apply bool_decide_eq_true.
  clearbody ua aa ca.
  unfold moss_step, getitem, result_bind.
  destruct (m !! "role") as [r|]; [|done].
  apply bool_of_role in Hua as ->. apply bool_of_role in Haa as ->.
  apply bool_of_role in Hca as ->.
  destruct (decide (r = Str "user")) as [->|Hu].
  { destruct (m !! "content") as [c|]; [|done].
    destruct first; intros [= <- <-].
    - eexists. split; [done|]. by split.
    - rewrite <-app_assoc. eexists. split; [done|]. by split. }
  rewrite (bool_decide_eq_false_2 (r = Str "user")) by done.
  destruct (decide (r = Str "assistant")) as [->|Ha].
  { destruct (m !! "content") as [c|]; [|done].
    destruct (add_str c "<|end_of_assistant|>") as [reply|]; [|done].
    intros [= <- <-]. rewrite <-!app_assoc.
    eexists. split; [done|]. split; [by rewrite andb_true_r|done]. }
  rewrite (bool_decide_eq_false_2 (r = Str "assistant")) by done.
  destruct (decide (r = Str "func_call")) as [->|Hc].
  { destruct (m !! "func_call") as [fc|]; [|done].
    destruct (json_dumps fc) as [text|]; [|done].
    intros [= <- <-]. rewrite <-!app_assoc.
    eexists. split; [done|]. split; [by rewrite andb_true_r|done]. }
  rewrite (bool_decide_eq_false_2 (r = Str "func_call")) by done.
  destruct (decide (r = Str "func_ret")) as [->|Hr].
  { destruct (m !! "func_ret") as [fr|]; [|done].
    destruct (json_dumps fr) as [text|]; [|done].
    intros [= <- <-].
    eexists. split; [done|]. split; [by rewrite andb_true_r|done]. }
  destruct (m !! "content") as [c|]; [|done].
  destruct (end_token r) as [tok|]; [|done].
  intros [= <- <-].
  eexists. split; [done|]. split; [by rewrite andb_true_r|done].
Qed.

Lemma filter_cons_length {A} (P : A → Prop) `{!∀ x, Decision (P x)}
    (x : A) (l : list A) :
  length (filter P (x :: l)) =
  ((if bool_decide (P x) then 1 else 0) + length (filter P l))%nat.
Proof.
  case_bool_decide.
  - by rewrite filter_cons_True.
  - by rewrite filter_cons_False.
Qed.

Lemma moss_loop_adds history acc first acc' first' :
  for_each moss_step history (acc, first) = Ok (acc', first') →
  ∃ body,
    acc' = acc ++ body ∧
    (history = [] → body = []) ∧
    length (filter (λ seg, require_loss seg = true) body) =
      (length (filter (has_role "assistant") history) +
       length (filter (has_role "func_call") history) +
       (if first then pred (length (filter (has_role "user") history))
        else length (filter (has_role "user") history)))%nat.
Proof.
  revert acc first. induction history as [|m history IH];
    intros acc first.
  - intros [= <- <-]. exists []. rewrite app_nil_r.
    split_and!; try done. by destruct first.
  - cbn [for_each]. unfold result_bind at 1.
    destruct (moss_step (acc, first) m) as [[acc1 first1]|] eqn:Hstep;
      [|done].
    apply moss_step_adds in Hstep as (segs & -> & -> & Hsegs).
    intros (body & -> & _ & Hbody)%IH.
    exists (segs ++ body). rewrite <-app_assoc.
    split_and!; [done|done|].
    rewrite filter_app, length_app, Hsegs, Hbody, !filter_cons_length.
    destruct (bool_decide (has_role "user" m)), first,
      (bool_decide (has_role "assistant" m)),
      (bool_decide (has_role "func_call" m)); simpl; lia.
Qed.

Lemma moss_loop_ok history (state : list prepared * bool) :
  is_ok (for_each moss_step history state) = true ↔
  Forall moss_well_formed history.
Proof.
  revert state. induction history as [|m history IH];
    intros [acc first]; [done|].
  cbn [for_each]. unfold result_bind at 1. rewrite Forall_cons.
  pose proof (moss_step_ok acc first m) as Hstep.
  destruct (moss_step (acc, first) m) as [state'|]; cbn [is_ok] in *.
  - rewrite IH. tauto.
  - split; [done|]. intros [Hwf _]. by apply Hstep in Hwf.
Qed.

(** The loop raises what the step raises on one of the messages. *)
Lemma moss_loop_error history (state : list prepared * bool) e :
  for_each moss_step history state = Raise e →
  ∃ m state', m ∈ history ∧ moss_step state' m = Raise e.
Proof.
  revert state. induction history as [|m history IH];
    intros [acc first]; [done|].
  cbn [for_each]. unfold result_bind at 1.
  destruct (moss_step (acc, first) m) as [state'|] eqn:Hstep.
  - intros (m' & st & Hin & Hst)%IH. exists m', st.
    split; [by right|done].
  - intros [= <-]. exists m, (acc, first). split; [by left|done].
Qed.

(** The loop stops at the first message whose step raises. *)
Lemma moss_loop_first history m after (state : list prepared * bool) e :
  Forall moss_well_formed history →
  (∀ state', moss_step state' m = Raise e) →
  for_each moss_step (history ++ m :: after) state = Raise e.
Proof.
  intros Hall Hm. revert state.
  induction Hall as [|m' history Hm' _ IH]; intros [acc first];
    cbn [app for_each].
  - by rewrite Hm.
  - apply (moss_step_ok acc first) in Hm'.
    destruct (moss_step (acc, first) m') as [state'|]; [|done].
    cbn [result_bind]. apply IH.
Qed.

(** X23: [prepare_moss_messages] succeeds exactly when the tokenizer has a
    [bos_token], the conversation has the text field and every message has a
    role and what the branch of that role reads, in a form the branch can
    use: a content for a user message, a content that is a [str] for an
    assistant message, a [func_call] or [func_ret] value that [json.dumps]
    serialises for a function message, and for any other role a content and
    a role [end_token_dict] knows.  A failure is a [KeyError], a [TypeError]
    or what [json.dumps] has raised on the value of a function message.  On
    plain data (every role and every reply a [str], every function value
    serialisable) every failure is a [KeyError]; a reply that is no [str]
    in the first message that is not well formed gives a [TypeError], and a
    function call or return [json.dumps] refuses there gives the error of
    [json.dumps].  Messages are dicts whose values are a [str] or any other
    object that keeps the default operators. *)
Theorem moss_outcome conv (stm : gmap string string) text_field gen :
  (is_ok (prepare_moss_messages conv stm text_field gen) = true ↔
     is_Some (stm !! "bos_token") ∧
     ∃ history, conv !! text_field = Some history ∧
                Forall moss_well_formed history) ∧
  (∀ e, prepare_moss_messages conv stm text_field gen = Raise e →
     (∃ key, e = KeyError key) ∨ e = TypeError ∨
     ∃ history m v,
       conv !! text_field = Some history ∧ m ∈ history ∧
       (has_role "func_call" m ∧ m !! "func_call" = Some v ∨
        has_role "func_ret" m ∧ m !! "func_ret" = Some v) ∧
       json_dumps v = Raise e) ∧
  (∀ history e,
     conv !! text_field = Some history → Forall moss_plain history →
     prepare_moss_messages conv stm text_field gen = Raise e →
     ∃ key, e = KeyError key) ∧
  (∀ before m after,
     is_Some (stm !! "bos_token") →
     conv !! text_field = Some (before ++ m :: after) →
     Forall moss_well_formed before →
     (∀ c, has_role "assistant" m → m !! "content" = Some c → ¬ is_str c →
        prepare_moss_messages conv stm text_field gen = Raise TypeError) ∧
     (∀ v e, has_role "func_call" m → m !! "func_call" = Some v →
        json_dumps v = Raise e →
        prepare_moss_messages conv stm text_field gen = Raise e) ∧
     (∀ v e, has_role "func_ret" m → m !! "func_ret" = Some v →
        json_dumps v = Raise e →
        prepare_moss_messages conv stm text_field gen = Raise e)).
Proof.
  split_and!.
  - unfold prepare_moss_messages, getitem. unfold result_bind at 1.
    destruct (stm !! "bos_token") as [bos|]; cbn [is_ok];
      [|split; [done|by intros [[? ?] _]]].
    unfold result_bind at 1.
    destruct (conv !! text_field) as [history|]; cbn [is_ok];
      [|split; [done|by intros (_ & ? & ? & _)]].
    pose proof (moss_loop_ok history ([] ++ [mkPrepared bos false], true))
      as Hok.
    unfold result_bind.
    destruct (for_each moss_step history _) as [state|err];
      cbn [is_ok] in *.
    + split; [|by destruct gen]. intros _. split; [eauto|].
      exists history. split; [done|]. by apply Hok.
    + split; [done|]. intros (_ & history' & [= <-] & Hwf). by apply Hok.
  - intros e. unfold prepare_moss_messages, getitem.
    unfold result_bind at 1.
    destruct (stm !! "bos_token") as [bos|]; [|intros [= <-]; eauto].
    unfold result_bind at 1.
    destruct (conv !! text_field) as [history|]; [|intros [= <-]; eauto].
    unfold result_bind.
    destruct (for_each moss_step history _) as [state|err] eqn:Hloop;
      [by destruct gen|].
    intros [= <-].
    apply moss_loop_error in Hloop as (m & [acc first] & Hin & Hstep).
    apply moss_step_error in Hstep as [?|[?|(v & Hv & Hd)]]; [tauto..|].
    right; right. by exists history, m, v.
  - intros history e Hconv Hplain. unfold prepare_moss_messages, getitem.
    unfold result_bind at 1.
    destruct (stm !! "bos_token") as [bos|]; [|intros [= <-]; eauto].
    rewrite Hconv. cbn [result_bind]. unfold result_bind.
    destruct (for_each moss_step history _) as [state|err] eqn:Hloop;
      [by destruct gen|].
    intros [= <-].
    apply moss_loop_error in Hloop as (m & [acc first] & Hin & Hstep).
    eapply moss_step_error_plain; [|exact Hstep].
    rewrite Forall_forall in Hplain. by apply Hplain.
  - intros before m after [bos Hbos] Hconv Hbefore.
    assert (∀ e, (∀ state', moss_step state' m = Raise e) →
                 prepare_moss_messages conv stm text_field gen = Raise e)
      as Hfirst.
    { intros e He. unfold prepare_moss_messages, getitem.
      rewrite Hbos, Hconv. cbn [result_bind].
      by rewrite (moss_loop_first before m after _ e). }
    split_and!.
    + intros c Hr Hc Hstr. apply Hfirst. intros state'.
      by eapply moss_step_reply.
    + intros v e Hr Hv Hd. apply Hfirst. intros state'.
      by eapply moss_step_dumps.
    + intros v e Hr Hv Hd. apply Hfirst. intros state'.
      by eapply moss_step_dumps_ret.
Qed.

(** X24: what [prepare_moss_messages] returns opens with the bos token
    without loss and closes with the marker [<|end_of_moss|>\n] with loss,
    followed only by the generation prompt when one is asked for; an empty
    history gives just these.  In between, the segments with loss number one
    per assistant message, one per function call and one before every user
    message but the first. *)
Theorem moss_structure conv (stm : gmap string string) text_field gen ms :
  prepare_moss_messages conv stm text_field gen = Ok ms →
  ∃ bos history body,
    stm !! "bos_token" = Some bos ∧
    conv !! text_field = Some history ∧
    ms = [mkPrepared bos false] ++ body ++
         [mkPrepared "<|end_of_moss|>
" true] ++
         (if gen then [mkPrepared "<|im_start|>assistant
" false] else []) ∧
    (history = [] → body = []) ∧
    length (filter (λ seg, require_loss seg = true) body)
      = loss_segments history.
Proof.
  unfold prepare_moss_messages, getitem. unfold result_bind at 1.
  destruct (stm !! "bos_token") as [bos|]; [|done].
  unfold result_bind at 1.
  destruct (conv !! text_field) as [history|]; [|done].
  unfold result_bind.
  destruct (for_each moss_step history _) as [[acc' first']|] eqn:Hloop;
    [|done].
  apply moss_loop_adds in Hloop as (body & -> & Hempty & Hcount).
  intros Hms. exists bos, history, body. split_and!; try done.
  destruct gen; injection Hms as <-; cbn [fst app];
    by rewrite <-?app_assoc.
Qed.

End MossMessages.

(** *** On a concrete conversation *)

Import ScenarioMore.

Lemma moss_outcome_witness :
  @prepare_moss_messages text_json
    {[ "history" :=
         tool_history ++
         [ {[ "role" := Str "func_call"; "func_call" := py_set_2 ]} ] ]}
    (<["bos_token" := "#"]> ∅) "history" false
  = Raise TypeError.
Proof.
  apply (proj1 (proj2 (proj2 (proj2 (proj2
           (@moss_outcome text_json
              {[ "history" :=
                   tool_history ++
                   [ {[ "role" := Str "func_call";
                        "func_call" := py_set_2 ]} ] ]}
              (<["bos_token" := "#"]> ∅) "history" false)))
         tool_history
         {[ "role" := Str "func_call"; "func_call" := py_set_2 ]}
         []
         ltac:(by exists "#")
         ltac:(by_evaluation)
         ltac:(unfold tool_history;
               repeat (apply Forall_cons; split;
                       [vm_compute;
                        first [by eauto | by eexists; split; [reflexivity|]]|]);
               apply Forall_nil_2))) py_set_2 TypeError).
  - unfold has_role. by_evaluation.
  - by_evaluation.
  - reflexivity.
Defined.

Example tool_chat_is_prepared :
  @prepare_moss_messages text_json tool_chat (<["bos_token" := "#"]> ∅)
                         "history" false
  = Ok tool_chat_segments.
Proof. by_evaluation. Qed.

Lemma moss_structure_witness :
  ∃ bos history body,
    (<["bos_token" := "#"]> ∅ : gmap string string) !! "bos_token"
      = Some bos ∧
    tool_chat !! "history" = Some history ∧
    tool_chat_segments =
      [mkPrepared bos false] ++ body ++
      [mkPrepared "<|end_of_moss|>
" true] ++ [] ∧
    (history = [] → body = []) ∧
    length (filter (λ seg, require_loss seg = true) body)
      = loss_segments history.
Proof.
  apply (@moss_structure text_json tool_chat (<["bos_token" := "#"]> ∅)
           "history" false tool_chat_segments).
  by_evaluation.
Defined.

Example unknown_role_is_a_key_error :
  @prepare_moss_messages text_json
    {[ "history" := [ {[ "role" := Str "tool"; "content" := Str "x" ]} ] ]}
    (<["bos_token" := "#"]> ∅) "history" false
  = Raise (KeyError "tool").
Proof. by_evaluation. Qed.

Example unhashable_role_is_a_type_error :
  @prepare_moss_messages text_json
    {[ "history" := [ {[ "role" := py_list_2_2; "content" := Str "x" ]} ] ]}
    (<["bos_token" := "#"]> ∅) "history" false
  = Raise TypeError.
Proof. by_evaluation. Qed.

End MossFacts.

(** ** The language-model loss *)

Module LossFacts.
Import Loss.

Section ShiftFacts.
Context {Row Scalar : Type}.

Implicit Types (logits : list (list Row)) (labels : list (list Z)).




End ShiftFacts.


End LossFacts.

(** ** Construction of the parallel linear layers *)

Module LinearFacts.
Import Linear.

Section NewFacts.
Context `{Torch}.

Implicit Types (kwargs : gmap string arg) (args : list arg).

Lemma pick_lookup key kwargs (acc : gmap string arg) k :
  pick key kwargs acc !! k =
    if decide (k = key) then
      match kwargs !! key with Some v => Some v | None => acc !! key end
    else acc !! k.
Proof.
  unfold pick. destruct (decide (k = key)) as [->|Hne].
  - destruct (kwargs !! key); [by rewrite lookup_insert_eq|done].
  - destruct (kwargs !! key); [by rewrite lookup_insert_ne|done].
Qed.

Lemma naive_kwargs_lookup kwargs k :
  naive_kwargs kwargs !! k =
    if decide (k ∈ ["output_size"; "input_size"; "bias"])
    then kwargs !! k else None.
Proof.
  unfold naive_kwargs. rewrite !pick_lookup, !lookup_empty.
  destruct (decide (k ∈ ["output_size"; "input_size"; "bias"]))
    as [Hin|Hnin].
  - repeat (apply elem_of_cons in Hin as [->|Hin]);
      [..|by apply elem_of_nil in Hin];
      repeat (destruct (decide (_ = _)) as [?|?]; try done);
      by destruct (kwargs !! _).
  - repeat (destruct (decide (k = _)) as [->|?];
            [exfalso; apply Hnin; by repeat constructor|]).
    done.
Qed.

Lemma naive_kwargs_other kwargs k :
  k ∉ ["output_size"; "input_size"; "bias"] → naive_kwargs kwargs !! k = None.
Proof. intros Hk. rewrite naive_kwargs_lookup. by rewrite decide_False. Qed.

Local Ltac not_handed_on :=
  let Hin := fresh in
  intros Hin;
  repeat (apply elem_of_cons in Hin as [?|Hin]; [done|]);
  by apply elem_of_nil in Hin.

Lemma naive_kwargs_ext kwargs kwargs' :
  (∀ k, k ∈ ["output_size"; "input_size"; "bias"] →
        kwargs' !! k = kwargs !! k) →
  naive_kwargs kwargs' = naive_kwargs kwargs.
Proof.
  intros Hagree. apply map_eq. intros k. rewrite !naive_kwargs_lookup.
  destruct (decide (k ∈ _)); [by apply Hagree|done].
Qed.

(** The keywords handed on all name a parameter of the plain layer exactly
    when the caller has not named a size the way megatron does. *)
Lemma naive_kwargs_accepted kwargs :
  map_Forall (λ k _, k ∈ parameters) (naive_kwargs kwargs) ↔
  ¬ megatron_size_keyword kwargs.
Proof.
  unfold megatron_size_keyword, parameters. split.
  - intros Hall [[v Hv]|[v Hv]].
    + specialize (Hall "output_size" v). rewrite naive_kwargs_lookup in Hall.
      rewrite decide_True in Hall by (by repeat constructor).
      specialize (Hall Hv).
      repeat (apply elem_of_cons in Hall as [?|Hall]; [done|]).
      by apply elem_of_nil in Hall.
    + specialize (Hall "input_size" v). rewrite naive_kwargs_lookup in Hall.
      rewrite decide_True in Hall by (by repeat constructor).
      specialize (Hall Hv).
      repeat (apply elem_of_cons in Hall as [?|Hall]; [done|]).
      by apply elem_of_nil in Hall.
  - intros Hno k v. rewrite naive_kwargs_lookup.
    destruct (decide (k ∈ _)) as [Hin|]; [|done]. intros Hv.
    apply elem_of_cons in Hin as [->|Hin]; [destruct Hno; left; eauto|].
    apply elem_of_cons in Hin as [->|Hin]; [destruct Hno; right; eauto|].
    apply elem_of_cons in Hin as [->|Hin]; [by repeat constructor|].
    by apply elem_of_nil in Hin.
Qed.

Lemma bind_refuses_megatron args kwargs :
  megatron_size_keyword kwargs →
  bind_parameters args (naive_kwargs kwargs) = Raise TypeError.
Proof.
  intros Hm. unfold bind_parameters.
  destruct (decide (length parameters < length args)%nat); [done|].
  rewrite decide_False; [done|].
  rewrite naive_kwargs_accepted. tauto.
Qed.

Lemma bind_two_positional kwargs (i o : arg) :
  ¬ megatron_size_keyword kwargs →
  bind_parameters [i; o] (naive_kwargs kwargs) =
    Ok (i, o, default py_True (kwargs !! "bias"), py_None, py_None).
Proof.
  intros Hm. unfold bind_parameters.
  rewrite decide_False by (cbn; lia).
  rewrite decide_True by (by apply naive_kwargs_accepted).
  unfold argument. cbn [lookup list_lookup].
  rewrite (naive_kwargs_other kwargs "in_features") by not_handed_on.
  rewrite (naive_kwargs_other kwargs "out_features") by not_handed_on.
  rewrite (naive_kwargs_other kwargs "device") by not_handed_on.
  rewrite (naive_kwargs_other kwargs "dtype") by not_handed_on.
  rewrite naive_kwargs_lookup.
  rewrite decide_True by (by repeat constructor).
  cbn [result_bind]. by destruct (kwargs !! "bias").
Qed.

Lemma bind_succeeds args kwargs bound :
  bind_parameters args (naive_kwargs kwargs) = Ok bound →
  ¬ megatron_size_keyword kwargs ∧ (2 ≤ length args ≤ 5)%nat.
Proof.
  unfold bind_parameters.
  destruct (decide (length parameters < length args)%nat) as [|Hlen];
    [done|].
  destruct (decide (map_Forall _ _)) as [Hall|]; [|done].
  apply naive_kwargs_accepted in Hall.
  unfold argument.
  rewrite (naive_kwargs_other kwargs "in_features") by not_handed_on.
  rewrite (naive_kwargs_other kwargs "out_features") by not_handed_on.
  destruct (args !! 0%nat) as [i|] eqn:H0; [|done].
  destruct (args !! 1%nat) as [o|] eqn:H1; [|done].
  intros _. split; [done|]. apply lookup_lt_Some in H1.
  cbn [length parameters] in Hlen. lia.
Qed.

(** X26: with a tensor-parallel size of 1 the three parallel linear
    classes hand the positional arguments and, of the keywords, only
    [output_size], [input_size] and [bias] to the plain layer, whose
    parameters are [in_features], [out_features], [bias], [device] and
    [dtype].  So a caller that names a size the way megatron does gets a
    [TypeError]; a caller that passes the two sizes by position gets the
    layer torch builds from them, from its [bias] keyword or [True], and
    from [None] for device and dtype; construction succeeds only without
    megatron's size keywords and with two to five positional arguments, and
    then returns a plain layer; every other keyword is dropped.  With any
    other tensor-parallel size a bare instance of the parallel class is
    returned and no plain layer is built. *)
Theorem plain_layer_keywords (tp_size : Z) args kwargs :
  (tp_size = 1 → megatron_size_keyword kwargs →
     ColumnParallelLinearWithoutBias__new__ tp_size args kwargs
       = Raise TypeError ∧
     ColumnParallelLMHead__new__ tp_size args kwargs = Raise TypeError ∧
     RowParallelLinearWithoutBias__new__ tp_size args kwargs
       = Raise TypeError) ∧
  (tp_size = 1 → ¬ megatron_size_keyword kwargs →
     ∀ in_features out_features, args = [in_features; out_features] →
     let built :=
       nn_Linear__init__ in_features out_features
                         (default py_True (kwargs !! "bias"))
                         py_None py_None in
     ColumnParallelLinearWithoutBias__new__ tp_size args kwargs
       = (let? layer := built in Ok (NaiveLinear layer)) ∧
     ColumnParallelLMHead__new__ tp_size args kwargs
       = (let? layer := built in
          Ok (NaiveLinearWithHiddenStates
                (mkLinearWithHiddenStates layer None))) ∧
     RowParallelLinearWithoutBias__new__ tp_size args kwargs
       = (let? layer := built in Ok (NaiveLinear layer))) ∧
  (tp_size = 1 →
     ∀ inst,
       ColumnParallelLinearWithoutBias__new__ tp_size args kwargs = Ok inst ∨
       ColumnParallelLMHead__new__ tp_size args kwargs = Ok inst ∨
       RowParallelLinearWithoutBias__new__ tp_size args kwargs = Ok inst →
       ¬ megatron_size_keyword kwargs ∧
       (2 ≤ length args ≤ 5)%nat ∧
       is_Some (plain_layer inst)) ∧
  (∀ kwargs',
     (∀ k, k ∈ ["output_size"; "input_size"; "bias"] →
           kwargs' !! k = kwargs !! k) →
     ColumnParallelLinearWithoutBias__new__ tp_size args kwargs'
       = ColumnParallelLinearWithoutBias__new__ tp_size args kwargs ∧
     ColumnParallelLMHead__new__ tp_size args kwargs'
       = ColumnParallelLMHead__new__ tp_size args kwargs ∧
     RowParallelLinearWithoutBias__new__ tp_size args kwargs'
       = RowParallelLinearWithoutBias__new__ tp_size args kwargs) ∧
  (tp_size ≠ 1 →
     ColumnParallelLinearWithoutBias__new__ tp_size args kwargs
       = Ok (ParallelInstance "ColumnParallelLinearWithoutBias") ∧
     ColumnParallelLMHead__new__ tp_size args kwargs
       = Ok (ParallelInstance "ColumnParallelLMHead") ∧
     RowParallelLinearWithoutBias__new__ tp_size args kwargs
       = Ok (ParallelInstance "RowParallelLinearWithoutBias")).
Proof.
  unfold ColumnParallelLinearWithoutBias__new__,
    ColumnParallelLMHead__new__, RowParallelLinearWithoutBias__new__,
    nn_Linear__call__, LinearWithHiddenStates__call__.
  split_and!.
  - intros -> Hm. rewrite !decide_True by done.
    by rewrite (bind_refuses_megatron args kwargs Hm).
  - intros -> Hm i o ->. rewrite !decide_True by done.
    rewrite (bind_two_positional kwargs i o Hm). cbn [result_bind].
    split_and!; try done.
    unfold result_bind. by destruct (nn_Linear__init__ _ _ _ _ _).
  - intros -> inst. rewrite !decide_True by done.
    destruct (bind_parameters args (naive_kwargs kwargs))
      as [bound|] eqn:Hbound;
      [|by intros [|[|]]].
    apply bind_succeeds in Hbound as [Hm Hlen].
    destruct bound as [[[[i o] b] d] t]. cbn [result_bind].
    unfold result_bind.
    destruct (nn_Linear__init__ i o b d t) as [layer|];
      [|by intros [|[|]]].
    intros [[= <-]|[[= <-]|[= <-]]]; split_and!; try done; try lia;
      cbn [plain_layer]; eauto.
  - intros kwargs' Hagree. by rewrite (naive_kwargs_ext kwargs kwargs').
  - intros Hne. by rewrite !decide_False.
Qed.

End NewFacts.

Import ScenarioMore.

Lemma plain_layer_keywords_witness :
  @ColumnParallelLMHead__new__ int_torch 1 []
    {[ "input_size" := 8; "output_size" := 4; "bias" := 0 ]}
  = Raise TypeError.
Proof.
  apply (proj1 (proj2 (proj1
           (@plain_layer_keywords int_torch 1 []
              {[ "input_size" := 8; "output_size" := 4; "bias" := 0 ]})
           eq_refl ltac:(left; by exists 4)))).
Defined.

Example sizes_by_position :
  @ColumnParallelLinearWithoutBias__new__ int_torch 1 [8; 4]
    {[ "bias" := 0; "gather_output" := 0 ]}
  = Ok (@NaiveLinear int_torch (8, 4, 0, 0, 0)).
Proof. by_evaluation. Qed.

Example bias_given_twice :
  @RowParallelLinearWithoutBias__new__ int_torch 1 [8; 4; 1]
    {[ "bias" := 0 ]}
  = Raise TypeError.
Proof. by_evaluation. Qed.

End LinearFacts.
